(** * Dataset.py: download the files of a metalink manifest and unzip them

    A shallow embedding of [Dataset.py] and of the library calls it
    makes, and the properties of the script.

    The script is fifty lines of Python: [download_file] streams a URL
    into a file under a progress bar, [extract_zip] unpacks an archive
    into a folder named after it, and the module level parses the
    manifest, makes the folders [downloads] and [data] and runs the two
    functions on every file element of the manifest.

    The embedding is a state-and-exception monad over a disk and an
    event log. What the script calls and does not define is modelled at
    the level of its contract:
    - [PosixPath]: [os.path.join], [basename], [splitext] on strings;
    - [Py]: [int] on a string;
    - [Xml]: ElementTree elements with [findall], [find], [get];
    - [Fs]: [open], [write], [os.makedirs] and the extraction of zip
      members on a disk of regular files and directories;
    - [Dataset]: the script, over a [world] that answers what the
      network, the manifest parser and the zip reader answer, with the
      one step of tqdm that can fail.

    Definitions come first, the properties after them. *)

From Stdlib Require Import ZArith Ascii Lia.
From Stdlib.Strings Require Import Byte.
From stdpp Require Import base option list strings gmap.

Local Open Scope Z_scope.

Abbreviation bytes := (list byte).

#[global] Instance byte_eq_dec : EqDecision byte := Byte.byte_eq_dec.

(** ** posixpath *)

Module PosixPath.

Definition sep : ascii := "/"%char.
Definition extsep : ascii := "."%char.

Fixpoint string_len (s : string) : Z :=
  match s with
  | EmptyString => 0
  | String _ r => 1 + string_len r
  end.

(** [s[i:]] and [s[:i]] for an index [0 <= i]. *)
Fixpoint drop_str (n : nat) (s : string) : string :=
  match n, s with
  | O, _ => s
  | S n', String _ r => drop_str n' r
  | S _, EmptyString => EmptyString
  end.

Fixpoint take_str (n : nat) (s : string) : string :=
  match n, s with
  | O, _ => EmptyString
  | S n', String a r => String a (take_str n' r)
  | S _, EmptyString => EmptyString
  end.

Definition slice_from (i : Z) (s : string) : string := drop_str (Z.to_nat i) s.
Definition slice_to (i : Z) (s : string) : string := take_str (Z.to_nat i) s.
Definition slice (i j : Z) (s : string) : string := slice_from i (slice_to j s).

(** [str.rfind(c)]: index of the last occurrence, [-1] when there is none. *)
Fixpoint rfind_from (c : ascii) (s : string) (i acc : Z) : Z :=
  match s with
  | EmptyString => acc
  | String a r => rfind_from c r (i + 1) (if Ascii.eqb a c then i else acc)
  end.

Definition rfind (c : ascii) (s : string) : Z := rfind_from c s 0 (-1).

Definition startswith (c : ascii) (s : string) : bool :=
  match s with
  | String a _ => Ascii.eqb a c
  | EmptyString => false
  end.

Fixpoint endswith (c : ascii) (s : string) : bool :=
  match s with
  | EmptyString => false
  | String a EmptyString => Ascii.eqb a c
  | String _ r => endswith c r
  end.

Definition is_empty (s : string) : bool :=
  match s with EmptyString => true | _ => false end.

(** [os.path.join(a, b)] with two arguments:
    an absolute [b] replaces [a]; an empty [a] or one that ends with the
    separator takes [b] as it is; otherwise a separator is put between. *)
Definition join (a b : string) : string :=
  if startswith sep b then b
  else if is_empty a || endswith sep a then a +:+ b
  else a +:+ String sep b.

(** [os.path.basename(p)]: [i = p.rfind(sep) + 1; return p[i:]]. *)
Definition basename (p : string) : string :=
  slice_from (rfind sep p + 1) p.

Fixpoint all_dots (s : string) : bool :=
  match s with
  | EmptyString => true
  | String a r => Ascii.eqb a extsep && all_dots r
  end.

(** [os.path.splitext(p)] (genericpath._splitext with no altsep): the
    extension starts at the last dot, provided that dot comes after the
    last separator and some character between the two is not a dot
    (leading dots of the base name are no extension). *)
Definition splitext (p : string) : string * string :=
  let sepIndex := rfind sep p in
  let dotIndex := rfind extsep p in
  if (dotIndex >? sepIndex) && negb (all_dots (slice (sepIndex + 1) dotIndex p))
  then (slice_to dotIndex p, slice_from dotIndex p)
  else (p, EmptyString).

(** [p.split(sep)]: the fields between separators; never empty. *)
Fixpoint split (s : string) : list string :=
  match s with
  | EmptyString => [EmptyString]
  | String a r =>
      if Ascii.eqb a sep then EmptyString :: split r
      else match split r with
           | h :: t => String a h :: t
           | [] => [String a EmptyString]
           end
  end.

End PosixPath.

(** ** int() on a str *)

Module Py.

(** Characters that [int] strips from both ends of a header value
    (decoded as Latin-1): tab to carriage return and the space, and
    the two white space characters above U+007F, which [int] turns
    into spaces first. The separators U+001C to U+001F are white space
    for [str.isspace] but not for [int]. *)
Definition isspace (c : ascii) : bool :=
  let n := Z.of_nat (nat_of_ascii c) in
  ((9 <=? n) && (n <=? 13)) || (n =? 32) || (n =? 133) || (n =? 160).

Definition digit (c : ascii) : option Z :=
  let n := Z.of_nat (nat_of_ascii c) in
  if (48 <=? n) && (n <=? 57) then Some (n - 48) else None.

Fixpoint lstrip (s : string) : string :=
  match s with
  | String a r => if isspace a then lstrip r else s
  | EmptyString => EmptyString
  end.

Fixpoint all_space (s : string) : bool :=
  match s with
  | EmptyString => true
  | String a r => isspace a && all_space r
  end.

Fixpoint rstrip (s : string) : string :=
  match s with
  | EmptyString => EmptyString
  | String a r => if all_space s then EmptyString else String a (rstrip r)
  end.

(** Digits with single underscores allowed between them.
    [prev] tells whether the previous character was a digit; the result
    carries the value and the number of digits read. *)
Fixpoint digits (s : string) (prev : bool) (acc : Z) (n : Z) : option (Z * Z) :=
  match s with
  | EmptyString => if prev then Some (acc, n) else None
  | String a r =>
      match digit a with
      | Some d => digits r true (10 * acc + d) (n + 1)
      | None =>
          if Ascii.eqb a "_"%char && prev then digits r false acc n
          else None
      end
  end.

(** CPython's default limit on the digits of a decimal literal given to
    [int] (sys.int_info.default_max_str_digits). *)
Definition max_str_digits : Z := 4300.

(** [int(s)] in base 10: [None] stands for ValueError. *)
Definition int (s : string) : option Z :=
  let t := rstrip (lstrip s) in
  let '(sign, body) :=
    match t with
    | String "+"%char r => (1, r)
    | String "-"%char r => (-1, r)
    | _ => (1, t)
    end in
  match digits body false 0 0 with
  | Some (v, n) => if n <=? max_str_digits then Some (sign * v) else None
  | None => None
  end.

End Py.

(** ** ElementTree *)

Module Xml.

(** An [xml.etree.ElementTree.Element]: tag (in Clark notation,
    [{uri}local]), attribute dictionary, text, child elements. *)
#[warnings="-register-all"] Inductive element : Type :=
  Element (tag : string) (attrib : gmap string string)
          (text : option string) (children : list element).

Definition tag (e : element) : string := let 'Element t _ _ _ := e in t.
Definition attrib (e : element) : gmap string string :=
  let 'Element _ a _ _ := e in a.
Definition text (e : element) : option string := let 'Element _ _ x _ := e in x.
Definition children (e : element) : list element :=
  let 'Element _ _ _ c := e in c.

(** Splits [prefix:local] at the first colon. *)
Fixpoint cut_prefix (s : string) : option (string * string) :=
  match s with
  | EmptyString => None
  | String a r =>
      if Ascii.eqb a ":"%char then Some (EmptyString, r)
      else match cut_prefix r with
           | Some (p, l) => Some (String a p, l)
           | None => None
           end
  end.

(** The tag a prefixed name stands for under a namespace dictionary;
    [None] when the prefix is not in the dictionary. *)
Definition expand (namespaces : gmap string string) (name : string)
  : option string :=
  match cut_prefix name with
  | Some (p, l) =>
      match namespaces !! p with
      | Some uri => Some ("{" +:+ uri +:+ "}" +:+ l)
      | None => None
      end
  | None => Some name
  end.

(** [e.findall(name, namespaces)] for a plain tag name: the direct
    children with that tag, in document order. *)
Definition findall (e : element) (name : string)
    (namespaces : gmap string string) : option (list element) :=
  match expand namespaces name with
  | Some t => Some (filter (fun c => tag c = t) (children e))
  | None => None
  end.

(** [e.find(name, namespaces)]: the first such child, or None. *)
Definition find (e : element) (name : string)
    (namespaces : gmap string string) : option (option element) :=
  match findall e name namespaces with
  | Some l => Some (head l)
  | None => None
  end.

(** [e.get(key)]. *)
Definition get (e : element) (key : string) : option string :=
  attrib e !! key.

End Xml.

(** ** Exceptions, state and the run monad *)

(** The exceptions the script can die of. Nothing in the script catches
    any of them. *)
Inductive exn : Type :=
| ParseError       (* ET.parse: manifest not well-formed *)
| SyntaxError      (* ElementPath: unknown namespace prefix *)
| AttributeError   (* [None.text] *)
| TypeError        (* os.path.join with None *)
| RequestException (* requests: bad URL, connection or stream failure *)
| ValueError       (* int() on a malformed header *)
| OverflowError    (* tqdm: a total too large for a float *)
| OSError          (* open, makedirs, a missing file, a directory where a
                      file is needed or the reverse: the class with its
                      subclasses (FileNotFoundError, IsADirectoryError, ...) *)
| BadZipFile       (* zipfile: not a zip archive; a bad member *)
| IndexError       (* zipfile: a member with the empty name *)
| RuntimeError     (* zipfile: an encrypted member *)
| NotImplementedError (* zipfile: a compression method it does not know *)
| ZlibError        (* zlib.error: member data that does not decompress *)
| EOFError.        (* zipfile: member data that ends too early *)

Inductive result (A : Type) : Type :=
| Ok (a : A)
| Raise (e : exn).
Arguments Ok {A} a.
Arguments Raise {A} e.

(** A place on the disk: whether it is counted from the root (or from the
    working directory), and the names leading to it, innermost first. A
    relative place can start with [".."] names, above the working
    directory. *)
Abbreviation loc := (bool * list string)%type.

(** What an observer of the run sees besides the disk. *)
Inductive event : Type :=
| Get (url : string)                       (* requests.get sent *)
| Bar (desc : string) (total n : Z)        (* tqdm bar shown with counter n *)
| Saved (path : string)                    (* destination closed after the last chunk *)
| Unpacked (zip_path extract_to : string)  (* extractall returned *)
| Stdout (line : string).                  (* print *)

Record state : Type := State {
  files : gmap loc bytes;     (* regular files and their contents *)
  dirs : gset loc;            (* directories *)
  out : list event            (* events so far, oldest first *)
}.

Definition M (A : Type) : Type := state -> result A * state.

Definition ret {A} (a : A) : M A := fun s => (Ok a, s).
Definition raise {A} (e : exn) : M A := fun s => (Raise e, s).
Definition bind {A B} (m : M A) (k : A -> M B) : M B :=
  fun s => match m s with
           | (Ok a, s') => k a s'
           | (Raise e, s') => (Raise e, s')
           end.

Notation "'let*' x ':=' m 'in' k" := (bind m (fun x => k))
  (at level 10, x name, m at level 100, k at level 200).
Notation "m '>>' k" := (bind m (fun _ => k))
  (at level 65, right associativity).

Definition emit (e : event) : M unit :=
  fun s => (Ok tt, State (files s) (dirs s) (out s ++ [e])).

(** A value that may be None where the code goes on to use it. *)
Definition expect {A} (o : option A) (e : exn) : M A :=
  match o with
  | Some a => ret a
  | None => raise e
  end.

(** [for x in l: body(x)]: the first exception ends the loop. *)
Fixpoint for_each {A} (l : list A) (body : A -> M unit) : M unit :=
  match l with
  | [] => ret tt
  | x :: l' => body x >> for_each l' body
  end.

(** ** The disk

    Regular files with their contents, and directories. A path is walked
    component by component from the root or the working directory, so
    that two strings that lead to the same place name the same file.
    There are no links, no permissions and no quota: an operation fails
    only for a missing directory on the way or for a file where a
    directory is needed (or the reverse). *)

Module Fs.
Import PosixPath.

(** Where a walk starts: the root for an absolute path, else the working
    directory. *)
Definition start (p : string) : loc := (startswith sep p, []).

Definition push (c : string) (l : loc) : loc := (l.1, c :: l.2).

(** One level up. The root is its own parent; above the working
    directory the place is written with [".."] names. *)
Definition pop (l : loc) : loc :=
  match l with
  | (true, []) => (true, [])
  | (false, []) => (false, [".."])
  | (a, c :: t) => if String.eqb c ".." then (a, ".." :: c :: t) else (a, t)
  end.

(** The place one path component leads to from [cur]. *)
Definition enter (c : string) (cur : loc) : loc :=
  if String.eqb c "" || String.eqb c "." then cur
  else if String.eqb c ".." then pop cur
  else push c cur.

(** The root, the working directory and the directories above it are
    there before the run and are no regular files. *)
Definition anchor (l : loc) : bool := forallb (String.eqb "..") l.2.

Definition is_dir (d : gset loc) (l : loc) : bool :=
  anchor l || bool_decide (l ∈ d).

Definition is_file (f : gmap loc bytes) (l : loc) : bool :=
  bool_decide (is_Some (f !! l)).

(** [os.path.normpath] as a place: components resolved by name alone. *)
Definition lexloc (p : string) : loc :=
  foldl (fun cur c => enter c cur) (start p) (split p).

(** The place a path names for [open]: every component but the last must
    lead to a directory, and the last must be a proper name (a path that
    ends in a separator, ["."] or [".."] names a directory). *)
Fixpoint walk (d : gset loc) (cs : list string) (cur : loc) : option loc :=
  match cs with
  | [] => None
  | [c] =>
      if String.eqb c "" || String.eqb c "." || String.eqb c ".." then None
      else Some (push c cur)
  | c :: rest =>
      let cur' := enter c cur in
      if is_dir d cur' then walk d rest cur' else None
  end.

Definition resolve (d : gset loc) (p : string) : option loc :=
  walk d (split p) (start p).

(** [open(path, 'wb')]: the file is created or truncated. Fails when the
    path cannot be walked or names a directory. Gives the place written
    to from then on. *)
Definition open_wb (path : string) : M loc :=
  fun s =>
    match resolve (dirs s) path with
    | Some l =>
        if is_dir (dirs s) l then (Raise OSError, s)
        else (Ok l, State (<[l := []]> (files s)) (dirs s) (out s))
    | None => (Raise OSError, s)
    end.

(** [file.write(chunk)] on an open file. *)
Definition write (l : loc) (chunk : bytes) : M unit :=
  fun s =>
    (Ok tt, State (alter (fun b => b ++ chunk) l (files s)) (dirs s) (out s)).

(** Reading a whole file, as [zipfile.ZipFile(path, 'r')] does. *)
Definition read (path : string) : M bytes :=
  fun s =>
    match resolve (dirs s) path with
    | Some l =>
        match files s !! l with
        | Some b => (Ok b, s)
        | None => (Raise OSError, s)
        end
    | None => (Raise OSError, s)
    end.

(** Directory creation along components: each place on the way becomes a
    directory unless a regular file is in the way. What was created
    before a failure stays. Gives the place reached. *)
Fixpoint mkdirs (cs : list string) (cur : loc) : M loc :=
  match cs with
  | [] => ret cur
  | c :: rest =>
      let cur' := enter c cur in
      fun s =>
        if is_file (files s) cur' then (Raise OSError, s)
        else mkdirs rest cur' (State (files s) ({[cur']} ∪ dirs s) (out s))
  end.

(** [os.makedirs(path, exist_ok=True)]. *)
Definition makedirs (path : string) : M unit :=
  if is_empty path then raise OSError
  else mkdirs (split path) (start path) >> ret tt.

(** *** zipfile *)

(** What can go wrong when the data of a member is read. *)
Inductive fault : Type :=
| BadMember     (* a bad header or a checksum that does not match: BadZipFile *)
| Encrypted     (* a password is required: RuntimeError *)
| Unsupported   (* a compression method or flag not known: NotImplementedError *)
| Inflate       (* data that does not decompress: zlib.error *)
| Truncated     (* data that ends too early: EOFError *)
| Unread.       (* the archive cannot be read further: OSError *)

Definition error_of (f : fault) : exn :=
  match f with
  | BadMember => BadZipFile
  | Encrypted => RuntimeError
  | Unsupported => NotImplementedError
  | Inflate => ZlibError
  | Truncated => EOFError
  | Unread => OSError
  end.

(** What reading a member gives: its data; or an exception when the
    member is opened, before its target is; or an exception while the
    data is copied, after [written] has reached the target. *)
Inductive payload : Type :=
| Data (d : bytes)
| Unreadable (f : fault)
| Corrupt (written : bytes) (f : fault).

(** A member of an archive: its stored name and what reading it gives.
    A name that ends with the separator is a directory entry. *)
Abbreviation member := (string * payload)%type.

Definition valid_part (c : string) : bool :=
  negb (String.eqb c "" || String.eqb c "." || String.eqb c "..").

(** The name a member is extracted under: empty, ["."] and [".."]
    components are dropped. *)
Definition arcname (filename : string) : list string :=
  filter (fun c => valid_part c = true) (split filename).

Fixpoint split_last (l : list string) : option (list string * string) :=
  match l with
  | [] => None
  | [c] => Some ([], c)
  | c :: r =>
      match split_last r with
      | Some (i, x) => Some (c :: i, x)
      | None => None
      end
  end.

(** [open(targetpath, "wb")] and what is copied into it: the target
    is created or truncated, unless it is a directory. *)
Definition copy_to (target : loc) (d : bytes) : M unit :=
  fun s =>
    if is_dir (dirs s) target then (Raise OSError, s)
    else (Ok tt, State (<[target := d]> (files s)) (dirs s) (out s)).

(** [with self.open(member) as source, open(targetpath, "wb") as target:
    shutil.copyfileobj(source, target)]: the member is opened before
    the target is. *)
Definition store (target : loc) (c : payload) : M unit :=
  match c with
  | Data d => copy_to target d
  | Unreadable f => raise (error_of f)
  | Corrupt written f => copy_to target written >> raise (error_of f)
  end.

(** [ZipFile._extract_member]: missing upper directories are created,
    then a directory entry becomes a directory and a file entry is
    written under its name below [base]. A file entry whose name has
    no proper component has [base] itself as its target; the empty
    name fails before that, where the last character of the name is
    looked at. *)
Definition extract_member (base : loc) (m : member) : M unit :=
  let cs := arcname m.1 in
  if endswith sep m.1 then mkdirs cs base >> ret tt
  else
    match split_last cs with
    | None => if is_empty m.1 then raise IndexError else store base m.2
    | Some (upper, name) =>
        let* d := mkdirs upper base in
        store (push name d) m.2
    end.

(** [ZipFile.extractall(path)] over the members of an opened archive. *)
Definition extractall (path : string) (members : list member) : M unit :=
  for_each members (extract_member (lexloc path)).

End Fs.

(** ** The script *)

Module Dataset.
Import PosixPath Fs.

(** What [requests.get(url, stream=True)] gives back: the status line,
    the headers (names in lower case, as the case-insensitive dictionary
    of requests keys them), the chunks [iter_content(chunk_size=1024)]
    yields (of any length here, empty ones included), and whether the
    stream ends properly or breaks after the last of them, in which case
    the iteration raises. *)
Record response : Type := Response {
  status_code : Z;
  headers : gmap string string;
  chunks : list bytes;
  complete : bool
}.

(** What [ET.parse] finds at Dataset.meta4. *)
Inductive document : Type :=
| Missing                       (* no such file: FileNotFoundError *)
| Malformed                     (* not well-formed XML: ParseError *)
| Parsed (root : Xml.element).

(** Everything outside the script that a run depends on, the disk apart:
    the manifest file, the answer of the network to each URL ([None]:
    no response, requests raises), and the member list the zip reader
    finds in a file ([None]: not a zip archive). *)
Record world : Type := World {
  meta4 : document;
  http : string -> option response;
  unzip : bytes -> option (list member)
}.

(** The root element of the manifest, when it has one. *)
Definition manifest (w : world) : option Xml.element :=
  match meta4 w with
  | Parsed root => Some root
  | Missing | Malformed => None
  end.

(** [ET.parse(xml_file).getroot()]. *)
Definition parse (w : world) : M Xml.element :=
  match meta4 w with
  | Parsed root => ret root
  | Malformed => raise ParseError
  | Missing => raise OSError
  end.

Definition byte_len (b : bytes) : Z := Z.of_nat (length b).

Definition is_nil (b : bytes) : bool :=
  match b with [] => true | _ => false end.

(** [requests.get(url, stream=True)]; [url] is None when the manifest's
    url element has no text. *)
Definition requests_get (w : world) (url : option string) : M response :=
  match url with
  | None => raise RequestException
  | Some u => emit (Get u) >> expect (http w u) RequestException
  end.

(** [int(response.headers.get('content-length', 0))]. *)
Definition total_size_of (r : response) : M Z :=
  match headers r !! "content-length" with
  | Some v => expect (Py.int v) ValueError
  | None => ret 0
  end.

(** The body of [for chunk in response.iter_content(chunk_size=1024)]:
    empty chunks are skipped, the others are written and counted on the
    bar, whose counter is [n]. *)
Fixpoint pump (file : loc) (desc : string) (total n : Z) (cs : list bytes)
  : M unit :=
  match cs with
  | [] => ret tt
  | chunk :: rest =>
      if is_nil chunk then pump file desc total n rest
      else
        write file chunk >>
        emit (Bar desc total (n + byte_len chunk)) >>
        pump file desc total (n + byte_len chunk) rest
  end.

(** The integers from which on the conversion to a float overflows:
    those that round to 2^1024 or beyond. *)
Definition float_limit : Z := 2 ^ 1024 - 2 ^ 970.

Definition fits_float (n : Z) : bool := Z.abs n <? float_limit.

(** [tqdm(total=..., desc=...)]: the bar is drawn when it is made, and
    drawing it compares the counter with [total + 0.5], which converts
    a total other than 0 to a float. *)
Definition tqdm (desc : string) (total : Z) : M unit :=
  if fits_float total then emit (Bar desc total 0)
  else raise OverflowError.

Definition download_file (w : world) (url : option string)
    (destination_path : string) : M unit :=
  let* response := requests_get w url in
  let* total_size := total_size_of response in
  let* file := open_wb destination_path in
  let desc := basename destination_path in
  tqdm desc total_size >>
  pump file desc total_size 0 (chunks response) >>
  if complete response then emit (Saved destination_path)
  else raise RequestException.

(** The two locals of [extract_zip]. *)
Definition zip_name (zip_path : string) : string :=
  (splitext (basename zip_path)).1.

Definition extract_to (zip_path destination_folder : string) : string :=
  join destination_folder (zip_name zip_path).

Definition extract_zip (w : world) (zip_path destination_folder : string)
  : M unit :=
  let extract_to := extract_to zip_path destination_folder in
  makedirs extract_to >>
  let* content := read zip_path in
  let* members := expect (unzip w content) BadZipFile in
  extractall extract_to members >>
  emit (Unpacked zip_path extract_to) >>
  emit (Stdout ("Extracted: " +:+ zip_path +:+ " to " +:+ extract_to)).

Definition namespace : gmap string string :=
  {[ "ml" := "urn:ietf:params:xml:ns:metalink" ]}.

(** [file_path = os.path.join("downloads", file_name)]. *)
Definition file_path (file_name : string) : string :=
  join "downloads" file_name.

(** The body of the loop over the manifest's file elements. *)
Definition process (w : world) (file : Xml.element) : M unit :=
  let file_name := Xml.get file "name" in
  let* u := expect (Xml.find file "ml:url" namespace) SyntaxError in
  let* u := expect u AttributeError in
  let url := Xml.text u in
  let* file_path := expect (file_path <$> file_name) TypeError in
  download_file w url file_path >>
  extract_zip w file_path "data".

(** The module level of the script, from [ET.parse] on. *)
Definition main (w : world) : M unit :=
  let* root := parse w in
  makedirs "downloads" >>
  makedirs "data" >>
  let* file_elements := expect (Xml.findall root "ml:file" namespace) SyntaxError in
  for_each file_elements (process w) >>
  emit (Stdout "Download and extraction complete.").

End Dataset.

Import PosixPath Fs Dataset.

(** ** Concrete manifests, responses and archives *)

Module Demo.

(** The archive with no member: an end-of-central-directory record. *)
Definition empty_zip : bytes :=
  [x50; x4b; x05; x06; x00; x00; x00; x00; x00; x00; x00; x00; x00; x00;
   x00; x00; x00; x00; x00; x00; x00; x00].

Definition readme_head : bytes :=
  [x50; x4b; x03; x04; x14; x00; x00; x00; x00; x00; x00; x00; x21; x00;
   xac; x2a; x93; xd8; x02; x00; x00; x00; x02; x00; x00; x00; x0a; x00;
   x00; x00; x72; x65; x61; x64; x6d; x65; x2e; x74; x78; x74; x68; x69].

Definition readme_tail : bytes :=
  [x50; x4b; x01; x02; x14; x03; x14; x00; x00; x00; x00; x00; x00; x00;
   x21; x00; xac; x2a; x93; xd8; x02; x00; x00; x00; x02; x00; x00; x00;
   x0a; x00; x00; x00; x00; x00; x00; x00; x00; x00; x00; x00; x80; x01;
   x00; x00; x00; x00; x72; x65; x61; x64; x6d; x65; x2e; x74; x78; x74;
   x50; x4b; x05; x06; x00; x00; x00; x00; x01; x00; x01; x00; x38; x00;
   x00; x00; x2a; x00; x00; x00; x00; x00].

(** An archive of 120 bytes with one stored member, [readme.txt],
    holding the two bytes of "hi". *)
Definition readme_zip : bytes := readme_head ++ readme_tail.

(** The zip reader on the two archives above; any other content is
    refused. *)
Definition zip_table (b : bytes) : option (list Fs.member) :=
  if decide (b = empty_zip) then Some []
  else if decide (b = readme_zip) then Some [("readme.txt", Fs.Data [x68; x69])]
  else None.

Definition ns_tag (local : string) : string :=
  "{urn:ietf:params:xml:ns:metalink}" +:+ local.

Definition url_element (u : string) : Xml.element :=
  Xml.Element (ns_tag "url") ∅ (Some u) [].

Definition file_element (name u : string) : Xml.element :=
  Xml.Element (ns_tag "file") {[ "name" := name ]} None [url_element u].

Definition metalink (l : list Xml.element) : Xml.element :=
  Xml.Element (ns_tag "metalink") ∅ None l.

Definition serve (table : list (string * response)) (u : string)
  : option response :=
  snd <$> List.find (fun e => bool_decide (e.1 = u)) table.

Definition length_header (n : string) : gmap string string :=
  {[ "content-length" := n ]}.

(** A program started in an empty directory. *)
Definition fresh : state := State ∅ ∅ [].

(** The scenario of two entries, [a.zip] and [b.zip]. *)
Definition two_entries : world :=
  World (Parsed (metalink [file_element "a.zip" "http://host/a.zip";
                         file_element "b.zip" "http://host/b.zip"]))
        (serve [("http://host/a.zip",
                 Response 200 (length_header "120") [readme_head; readme_tail] true);
                ("http://host/b.zip",
                 Response 200 (length_header "22") [empty_zip] true)])
        zip_table.

(** The same, but the first URL answers 404 with a body that happens to
    be an archive. *)
Definition not_found : world :=
  World (meta4 two_entries)
        (serve [("http://host/a.zip",
                 Response 404 (length_header "22") [empty_zip] true);
                ("http://host/b.zip",
                 Response 200 (length_header "22") [empty_zip] true)])
        zip_table.

(** One entry named [example.zip]. *)
Definition example_entry : world :=
  World (Parsed (metalink [file_element "example.zip" "http://host/example.zip"]))
        (serve [("http://host/example.zip",
                 Response 200 ∅ [readme_head; []; readme_tail] true)])
        zip_table.

(** A manifest without file elements. *)
Definition no_entries : world :=
  World (Parsed (metalink [])) (serve []) zip_table.

(** Three entries; the stream of the second breaks after its first
    chunk. *)
Definition broken_second : world :=
  World (Parsed (metalink [file_element "a.zip" "http://host/a.zip";
                         file_element "b.zip" "http://host/b.zip";
                         file_element "c.zip" "http://host/c.zip"]))
        (serve [("http://host/a.zip",
                 Response 200 (length_header "22") [empty_zip] true);
                ("http://host/b.zip",
                 Response 200 (length_header "120") [readme_head] false);
                ("http://host/c.zip",
                 Response 200 (length_header "22") [empty_zip] true)])
        zip_table.

(** One URL, one response. *)
Definition single (u : string) (r : response) : world :=
  World Missing (serve [(u, r)]) zip_table.

End Demo.

(** A response to one request whose content-length header is [v]. *)
Definition sized (v : string) : response :=
  Response 200 (Demo.length_header v) [Demo.empty_zip] true.

(** A content-length of 310 digits: 10^309, which [int] accepts and
    which is too large for a float. *)
Definition huge_length : string :=
  String "1" (String.string_of_list_ascii (repeat "0"%char 309)).

(** A content-length that ends with the separator U+001D, which is
    white space for [str.isspace] and not for [int]. *)
Definition separated_length : string :=
  String "5" (String (Ascii.ascii_of_nat 29) EmptyString).

(** A directory in which only [downloads] exists. *)
Definition in_downloads : state := State ∅ {[(false, ["downloads"])]} [].

(** [Demo.not_found] with a 200 in place of the 404. *)
Definition found_instead : world :=
  World (meta4 Demo.two_entries)
        (Demo.serve [("http://host/a.zip",
                 Response 200 (Demo.length_header "22") [Demo.empty_zip] true);
                ("http://host/b.zip",
                 Response 200 (Demo.length_header "22") [Demo.empty_zip] true)])
        Demo.zip_table.

(** ** Vocabulary of the properties *)

(** Whether a character occurs in a string. *)
Fixpoint has (c : ascii) (s : string) : bool :=
  match s with
  | EmptyString => false
  | String a r => Ascii.eqb a c || has c r
  end.

(** Whether two dots in a row occur in a string. *)
Fixpoint has_dotdot (s : string) : bool :=
  match s with
  | EmptyString => false
  | String a r =>
      match r with
      | String b _ => (Ascii.eqb a extsep && Ascii.eqb b extsep) || has_dotdot r
      | EmptyString => false
      end
  end.

(** Whether a relative path, its components resolved by name, leads into
    the directory [downloads] of the working directory (or is it). *)
Definition under_downloads (p : string) : bool :=
  let l := Fs.lexloc p in
  negb l.1 && match last l.2 with
              | Some c => String.eqb c "downloads"
              | None => false
              end.

(** Every file and every directory of [s] is still there in [s']
    (contents may differ). *)
Definition shape_le (s s' : state) : Prop :=
  dom (files s) ⊆ dom (files s') /\ dirs s ⊆ dirs s'.

(** No place is both a directory and a regular file; the root, the
    working directory and the directories above it are no files. *)
Definition wf (s : state) : Prop :=
  forall l, Fs.is_dir (dirs s) l = true -> files s !! l = None.

(** An action that removes nothing from the disk and keeps it well
    formed, whatever its result. *)
Definition grows {A} (m : M A) : Prop :=
  forall s r s', m s = (r, s') -> shape_le s s' /\ (wf s -> wf s').

(** The events that mark the operations of an entry: a download starts,
    a download is complete, an extraction is complete. *)
Definition key (e : event) : bool :=
  match e with
  | Get _ | Saved _ | Unpacked _ _ => true
  | Bar _ _ _ | Stdout _ => false
  end.

(** The operations in a log, in order. *)
Definition ops (t : list event) : list event := List.filter key t.

(** The size [download_file] reads off a response: the parsed header, 0
    without one, nothing when [int] rejects the header. *)
Definition declared_size (r : response) : option Z :=
  match headers r !! "content-length" with
  | Some v => Py.int v
  | None => Some 0
  end.

(** The bar refreshes of the download loop, as a list. *)
Fixpoint bars (desc : string) (total n : Z) (cs : list bytes) : list event :=
  match cs with
  | [] => []
  | chunk :: rest =>
      if is_nil chunk then bars desc total n rest
      else Bar desc total (n + byte_len chunk)
             :: bars desc total (n + byte_len chunk) rest
  end.

(** [s] with more events. *)
Definition log (s : state) (t : list event) : state :=
  State (files s) (dirs s) (out s ++ t).

(** [download_file] in closed form. *)
Definition download_outcome (w : world) (url : option string) (p : string)
    (s : state) : result unit * state :=
  match url with
  | None => (Raise RequestException, s)
  | Some u =>
      match http w u with
      | None => (Raise RequestException, log s [Get u])
      | Some r =>
          match declared_size r with
          | None => (Raise ValueError, log s [Get u])
          | Some t =>
              match resolve (dirs s) p with
              | None => (Raise OSError, log s [Get u])
              | Some l =>
                  if is_dir (dirs s) l then (Raise OSError, log s [Get u])
                  else if fits_float t then
                    (if complete r then Ok tt else Raise RequestException,
                     State (<[l := concat (chunks r)]> (files s)) (dirs s)
                       (out s ++ [Get u; Bar (PosixPath.basename p) t 0]
                          ++ bars (PosixPath.basename p) t 0 (chunks r)
                          ++ (if complete r then [Saved p] else [])))
                  else
                    (Raise OverflowError,
                     State (<[l := []]> (files s)) (dirs s) (out s ++ [Get u]))
              end
          end
      end
  end.

(** An action that leaves the event log alone. *)
Definition silent {A} (m : M A) : Prop :=
  forall s r s', m s = (r, s') -> out s' = out s.

(** Where a file member lands below [base]. *)
Definition target (base : loc) (m : member) : loc :=
  (base.1, rev (arcname m.1) ++ base.2).

(** The line [extract_zip] prints. *)
Definition extracted_line (zip_path extract_to : string) : string :=
  "Extracted: " +:+ zip_path +:+ " to " +:+ extract_to.

(** The name and URL the loop body reads off a file element that has
    both. *)
Definition entry_of (file : Xml.element) : option (string * string) :=
  match Xml.get file "name", Xml.find file "ml:url" namespace with
  | Some name, Some (Some ue) =>
      match Xml.text ue with
      | Some u => Some (name, u)
      | None => None
      end
  | _, _ => None
  end.

(** The content-length header of a response is absent or is one that
    [int] accepts and the bar can show. *)
Definition length_header_ok (r : response) : Prop :=
  exists t, declared_size r = Some t /\ fits_float t = true.

(** The last line the script prints. *)
Definition complete_line : string := "Download and extraction complete.".

(** The operations of one entry, in the order the loop body performs
    them: the download starts, the download is complete, the extraction
    is complete. *)
Definition step (e : string * string) : list event :=
  [Get e.2; Saved (file_path e.1);
   Unpacked (file_path e.1) (extract_to (file_path e.1) "data")].

Definition schedule (es : list (string * string)) : list event :=
  flat_map step es.

(** What a completed download of [u] to [p] has done between [s] and
    [s']: the response has come and its body is the content of the
    file that [p] names, no other file and no directory has changed,
    and the log has grown by the request, the bar and the closing of
    the destination. *)
Definition downloaded (w : world) (u p : string) (s s' : state) : Prop :=
  exists r l t,
    http w u = Some r
    /\ declared_size r = Some t
    /\ resolve (dirs s) p = Some l
    /\ files s' = <[l := concat (chunks r)]> (files s)
    /\ dirs s' = dirs s
    /\ out s' = out s ++ [Get u; Bar (PosixPath.basename p) t 0]
                  ++ bars (PosixPath.basename p) t 0 (chunks r) ++ [Saved p].

(** What a completed extraction of the archive at [p] under [d] has
    done between [s] and [s']: the file at [p] is an archive, the
    folder named after it is a directory, every file member is at its
    place below the folder with its data (the last member of a name
    wins), every directory member is a directory, no other file has
    changed and no directory is gone, and the log has grown by the
    report. *)
Definition extracted (w : world) (p d : string) (s s' : state) : Prop :=
  exists l b ms,
    resolve (dirs s') p = Some l
    /\ files s !! l = Some b
    /\ unzip w b = Some ms
    /\ lexloc (extract_to p d) ∈ dirs s'
    /\ dirs s ⊆ dirs s'
    /\ (forall pre m post,
          ms = pre ++ m :: post ->
          PosixPath.endswith PosixPath.sep m.1 = false ->
          (forall m', m' ∈ post ->
             PosixPath.endswith PosixPath.sep m'.1 = false ->
             arcname m'.1 <> arcname m.1) ->
          exists data,
            m.2 = Data data
            /\ files s' !! target (lexloc (extract_to p d)) m = Some data)
    /\ (forall m,
          m ∈ ms ->
          PosixPath.endswith PosixPath.sep m.1 = true ->
          target (lexloc (extract_to p d)) m ∈ dirs s')
    /\ (forall l',
          (forall m, m ∈ ms ->
             PosixPath.endswith PosixPath.sep m.1 = false ->
             l' <> target (lexloc (extract_to p d)) m) ->
          files s' !! l' = files s !! l')
    /\ out s' = out s ++ [Unpacked p (extract_to p d);
                          Stdout (extracted_line p (extract_to p d))].

(** The entries [es], each with its name and URL, performed one after
    the other from [s] to [s']: the download of an entry starts on the
    disk that the extraction of the entry before it has left. *)
Inductive performed (w : world)
  : list (string * string) -> state -> state -> Prop :=
| performed_nil s : performed w [] s s
| performed_cons name u es s s1 s2 s3 :
    downloaded w u (file_path name) s s1 ->
    extracted w (file_path name) "data" s1 s2 ->
    performed w es s2 s3 ->
    performed w ((name, u) :: es) s s3.

(** The three kinds of operation. *)
Definition is_get (e : event) : bool :=
  match e with Get _ => true | _ => false end.
Definition is_saved (e : event) : bool :=
  match e with Saved _ => true | _ => false end.
Definition is_unpacked (e : event) : bool :=
  match e with Unpacked _ _ => true | _ => false end.

(** A status of the 2xx class. *)
Definition is_success (code : Z) : bool := (200 <=? code) && (code <? 300).

(** Two responses that differ at most in their status line. *)
Definition same_but_status (r r' : response) : Prop :=
  headers r = headers r' /\ chunks r = chunks r' /\ complete r = complete r'.

(** Two worlds whose responses differ at most in their status lines. *)
Definition same_but_statuses (w w' : world) : Prop :=
  meta4 w = meta4 w'
  /\ (forall b, unzip w b = unzip w' b)
  /\ (forall u, option_Forall2 same_but_status (http w u) (http w' u)).

(** The artifact at [path] is on the disk. *)
Definition artifact_present (path : string) (s : state) : Prop :=
  exists l, resolve (dirs s) path = Some l /\ is_Some (files s !! l).

(** The folder [path] is on the disk. *)
Definition folder_present (path : string) (s : state) : Prop :=
  lexloc path ∈ dirs s.

(** The first two statements of the script after the parse. *)
Definition base_folders : M unit := makedirs "downloads" >> makedirs "data".

(** The same files with the same contents and the same directories. *)
Definition same_disk (s t : state) : Prop :=
  files s = files t /\ dirs s = dirs t.

(** [t] is a state of a second run that has come as far as the first run
    had when it was in [s]; [sF] is the disk the first run ended with.
    The second run has all the files and directories of [sF], and each
    file holds what the first run had put there by then, or else what it
    held in [sF]. *)
Definition sim (sF s t : state) : Prop :=
  dirs t = dirs sF
  /\ dom (files t) = dom (files sF)
  /\ forall l, files t !! l = files s !! l \/ files t !! l = files sF !! l.

Definition failed {A} (r : result A) : Prop :=
  match r with Raise _ => True | Ok _ => False end.

(** An action that a second run repeats with the same outcome. *)
Definition replays {A} (m : M A) : Prop :=
  forall sF s t r s',
    wf sF ->
    m s = (r, s') ->
    shape_le s' sF ->
    (failed r -> same_disk s' sF) ->
    sim sF s t ->
    exists t', m t = (r, t') /\ sim sF s' t'.

(** What [extract_zip] does once the archive is read. *)
Definition unpack (w : world) (p d : string) (content : bytes) : M unit :=
  let* members := expect (unzip w content) BadZipFile in
  extractall (extract_to p d) members >>
  emit (Unpacked p (extract_to p d)) >>
  emit (Stdout (extracted_line p (extract_to p d))).

(** ** Vocabulary of the further properties *)

(** The tags [findall] and [find] look for under the namespace of the
    script. *)
Definition file_tag : string := "{urn:ietf:params:xml:ns:metalink}file".
Definition url_tag : string := "{urn:ietf:params:xml:ns:metalink}url".

(** The file elements the loop runs over. *)
Definition file_children (root : Xml.element) : list Xml.element :=
  filter (fun c => Xml.tag c = file_tag) (Xml.children root).

(** The url element the loop body reads. *)
Definition url_child (file : Xml.element) : option Xml.element :=
  head (filter (fun c => Xml.tag c = url_tag) (Xml.children file)).

(** The exception the loop body raises for a file element that lacks a
    url element, a name, or the text of its url, in the order the body
    comes to them. *)
Definition entry_error (file : Xml.element) : exn :=
  match url_child file with
  | None => AttributeError
  | Some _ =>
      match Xml.get file "name" with
      | None => TypeError
      | Some _ => RequestException
      end
  end.

(** The names of the elements [fs] that have one all pass the test
    [b]. *)
Definition names_pass (b : string -> bool) (fs : list Xml.element) : bool :=
  forallb (fun f => match Xml.get f "name" with
                    | Some n => b n
                    | None => true
                    end) fs.

(** An action whose exceptions all satisfy [E]. *)
Definition raises_only {A} (E : exn -> Prop) (m : M A) : Prop :=
  forall s e s', m s = (Raise e, s') -> E e.

(** Exceptions of the disk. *)
Definition disk_error (e : exn) : Prop := e = OSError.

(** Exceptions of [download_file]. *)
Definition download_error (e : exn) : Prop :=
  e = RequestException \/ e = ValueError \/ e = OSError \/ e = OverflowError.

(** Exceptions of the extraction of a member. *)
Definition member_error (e : exn) : Prop :=
  e = OSError \/ e = IndexError \/ exists f, e = error_of f.

(** Exceptions of [extract_zip]. *)
Definition extract_error (e : exn) : Prop :=
  e = BadZipFile \/ member_error e.

(** An action that only appends to the log, and only events that
    satisfy [P]. *)
Definition emits {A} (P : event -> Prop) (m : M A) : Prop :=
  forall s r s', m s = (r, s') -> exists t, out s' = out s ++ t /\ Forall P t.

(** Any event but the final line of the script. *)
Definition not_final (e : event) : Prop := e <> Stdout complete_line.

(** What the script prints last: the final line after a normal return,
    nothing after an exception. *)
Definition closing (r : result unit) : list event :=
  match r with
  | Ok _ => [Stdout complete_line]
  | Raise _ => []
  end.

(** An action that appends to the log events other than the final line
    and then, when it returns normally, the final line. *)
Definition closes (m : M unit) : Prop :=
  forall s r s', m s = (r, s') ->
    exists t, Forall not_final t /\ out s' = out s ++ t ++ closing r.

(** The counter a bar event shows. *)
Definition counter_of (e : event) : option Z :=
  match e with
  | Bar _ _ n => Some n
  | _ => None
  end.

(** The counter the bar shows last in a log, [acc] when the log has no
    bar event. *)
Fixpoint final_count_from (acc : option Z) (t : list event) : option Z :=
  match t with
  | [] => acc
  | e :: rest =>
      final_count_from
        (match counter_of e with Some n => Some n | None => acc end) rest
  end.

Definition final_count (t : list event) : option Z := final_count_from None t.

(** A plain file name: no separator in it, and not empty, ["."] or
    [".."]. *)
Definition plain (n : string) : bool := negb (has sep n) && valid_part n.

(** A place of the working directory that is [root] or lies below it. *)
Definition under (root : string) (l : loc) : Prop :=
  l.1 = false /\ last l.2 = Some root.

(** A place that lies below [b], [b] itself apart. *)
Definition below (b l : loc) : Prop :=
  exists pre, pre <> [] /\ l = (b.1, pre ++ b.2).

(** [b] or a place below it. *)
Definition at_or_below (b l : loc) : Prop := l = b \/ below b l.

(** A place in one of the two folders of the script, or one of them. *)
Definition in_base_folders (l : loc) : Prop :=
  under "downloads" l \/ under "data" l.

(** Where the artifact of a plain name is. *)
Definition artifact (n : string) : loc := (false, [n; "downloads"]).

(** From [s] to [s'] the files that are new or have other contents are
    all in [F], and the directories that are new are all in [D]. *)
Definition changes (F D : loc -> Prop) (s s' : state) : Prop :=
  (forall l, files s' !! l <> files s !! l -> F l)
  /\ (forall l, l ∈ dirs s' -> l ∈ dirs s \/ D l).

(** An action that changes the disk within [F] and [D] only. *)
Definition confined {A} (F D : loc -> Prop) (m : M A) : Prop :=
  forall s r s', m s = (r, s') -> changes F D s s'.

(** *** More manifests, responses and disks *)

(** The archive [Demo.readme_zip] sent in one chunk. *)
Definition readme_whole : response :=
  Response 200 ∅ [Demo.readme_zip] true.

(** The same archive sent in two chunks, an empty one between them. *)
Definition readme_parts : response :=
  Response 200 ∅ [Demo.readme_head; []; Demo.readme_tail] true.

(** A file element without a url element, after [a.zip]. *)
Definition second_without_url : world :=
  World (Parsed (Demo.metalink
                 [Demo.file_element "a.zip" "http://host/a.zip";
                  Xml.Element file_tag {[ "name" := "b.zip" ]} None []]))
        (http Demo.two_entries) Demo.zip_table.

(** The manifest of [Demo.two_entries] with more in it: another root
    tag, an element that is no file element, a file element of no
    namespace, and a second url in the first entry. *)
Definition with_more : world :=
  World (Parsed (Xml.Element "metalink" ∅ (Some "x")
                 [Xml.Element (Demo.ns_tag "published") ∅ (Some "2020") [];
                  Xml.Element file_tag {[ "name" := "a.zip" ]} None
                    [Demo.url_element "http://host/a.zip";
                     Demo.url_element "http://mirror/a.zip"];
                  Xml.Element "file" {[ "name" := "z.zip" ]} None
                    [Demo.url_element "http://host/z.zip"];
                  Demo.file_element "b.zip" "http://host/b.zip"]))
        (http Demo.two_entries) Demo.zip_table.

(** Two entries of the name [a.zip] with different URLs, then
    [b.zip]. *)
Definition same_name_twice : world :=
  World (Parsed (Demo.metalink
                 [Demo.file_element "a.zip" "http://host/a.zip";
                  Demo.file_element "a.zip" "http://host/b.zip";
                  Demo.file_element "b.zip" "http://host/b.zip"]))
        (http Demo.two_entries) Demo.zip_table.

(** A disk with [downloads] and one file in it, which is no archive. *)
Definition one_artifact : state :=
  State {[ (false, ["x.zip"; "downloads"]) := [x00] ]}
        {[ (false, ["downloads"]) ]} [].

(** A world whose zip reader finds three members, the second with
    a checksum that does not match its two bytes. *)
Definition bad_second_member : world :=
  World Missing (fun _ => None)
        (fun _ => Some [("a.txt", Data [x68; x69]);
                        ("sub/b.txt", Corrupt [] BadMember);
                        ("c.txt", Data [x63; x63])]).

(** A world whose zip reader finds one member, named to climb out of
    the folder it is extracted into. *)
Definition climbing_member : world :=
  World Missing (fun _ => None)
        (fun _ => Some [("../../etc/passwd", Data [x41])]).

(** * Properties *)

(** ** The path functions and [int] on examples *)

Section PathTests.

Example join_rel : join "downloads" "example.zip" = "downloads/example.zip".
Proof. reflexivity. Qed.
Example join_abs : join "downloads" "/etc/passwd" = "/etc/passwd".
Proof. reflexivity. Qed.
Example join_slash : join "downloads/" "a" = "downloads/a".
Proof. reflexivity. Qed.
Example join_empty : join "" "a" = "a".
Proof. reflexivity. Qed.
Example basename_1 : basename "downloads/example.zip" = "example.zip".
Proof. reflexivity. Qed.
Example basename_2 : basename "downloads/" = "".
Proof. reflexivity. Qed.
Example splitext_1 : splitext "a.tar.gz" = ("a.tar", ".gz").
Proof. reflexivity. Qed.
Example splitext_2 : splitext ".bashrc" = (".bashrc", "").
Proof. reflexivity. Qed.
Example splitext_3 : splitext "d.x/noext" = ("d.x/noext", "").
Proof. reflexivity. Qed.
Example splitext_4 : splitext "...x.y" = ("...x", ".y").
Proof. reflexivity. Qed.
Example splitext_5 : splitext "a." = ("a", ".").
Proof. reflexivity. Qed.
Example split_1 : split "a//b/" = ["a"; ""; "b"; ""].
Proof. reflexivity. Qed.
Example int_1 : Py.int " 1_024 " = Some 1024.
Proof. reflexivity. Qed.
Example int_2 : Py.int "-7" = Some (-7).
Proof. reflexivity. Qed.
Example int_3 : Py.int "abc" = None.
Proof. reflexivity. Qed.
Example int_4 : Py.int "" = None.
Proof. reflexivity. Qed.
Example int_5 : Py.int "1__0" = None.
Proof. reflexivity. Qed.
Example int_6 : Py.int "42, 42" = None.
Proof. reflexivity. Qed.
Example int_7 : Py.int separated_length = None.
Proof. reflexivity. Qed.
Example int_8 : Py.int huge_length = Some (10 ^ 309).
Proof. vm_compute. reflexivity. Qed.
End PathTests.

(** ** Paths *)

Section PathFacts.

Lemma app_cons a (s t : string) : String a s +:+ t = String a (s +:+ t).
Proof. reflexivity. Qed.

Lemma app_nil_l (t : string) : "" +:+ t = t.
Proof. reflexivity. Qed.

Lemma app_assoc_str (a b c : string) : (a +:+ b) +:+ c = a +:+ b +:+ c.
Proof. induction a as [|x r IH]; [done|]. rewrite !app_cons. by f_equal. Qed.

Lemma string_len_app a b : string_len (a +:+ b) = string_len a + string_len b.
Proof. induction a as [|x r IH]; [done|]. rewrite app_cons. simpl. lia. Qed.

Lemma string_len_nonneg s : 0 <= string_len s.
Proof. induction s; simpl; lia. Qed.

Lemma rfind_from_absent c s i acc :
  has c s = false -> rfind_from c s i acc = acc.
Proof.
  revert i acc. induction s as [|a r IH]; intros i acc H; simpl in *; [done|].
  apply orb_false_iff in H as [Ha Hr]. rewrite Ha. by apply IH.
Qed.

Lemma rfind_from_last c pre post i acc :
  has c post = false ->
  rfind_from c (pre +:+ String c post) i acc = i + string_len pre.
Proof.
  revert i acc. induction pre as [|a r IH]; intros i acc H.
  - rewrite app_nil_l. simpl. rewrite Ascii.eqb_refl.
    rewrite rfind_from_absent by done. lia.
  - rewrite app_cons. simpl. rewrite IH by done. lia.
Qed.

Lemma has_last c s :
  has c s = true ->
  exists pre post, s = pre +:+ String c post /\ has c post = false.
Proof.
  induction s as [|a r IH]; simpl; [done|]. intros H.
  destruct (has c r) eqn:Hr.
  - destruct IH as (pre & post & -> & Hp); [done|].
    exists (String a pre), post. by rewrite app_cons.
  - rewrite orb_false_r in H. apply Ascii.eqb_eq in H as ->.
    exists "", r. by rewrite app_nil_l.
Qed.

Lemma rfind_absent c s : has c s = false -> rfind c s = -1.
Proof. apply rfind_from_absent. Qed.

Lemma rfind_last c pre post :
  has c post = false -> rfind c (pre +:+ String c post) = string_len pre.
Proof. intros H. unfold rfind. by rewrite rfind_from_last. Qed.

Lemma slice_from_0 s : slice_from 0 s = s.
Proof. reflexivity. Qed.

Lemma drop_str_app pre s : drop_str (Z.to_nat (string_len pre)) (pre +:+ s) = s.
Proof.
  induction pre as [|a r IH]; [done|].
  rewrite app_cons. simpl string_len.
  pose proof (string_len_nonneg r).
  replace (Z.to_nat (1 + string_len r)) with (S (Z.to_nat (string_len r))) by lia.
  simpl. apply IH.
Qed.

Lemma take_str_app pre s : take_str (Z.to_nat (string_len pre)) (pre +:+ s) = pre.
Proof.
  induction pre as [|a r IH].
  - reflexivity.
  - rewrite app_cons. simpl string_len.
    pose proof (string_len_nonneg r).
    replace (Z.to_nat (1 + string_len r)) with (S (Z.to_nat (string_len r))) by lia.
    simpl. by rewrite IH.
Qed.

Lemma slice_from_app pre s : slice_from (string_len pre) (pre +:+ s) = s.
Proof. apply drop_str_app. Qed.

Lemma slice_to_app pre s : slice_to (string_len pre) (pre +:+ s) = pre.
Proof. apply take_str_app. Qed.

(** basename: what follows the last separator, the whole path when there
    is none. *)
Lemma basename_no_sep p : has sep p = false -> basename p = p.
Proof. intros H. unfold basename. by rewrite rfind_absent. Qed.

Lemma basename_last pre post :
  has sep post = false -> basename (pre +:+ String sep post) = post.
Proof.
  intros H. unfold basename. rewrite rfind_last by done.
  replace (string_len pre + 1) with (string_len (pre +:+ "/"))
    by (rewrite string_len_app; reflexivity).
  change (String sep post) with ("/" +:+ post).
  rewrite <- app_assoc_str. apply slice_from_app.
Qed.

Lemma basename_has_no_sep p : has sep (basename p) = false.
Proof.
  destruct (has sep p) eqn:H.
  - apply has_last in H as (pre & post & -> & H). by rewrite basename_last.
  - by rewrite basename_no_sep.
Qed.

(** splitext on a name without separator. *)
Lemma splitext_no_dot b :
  has sep b = false -> has extsep b = false -> splitext b = (b, "").
Proof.
  intros Hs Hd. unfold splitext. rewrite (rfind_absent sep), (rfind_absent extsep) by done.
  reflexivity.
Qed.

Lemma splitext_last_dot stem ext :
  has sep (stem +:+ String extsep ext) = false -> has extsep ext = false ->
  splitext (stem +:+ String extsep ext) =
    if all_dots stem then (stem +:+ String extsep ext, "")
    else (stem, String extsep ext).
Proof.
  intros Hs Hd. unfold splitext.
  rewrite (rfind_absent sep) by done. rewrite rfind_last by done.
  pose proof (string_len_nonneg stem).
  replace (string_len stem >? -1) with true by (symmetry; apply Z.gtb_lt; lia).
  change (-1 + 1) with 0. unfold slice. rewrite slice_from_0.
  rewrite slice_to_app, slice_from_app. simpl. by destruct (all_dots stem).
Qed.

Lemma split_cons_sep pre s :
  has sep pre = false -> split (pre +:+ String sep s) = pre :: split s.
Proof.
  induction pre as [|a r IH]; intros H.
  - rewrite app_nil_l. reflexivity.
  - simpl in H. apply orb_false_iff in H as [Ha Hr].
    rewrite app_cons. simpl. rewrite Ha, IH by done. reflexivity.
Qed.

Lemma enter_no_dotdot c cur :
  c <> ".." -> exists pre, Fs.enter c cur = (cur.1, pre ++ cur.2).
Proof.
  intros H. unfold Fs.enter.
  destruct (String.eqb c "" || String.eqb c "."); [exists []; by destruct cur|].
  apply String.eqb_neq in H. rewrite H. by exists [c].
Qed.

Lemma foldl_enter_no_dotdot cs cur :
  (forall c, c ∈ cs -> c <> "..") ->
  exists pre, foldl (fun cur c => Fs.enter c cur) cur cs = (cur.1, pre ++ cur.2).
Proof.
  revert cur. induction cs as [|c cs IH]; intros cur H; simpl.
  - exists []. by destruct cur.
  - destruct (enter_no_dotdot c cur) as [p1 E1]; [apply H; left|].
    destruct (IH (Fs.enter c cur)) as [p2 E2]; [intros; apply H; by right|].
    rewrite E2, E1. simpl. exists (p2 ++ p1). by rewrite <- app_assoc.
Qed.

Lemma file_path_relative name :
  startswith sep name = false ->
  Dataset.file_path name = "downloads/" +:+ name.
Proof. intros H. unfold Dataset.file_path, join. by rewrite H. Qed.

Lemma file_path_absolute name :
  startswith sep name = true -> Dataset.file_path name = name.
Proof. intros H. unfold Dataset.file_path, join. by rewrite H. Qed.

Lemma lexloc_file_path name :
  startswith sep name = false ->
  Fs.lexloc (Dataset.file_path name) =
    foldl (fun cur c => Fs.enter c cur) (false, ["downloads"]) (split name).
Proof.
  intros H. rewrite file_path_relative by done. unfold Fs.lexloc.
  change ("downloads/" +:+ name) with ("downloads" +:+ String sep name).
  rewrite split_cons_sep by reflexivity. reflexivity.
Qed.

(** C10. The extraction folder is the destination folder joined with
    the base name of the archive less its last extension, and no more:
    for a base name [stem.ext] where [ext] has no dot, the folder is
    named [stem] (so [a.tar.gz] gives [data/a.tar]), except that a stem
    of dots alone is no stem and the name is kept whole; a base name
    without a dot is kept unchanged. *)
Theorem extract_to_strips_final_extension zip_path dest :
  (forall stem ext,
     basename zip_path = stem +:+ String extsep ext ->
     has extsep ext = false ->
     Dataset.extract_to zip_path dest =
       join dest (if all_dots stem then basename zip_path else stem))
  /\ (has extsep (basename zip_path) = false ->
      Dataset.extract_to zip_path dest = join dest (basename zip_path))
  /\ Dataset.extract_to "downloads/a.tar.gz" "data" = "data/a.tar".
Proof.
  unfold Dataset.extract_to, Dataset.zip_name.
  pose proof (basename_has_no_sep zip_path) as Hs.
  split; [|split].
  - intros stem ext E Hd. rewrite E in *.
    rewrite splitext_last_dot by done. by destruct (all_dots stem).
  - intros Hd. by rewrite splitext_no_dot.
  - reflexivity.
Qed.

Lemma extract_to_strips_final_extension_witness :
  basename "downloads/a.tar.gz" = "a.tar" +:+ String extsep "gz"
  /\ has extsep "gz" = false
  /\ Dataset.extract_to "downloads/a.tar.gz" "data" = join "data" "a.tar".
Proof.
  split; [reflexivity|]. split; [reflexivity|].
  apply (proj1 (extract_to_strips_final_extension "downloads/a.tar.gz" "data")
           "a.tar" "gz"); reflexivity.
Defined.

(** C9 (amended). The artifact path is [os.path.join("downloads", name)]
    with the name as the manifest gives it: an absolute name is the path
    itself; a relative name is appended to ["downloads/"]; a relative
    name without a [..] component, separators or not, stays under
    [downloads]; a name that starts with ["../"] leads to where the rest
    of the name leads from the working directory. *)
Theorem file_path_is_verbatim_join name :
  Dataset.file_path name = join "downloads" name
  /\ (startswith sep name = true -> Dataset.file_path name = name)
  /\ (startswith sep name = false ->
      Dataset.file_path name = "downloads/" +:+ name)
  /\ (startswith sep name = false ->
      (forall c, c ∈ split name -> c <> "..") ->
      under_downloads (Dataset.file_path name) = true)
  /\ (forall rest, name = "../" +:+ rest -> startswith sep rest = false ->
      Fs.lexloc (Dataset.file_path name) = Fs.lexloc rest).
Proof.
  split; [reflexivity|]. split; [apply file_path_absolute|].
  split; [apply file_path_relative|]. split.
  - intros Hrel Hc. unfold under_downloads. rewrite lexloc_file_path by done.
    destruct (foldl_enter_no_dotdot (split name) (false, ["downloads"]) Hc)
      as [pre ->].
    simpl. rewrite last_app. reflexivity.
  - intros rest -> Hrel. rewrite lexloc_file_path by reflexivity.
    change ("../" +:+ rest) with (".." +:+ String sep rest).
    rewrite split_cons_sep by reflexivity. simpl.
    unfold Fs.lexloc, Fs.start. by rewrite Hrel.
Qed.

Lemma file_path_is_verbatim_join_witness :
  under_downloads (Dataset.file_path "sub/a.zip") = true
  /\ Fs.lexloc (Dataset.file_path "../x") = Fs.lexloc "x"
  /\ Dataset.file_path "/etc/passwd" = "/etc/passwd".
Proof.
  split; [|split].
  - apply (proj1 (proj2 (proj2 (proj2 (file_path_is_verbatim_join "sub/a.zip"))))).
    + reflexivity.
    + intros c Hc. apply list_elem_of_In in Hc. simpl in Hc.
      destruct Hc as [<-|[<-|[]]]; discriminate.
  - apply (proj2 (proj2 (proj2 (proj2 (file_path_is_verbatim_join "../x")))) "x");
      reflexivity.
  - apply (proj1 (proj2 (file_path_is_verbatim_join "/etc/passwd"))). reflexivity.
Defined.

(** C9 as stated fails: ["sub/a.zip"] has a separator, and its path
    [downloads/sub/a.zip] is under [downloads]. *)
Lemma file_path_not_always_outside :
  ~ (forall name,
       has sep name = true \/ has_dotdot name = true ->
       under_downloads (Dataset.file_path name) = false).
Proof.
  intros H. specialize (H "sub/a.zip" (or_introl eq_refl)). discriminate H.
Qed.

End PathFacts.

(** ** The monad *)

Section Monad.
Context {A B : Type}.

Lemma bind_inv (m : M A) (k : A -> M B) s r s' :
  bind m k s = (r, s') ->
  (exists a s1, m s = (Ok a, s1) /\ k a s1 = (r, s'))
  \/ (exists e, m s = (Raise e, s') /\ r = Raise e).
Proof.
  unfold bind. destruct (m s) as [[a|e] s1]; intros H.
  - left. eauto.
  - right. inversion H. eauto.
Qed.

Lemma bind_ok (m : M A) (k : A -> M B) s a s1 :
  m s = (Ok a, s1) -> bind m k s = k a s1.
Proof. unfold bind. by intros ->. Qed.

Lemma bind_raise (m : M A) (k : A -> M B) s e s1 :
  m s = (Raise e, s1) -> bind m k s = (Raise e, s1).
Proof. unfold bind. by intros ->. Qed.
End Monad.

(** A manifest that has a root element is parsed without ado. *)
Lemma parse_manifest w root : manifest w = Some root -> parse w = ret root.
Proof. unfold manifest, parse. destruct (meta4 w); by intros [= ->]. Qed.

(** An outcome is its result paired with its final state. *)
Lemma outcome_eta {A} (p : result A * state) r : p.1 = r -> p = (r, p.2).
Proof. destruct p. simpl. by intros ->. Qed.

Lemma shape_le_refl s : shape_le s s.
Proof. by split. Qed.

Lemma shape_le_trans s1 s2 s3 : shape_le s1 s2 -> shape_le s2 s3 -> shape_le s1 s3.
Proof. intros [] []. split; set_solver. Qed.

Lemma for_each_app {A} (l1 l2 : list A) body s :
  for_each (l1 ++ l2) body s =
    match for_each l1 body s with
    | (Ok _, s1) => for_each l2 body s1
    | (Raise e, s1) => (Raise e, s1)
    end.
Proof.
  revert s. induction l1 as [|x l1 IH]; intros s; simpl; [done|].
  unfold bind. destruct (body x s) as [[[]|e] s1]; [apply IH|done].
Qed.

(** The loop stops at the element whose body raises: the elements after
    it play no part in the outcome. *)
Lemma for_each_abort {A} (pre post : list A) x body s s1 e s2 :
  for_each pre body s = (Ok tt, s1) ->
  body x s1 = (Raise e, s2) ->
  for_each (pre ++ x :: post) body s = (Raise e, s2).
Proof.
  intros Hpre Hx. rewrite for_each_app, Hpre. simpl.
  by rewrite (bind_raise _ _ _ _ _ Hx).
Qed.

(** ** Nothing is ever removed from the disk *)

Section Grows.
Context {A B : Type}.

Lemma grows_ret (a : A) : grows (ret a).
Proof. intros s r s' [= <- <-]. split; [apply shape_le_refl|done]. Qed.

Lemma grows_raise e : grows (@raise A e).
Proof. intros s r s' [= <- <-]. split; [apply shape_le_refl|done]. Qed.

Lemma grows_expect (o : option A) e : grows (expect o e).
Proof. destruct o; [apply grows_ret|apply grows_raise]. Qed.

Lemma grows_bind (m : M A) (k : A -> M B) :
  grows m -> (forall a, grows (k a)) -> grows (bind m k).
Proof.
  intros Hm Hk s r s' H.
  apply bind_inv in H as [(a & s1 & H1 & H2)|(e & H1 & ->)].
  - destruct (Hm _ _ _ H1) as [L1 W1], (Hk a _ _ _ H2) as [L2 W2].
    split; [by eapply shape_le_trans|auto].
  - by apply (Hm _ _ _ H1).
Qed.

End Grows.

Lemma grows_for_each {A} (l : list A) body :
  (forall x, grows (body x)) -> grows (for_each l body).
Proof.
  intros Hb. induction l as [|x l IH]; simpl.
  - apply grows_ret.
  - apply grows_bind; auto.
Qed.

Lemma grows_emit e : grows (emit e).
Proof. intros s r s' [= <- <-]. split; [by split|]. intros W l H. by apply W. Qed.

Create HintDb grows.
#[local] Hint Resolve grows_ret grows_raise grows_expect grows_emit : grows.
#[local] Hint Extern 2 (grows (bind _ _)) => apply grows_bind; [|intros ?] : grows.
#[local] Hint Extern 2 (grows (for_each _ _)) => apply grows_for_each; intros ? : grows.

Section FsGrows.

Lemma is_dir_mono (d d' : gset loc) l : d ⊆ d' -> is_dir d l = true -> is_dir d' l = true.
Proof.
  unfold is_dir. intros Hd H. apply orb_true_iff in H as [H|H]; apply orb_true_iff; [by left|right].
  apply bool_decide_eq_true in H. apply bool_decide_eq_true. set_solver.
Qed.

Lemma is_dir_insert (d : gset loc) l l' :
  is_dir ({[l']} ∪ d) l = true -> l = l' \/ is_dir d l = true.
Proof.
  unfold is_dir. intros H. apply orb_true_iff in H as [H|H].
  - right. by rewrite H.
  - apply bool_decide_eq_true in H. apply elem_of_union in H as [H|H].
    + left. set_solver.
    + right. apply orb_true_iff. right. by apply bool_decide_eq_true.
Qed.

Lemma is_file_false f l : is_file f l = false <-> f !! l = None.
Proof.
  unfold is_file. rewrite bool_decide_eq_false. rewrite <- eq_None_not_Some. done.
Qed.

Lemma grows_open_wb p : grows (open_wb p).
Proof.
  intros s r s'. unfold open_wb.
  destruct (resolve (dirs s) p) as [l|]; [|intros [= <- <-]; split; [apply shape_le_refl|done]].
  destruct (is_dir (dirs s) l) eqn:Hd; intros [= <- <-]; [split; [apply shape_le_refl|done]|].
  split.
  - split; simpl; [|done]. rewrite dom_insert_L. set_solver.
  - intros W l' H'. simpl in *. destruct (decide (l' = l)) as [->|Hne]; [congruence|].
    rewrite lookup_insert_ne by done. by apply W.
Qed.

Lemma grows_write l c : grows (write l c).
Proof.
  intros s r s' [= <- <-]. split.
  - split; simpl; [|done]. by rewrite dom_alter_L.
  - intros W l' H'. simpl in *. destruct (decide (l' = l)) as [->|Hne].
    + rewrite lookup_alter_eq. by rewrite W.
    + rewrite lookup_alter_ne by done. by apply W.
Qed.

Lemma grows_read p : grows (read p).
Proof.
  intros s r s'. unfold read.
  destruct (resolve (dirs s) p) as [l|]; [destruct (files s !! l)|];
    intros [= <- <-]; (split; [apply shape_le_refl|done]).
Qed.

Lemma grows_mkdirs cs cur : grows (mkdirs cs cur).
Proof.
  revert cur. induction cs as [|c cs IH]; intros cur; simpl.
  - apply grows_ret.
  - intros s r s'. destruct (is_file (files s) (enter c cur)) eqn:Hf.
    + intros [= <- <-]. split; [apply shape_le_refl|done].
    + intros H. apply IH in H as [[L1 L2] W]. simpl in *. split.
      * split; set_solver.
      * intros Ws. apply W. intros l Hl. simpl in *.
        apply is_dir_insert in Hl as [->|Hl]; [by apply is_file_false|by apply Ws].
Qed.

Lemma grows_makedirs p : grows (makedirs p).
Proof.
  unfold makedirs. destruct (PosixPath.is_empty p); [apply grows_raise|].
  apply grows_bind; [apply grows_mkdirs|intros; apply grows_ret].
Qed.

Lemma grows_copy_to target d : grows (copy_to target d).
Proof.
  intros s r s'. unfold copy_to.
  destruct (is_dir (dirs s) target) eqn:Hd; intros [= <- <-].
  - split; [apply shape_le_refl|done].
  - split.
    + split; simpl; [|done]. rewrite dom_insert_L. set_solver.
    + intros W l H'. simpl in *. destruct (decide (l = target)) as [->|Hne]; [congruence|].
      rewrite lookup_insert_ne by done. by apply W.
Qed.

Lemma grows_store target c : grows (store target c).
Proof.
  destruct c as [d|f|d f]; simpl.
  - apply grows_copy_to.
  - apply grows_raise.
  - apply grows_bind; [apply grows_copy_to|intros; apply grows_raise].
Qed.

Lemma grows_extract_member base m : grows (extract_member base m).
Proof.
  unfold extract_member. destruct (PosixPath.endswith _ _).
  { apply grows_bind; [apply grows_mkdirs|intros; apply grows_ret]. }
  destruct (split_last _) as [[upper name]|].
  - apply grows_bind; [apply grows_mkdirs|intros; apply grows_store].
  - destruct (PosixPath.is_empty _); [apply grows_raise|apply grows_store].
Qed.

Lemma grows_extractall p ms : grows (extractall p ms).
Proof. apply grows_for_each. intros; apply grows_extract_member. Qed.
End FsGrows.

#[local] Hint Resolve grows_open_wb grows_write grows_read grows_mkdirs grows_makedirs
  grows_extract_member grows_extractall : grows.

Section DatasetGrows.
Variable w : world.

Lemma grows_requests_get url : grows (requests_get w url).
Proof. destruct url; simpl; auto with grows. Qed.

Lemma grows_total_size_of r : grows (total_size_of r).
Proof. unfold total_size_of. destruct (_ !! _); auto with grows. Qed.

Lemma grows_pump l d t n cs : grows (pump l d t n cs).
Proof.
  revert n. induction cs as [|c cs IH]; intros n; simpl; [auto with grows|].
  destruct (is_nil c); auto with grows.
Qed.

Lemma grows_download_file url p : grows (download_file w url p).
Proof.
  unfold download_file.
  apply grows_bind; [apply grows_requests_get|intros r].
  apply grows_bind; [apply grows_total_size_of|intros t].
  apply grows_bind; [apply grows_open_wb|intros l].
  apply grows_bind; [unfold tqdm; destruct (fits_float t); auto with grows|intros _].
  apply grows_bind; [apply grows_pump|intros _].
  destruct (complete r); auto with grows.
Qed.

Lemma grows_extract_zip p d : grows (extract_zip w p d).
Proof. unfold extract_zip. auto 10 with grows. Qed.

Lemma grows_process file : grows (process w file).
Proof.
  unfold process. pose proof grows_download_file. pose proof grows_extract_zip.
  auto 10 with grows.
Qed.

Lemma grows_parse : grows (parse w).
Proof. unfold parse. destruct (meta4 w); auto with grows. Qed.

Lemma grows_main : grows (main w).
Proof.
  unfold main. pose proof grows_process. pose proof grows_parse.
  auto 10 with grows.
Qed.
End DatasetGrows.

(** ** [download_file] in closed form *)

Lemma insert_alter_files (f : gmap loc bytes) l (g : bytes -> bytes) x :
  <[l := x]> (alter g l f) = <[l := x]> f.
Proof.
  apply map_eq. intros k. destruct (decide (k = l)) as [->|Hne].
  - by rewrite !lookup_insert_eq.
  - by rewrite !lookup_insert_ne, lookup_alter_ne.
Qed.

Lemma pump_spec l d t cs : forall n s acc,
  files s !! l = Some acc ->
  pump l d t n cs s =
    (Ok tt, State (<[l := acc ++ concat cs]> (files s)) (dirs s)
              (out s ++ bars d t n cs)).
Proof.
  induction cs as [|c cs IH]; intros n s acc Hl; simpl.
  - unfold ret. rewrite !app_nil_r. rewrite insert_id by done. by destruct s.
  - destruct c as [|b c]; simpl.
    + by apply IH.
    + unfold bind, write, emit. simpl.
      erewrite IH; simpl.
      2:{ rewrite lookup_alter_eq, Hl. reflexivity. }
      rewrite insert_alter_files. f_equal. f_equal.
      * by rewrite <- app_assoc.
      * by rewrite <- app_assoc.
Qed.

Lemma total_size_of_eq r s :
  total_size_of r s =
    (match declared_size r with Some t => Ok t | None => Raise ValueError end, s).
Proof.
  unfold total_size_of, declared_size.
  destruct (headers r !! "content-length") as [v|]; [|done].
  by destruct (Py.int v).
Qed.

Theorem download_file_eq w url p s :
  download_file w url p s = download_outcome w url p s.
Proof.
  unfold download_file, download_outcome.
  destruct url as [u|]; [|done]. unfold requests_get.
  unfold bind at 1. unfold bind at 1. simpl.
  destruct (http w u) as [r|]; simpl; [|done].
  unfold bind at 1. rewrite total_size_of_eq.
  destruct (declared_size r) as [t|]; [|done].
  unfold bind at 1. unfold open_wb. simpl.
  destruct (resolve (dirs s) p) as [l|]; [|done].
  destruct (is_dir (dirs s) l); [done|].
  unfold bind at 1. unfold tqdm. destruct (fits_float t); simpl; [|done].
  unfold bind at 1.
  erewrite pump_spec by (simpl; apply lookup_insert_eq). simpl.
  rewrite insert_insert_eq.
  destruct (complete r); simpl; unfold emit, raise; simpl;
    rewrite <- ?app_assoc; simpl; rewrite ?app_nil_r; reflexivity.
Qed.

(** ** Disk operations leave the log alone *)

Lemma silent_ret {A} (a : A) : silent (ret a).
Proof. by intros s r s' [= <- <-]. Qed.
Lemma silent_raise {A} e : silent (@raise A e).
Proof. by intros s r s' [= <- <-]. Qed.
Lemma silent_expect {A} (o : option A) e : silent (expect o e).
Proof. destruct o; [apply silent_ret|apply silent_raise]. Qed.
Lemma silent_bind {A B} (m : M A) (k : A -> M B) :
  silent m -> (forall a, silent (k a)) -> silent (bind m k).
Proof.
  intros Hm Hk s r s' H.
  apply bind_inv in H as [(a & s1 & H1 & H2)|(e & H1 & ->)].
  - rewrite (Hk _ _ _ _ H2). eauto.
  - eauto.
Qed.
Lemma silent_for_each {A} (l : list A) body :
  (forall x, silent (body x)) -> silent (for_each l body).
Proof.
  intros Hb. induction l as [|x l IH]; simpl; [apply silent_ret|].
  apply silent_bind; auto.
Qed.

Lemma silent_read p : silent (read p).
Proof.
  intros s r s'. unfold read.
  destruct (resolve _ _) as [l|]; [destruct (files s !! l)|]; by intros [= <- <-].
Qed.
Lemma silent_mkdirs cs : forall cur, silent (mkdirs cs cur).
Proof.
  induction cs as [|c cs IH]; intros cur; simpl; [apply silent_ret|].
  intros s r s'. destruct (is_file _ _); [by intros [= <- <-]|].
  intros H. by apply IH in H.
Qed.
Lemma silent_makedirs p : silent (makedirs p).
Proof.
  unfold makedirs. destruct (PosixPath.is_empty p); [apply silent_raise|].
  apply silent_bind; [apply silent_mkdirs|intros; apply silent_ret].
Qed.
Lemma silent_copy_to target d : silent (copy_to target d).
Proof. intros s r s'. unfold copy_to. destruct (is_dir _ _); by intros [= <- <-]. Qed.
Lemma silent_store target c : silent (store target c).
Proof.
  destruct c as [d|f|d f]; simpl.
  - apply silent_copy_to.
  - apply silent_raise.
  - apply silent_bind; [apply silent_copy_to|intros; apply silent_raise].
Qed.
Lemma silent_extract_member base m : silent (extract_member base m).
Proof.
  unfold extract_member. destruct (PosixPath.endswith _ _).
  { apply silent_bind; [apply silent_mkdirs|intros; apply silent_ret]. }
  destruct (split_last _) as [[upper name]|].
  - apply silent_bind; [apply silent_mkdirs|intros; apply silent_store].
  - destruct (PosixPath.is_empty _); [apply silent_raise|apply silent_store].
Qed.
Lemma silent_extractall p ms : silent (extractall p ms).
Proof. apply silent_for_each. intros; apply silent_extract_member. Qed.

(** ** mkdirs *)
Lemma mkdirs_files cs : forall cur s r s',
  mkdirs cs cur s = (r, s') -> files s' = files s.
Proof.
  induction cs as [|c cs IH]; intros cur s r s'; simpl.
  - by intros [= <- <-].
  - destruct (is_file _ _); [by intros [= <- <-]|]. intros H. by apply IH in H.
Qed.

Lemma mkdirs_reaches cs : forall cur s l s',
  mkdirs cs cur s = (Ok l, s') -> l = foldl (fun cur c => enter c cur) cur cs.
Proof.
  induction cs as [|c cs IH]; intros cur s l s'; simpl.
  - by intros [= <- <-].
  - destruct (is_file _ _); [done|]. apply IH.
Qed.

Lemma mkdirs_made cs : forall cur s l s',
  mkdirs cs cur s = (Ok l, s') -> cs <> [] -> l ∈ dirs s'.
Proof.
  induction cs as [|c cs IH]; intros cur s l s' H Hne; [done|].
  simpl in H. destruct (is_file _ _); [done|].
  destruct cs as [|c' cs'].
  - simpl in H. injection H as <- <-. simpl. set_solver.
  - by eapply IH.
Qed.

Lemma split_nonempty p : PosixPath.split p <> [].
Proof.
  destruct p as [|a r]; simpl; [done|].
  destruct (Ascii.eqb a PosixPath.sep); [done|]. by destruct (PosixPath.split r).
Qed.

Lemma makedirs_ok p s s' :
  makedirs p s = (Ok tt, s') ->
  files s' = files s /\ dirs s ⊆ dirs s' /\ lexloc p ∈ dirs s' /\ out s' = out s.
Proof.
  intros H. pose proof (silent_makedirs _ _ _ _ H) as Ho.
  pose proof (grows_makedirs _ _ _ _ H) as [[_ Hd] _].
  unfold makedirs in H. destruct (PosixPath.is_empty p); [done|].
  apply bind_inv in H as [(l & s1 & H1 & H2)|(e & _ & ?)]; [|done].
  injection H2 as <-.
  split; [by eapply mkdirs_files|]. split; [done|]. split; [|done].
  unfold lexloc. rewrite <- (mkdirs_reaches _ _ _ _ _ H1).
  eapply mkdirs_made; [done|]. apply split_nonempty.
Qed.

Lemma makedirs_files p s r s' : makedirs p s = (r, s') -> files s' = files s.
Proof.
  unfold makedirs. destruct (is_empty p); [by intros [= <- <-]|].
  intros H. apply bind_inv in H as [(l & s1 & H1 & H2)|(e & H1 & ->)].
  - injection H2 as <- <-. by eapply mkdirs_files.
  - by eapply mkdirs_files.
Qed.

Lemma read_same p s r s' : read p s = (r, s') -> s' = s.
Proof.
  unfold read. destruct (resolve _ _) as [l|]; [destruct (files s !! l)|];
    by intros [= <- <-].
Qed.

(** Along proper names the walk only pushes. *)
Lemma foldl_enter_valid cs : forall cur,
  Forall (fun c => valid_part c = true) cs ->
  foldl (fun cur c => enter c cur) cur cs = (cur.1, rev cs ++ cur.2).
Proof.
  induction cs as [|c cs IH]; intros cur H; simpl.
  - by destruct cur.
  - inversion H as [|? ? Hc Hcs]; subst. rewrite IH by done.
    unfold valid_part in Hc. apply negb_true_iff in Hc.
    apply orb_false_iff in Hc as [Hc H3]. unfold enter. rewrite Hc, H3.
    simpl. by rewrite <- app_assoc.
Qed.

Lemma arcname_valid n : Forall (fun c => valid_part c = true) (arcname n).
Proof. unfold arcname. apply Forall_forall. intros c Hc. by apply list_elem_of_filter in Hc as [? _]. Qed.

Lemma split_last_app l i x : split_last l = Some (i, x) -> l = i ++ [x].
Proof.
  revert i x. induction l as [|c r IH]; intros i x; simpl; [done|].
  destruct r as [|c' r'].
  - by intros [= <- <-].
  - destruct (split_last (c' :: r')) as [[i' x']|]; [|done].
    intros [= <- <-]. simpl. f_equal. by apply IH.
Qed.

Lemma copy_to_ok target d s s' :
  copy_to target d s = (Ok tt, s') ->
  files s' = <[target := d]> (files s) /\ dirs s' = dirs s /\ out s' = out s.
Proof. unfold copy_to. destruct (is_dir _ _); [done|]. by intros [= <-]. Qed.

Lemma copy_to_other target d s r s' l :
  copy_to target d s = (r, s') -> l <> target -> files s' !! l = files s !! l.
Proof.
  unfold copy_to. destruct (is_dir _ _); intros [= <- <-] Hl; [done|].
  simpl. by rewrite lookup_insert_ne.
Qed.

Lemma store_ok target c s s' :
  store target c s = (Ok tt, s') ->
  exists d, c = Data d /\ files s' = <[target := d]> (files s).
Proof.
  destruct c as [d|f|d f]; simpl; [|done|].
  - intros H. apply copy_to_ok in H as [H _]. by exists d.
  - intros H. by apply bind_inv in H as [([] & s1 & _ & ?)|(e & _ & ?)].
Qed.

Lemma store_other target c s r s' l :
  store target c s = (r, s') -> l <> target -> files s' !! l = files s !! l.
Proof.
  destruct c as [d|f|d f]; simpl.
  - apply copy_to_other.
  - by intros [= <- <-].
  - intros H Hl. apply bind_inv in H as [([] & s1 & H1 & H2)|(e & H1 & _)].
    + injection H2 as <- <-. by eapply copy_to_other.
    + by eapply copy_to_other.
Qed.

(** Where a file member is written. *)
Lemma member_target base m upper name s d s1 :
  split_last (arcname m.1) = Some (upper, name) ->
  mkdirs upper base s = (Ok d, s1) ->
  push name d = target base m.
Proof.
  intros Hsl H1. pose proof (arcname_valid m.1) as Hv.
  apply split_last_app in Hsl.
  rewrite (mkdirs_reaches _ _ _ _ _ H1).
  rewrite foldl_enter_valid.
  2:{ rewrite Hsl in Hv. by apply Forall_app in Hv as [? _]. }
  unfold target, push. rewrite Hsl. simpl. by rewrite rev_app_distr.
Qed.

Lemma split_last_None l : split_last l = None -> l = [].
Proof.
  induction l as [|c r IH]; [done|]. simpl. destruct r as [|c' r']; [done|].
  destruct (split_last (c' :: r')) as [[i x]|]; [done|].
  intros _. by specialize (IH eq_refl).
Qed.

Lemma member_target_base base m :
  split_last (arcname m.1) = None -> target base m = base.
Proof.
  intros H. apply split_last_None in H. unfold target. rewrite H.
  by destruct base.
Qed.

Lemma extract_member_ok base m s s' :
  extract_member base m s = (Ok tt, s') ->
  if PosixPath.endswith PosixPath.sep m.1 then files s' = files s
  else exists d, m.2 = Data d /\ files s' = <[target base m := d]> (files s).
Proof.
  unfold extract_member. destruct (PosixPath.endswith _ _).
  { intros H. apply bind_inv in H as [(l & s1 & H1 & H2)|(e & _ & ?)]; [|done].
    injection H2 as <-. by eapply mkdirs_files. }
  destruct (split_last _) as [[upper name]|] eqn:Hsl.
  - intros H. apply bind_inv in H as [(d & s1 & H1 & H2)|(e & _ & ?)]; [|done].
    apply store_ok in H2 as (c & Hc & Hf). exists c. split; [done|].
    by rewrite Hf, (mkdirs_files _ _ _ _ _ H1), (member_target _ _ _ _ _ _ _ Hsl H1).
  - destruct (PosixPath.is_empty _); [done|]. intros H.
    apply store_ok in H as (c & Hc & Hf). exists c. split; [done|].
    by rewrite (member_target_base _ _ Hsl).
Qed.

Lemma extract_member_other base m s r s' l :
  extract_member base m s = (r, s') ->
  (PosixPath.endswith PosixPath.sep m.1 = false -> l <> target base m) ->
  files s' !! l = files s !! l.
Proof.
  unfold extract_member. destruct (PosixPath.endswith _ _).
  { intros H _. apply bind_inv in H as [(l' & s1 & H1 & H2)|(e & H1 & ?)].
    - injection H2 as <- <-. by rewrite (mkdirs_files _ _ _ _ _ H1).
    - by rewrite (mkdirs_files _ _ _ _ _ H1). }
  destruct (split_last _) as [[upper name]|] eqn:Hsl.
  - intros H Hl. specialize (Hl eq_refl).
    apply bind_inv in H as [(d & s1 & H1 & H2)|(e & H1 & ?)].
    2:{ by rewrite (mkdirs_files _ _ _ _ _ H1). }
    rewrite <- (mkdirs_files _ _ _ _ _ H1).
    eapply store_other; [done|]. by rewrite (member_target _ _ _ _ _ _ _ Hsl H1).
  - intros H Hl. specialize (Hl eq_refl).
    destruct (PosixPath.is_empty _); [by injection H as <- <-|].
    eapply store_other; [done|]. intros E. apply Hl. rewrite E.
    symmetry. by apply member_target_base.
Qed.

Lemma extractall_other base ms : forall s r s' l,
  for_each ms (extract_member base) s = (r, s') ->
  (forall m, m ∈ ms -> PosixPath.endswith PosixPath.sep m.1 = false -> l <> target base m) ->
  files s' !! l = files s !! l.
Proof.
  induction ms as [|m ms IH]; intros s r s' l H Hl; simpl in H.
  - by injection H as <- <-.
  - apply bind_inv in H as [(a & s1 & H1 & H2)|(e & H1 & ?)].
    + rewrite (IH _ _ _ _ H2) by (intros; apply Hl; [by right|done]).
      eapply extract_member_other; [done|]. apply Hl. by left.
    + eapply extract_member_other; [done|]. apply Hl. by left.
Qed.

(** The data of a file member is in place after the extraction, unless a
    later member of the archive has the same extracted name. *)
Lemma extractall_member base pre m post s s' :
  for_each (pre ++ m :: post) (extract_member base) s = (Ok tt, s') ->
  PosixPath.endswith PosixPath.sep m.1 = false ->
  (forall m', m' ∈ post -> PosixPath.endswith PosixPath.sep m'.1 = false ->
     arcname m'.1 <> arcname m.1) ->
  exists d, m.2 = Data d /\ files s' !! target base m = Some d.
Proof.
  intros H Hf Hpost. rewrite for_each_app in H.
  destruct (for_each pre _ s) as [[[]|e] s1]; [|done]. simpl in H.
  apply bind_inv in H as [([] & s2 & H1 & H2)|(e & _ & ?)]; [|done].
  apply extract_member_ok in H1. rewrite Hf in H1.
  destruct H1 as (d & Hd & H1). exists d. split; [done|].
  rewrite (extractall_other _ _ _ _ _ _ H2).
  - rewrite H1. apply lookup_insert_eq.
  - intros m' Hm' Hf' E. apply (Hpost m' Hm' Hf').
    unfold target in E. injection E as E. apply app_inv_tail in E.
    apply (f_equal (@rev string)) in E. by rewrite !rev_involutive in E.
Qed.

(** ** [extract_zip] *)

Lemma walk_mono (d d' : gset loc) cs : forall cur l,
  d ⊆ d' -> walk d cs cur = Some l -> walk d' cs cur = Some l.
Proof.
  induction cs as [|c cs IH]; intros cur l Hd; simpl; [done|].
  destruct cs as [|c' cs']; [done|].
  destruct (is_dir d (enter c cur)) eqn:E; [|done].
  rewrite (is_dir_mono _ _ _ Hd E). by apply IH.
Qed.

Lemma resolve_mono (d d' : gset loc) p l :
  d ⊆ d' -> resolve d p = Some l -> resolve d' p = Some l.
Proof. apply walk_mono. Qed.

Section ExtractZip.
Variable w : world.

Lemma extract_zip_inv p d s s' :
  extract_zip w p d s = (Ok tt, s') ->
  exists s1 l content ms s2,
    makedirs (extract_to p d) s = (Ok tt, s1)
    /\ resolve (dirs s1) p = Some l
    /\ files s1 !! l = Some content
    /\ unzip w content = Some ms
    /\ for_each ms (extract_member (lexloc (extract_to p d))) s1 = (Ok tt, s2)
    /\ s' = log s2 [Unpacked p (extract_to p d);
                    Stdout (extracted_line p (extract_to p d))].
Proof.
  unfold extract_zip. intros H.
  apply bind_inv in H as [([] & s1 & H1 & H)|(e & _ & ?)]; [|done].
  apply bind_inv in H as [(content & s1' & H2 & H)|(e & _ & ?)]; [|done].
  unfold read in H2. destruct (resolve (dirs s1) p) as [l|] eqn:Hr; [|done].
  destruct (files s1 !! l) as [b|] eqn:Hl; [|done]. injection H2 as <- <-.
  apply bind_inv in H as [(ms & s1' & H3 & H)|(e & _ & ?)]; [|done].
  destruct (unzip w b) as [ms'|] eqn:Hu; [|done]. injection H3 as <- <-.
  apply bind_inv in H as [([] & s2 & H4 & H)|(e & _ & ?)]; [|done].
  exists s1, l, b, ms', s2. repeat split; try done.
  unfold bind, emit in H. simpl in H. injection H as <-.
  unfold log. by rewrite <- app_assoc.
Qed.

Lemma extract_zip_out p d s r s' :
  extract_zip w p d s = (r, s') ->
  out s' = out s ++
    match r with
    | Ok _ => [Unpacked p (extract_to p d);
               Stdout (extracted_line p (extract_to p d))]
    | Raise _ => []
    end.
Proof.
  destruct r as [[]|e].
  - intros H. apply extract_zip_inv in H
      as (s1 & l & b & ms & s2 & H1 & _ & _ & _ & H4 & ->).
    simpl. rewrite (silent_extractall _ _ _ _ _ H4).
    by rewrite (silent_makedirs _ _ _ _ H1).
  - unfold extract_zip. intros H. rewrite app_nil_r.
    apply bind_inv in H as [([] & s1 & H1 & H)|(e' & H1 & ?)];
      [|by apply silent_makedirs in H1].
    rewrite <- (silent_makedirs _ _ _ _ H1).
    apply bind_inv in H as [(content & s2 & H2 & H)|(e' & H2 & ?)];
      [|by apply silent_read in H2].
    rewrite <- (silent_read _ _ _ _ H2).
    apply bind_inv in H as [(ms & s3 & H3 & H)|(e' & H3 & ?)];
      [|by apply silent_expect in H3].
    rewrite <- (silent_expect _ _ _ _ _ H3).
    apply bind_inv in H as [([] & s4 & H4 & H)|(e' & H4 & ?)];
      [|by apply silent_extractall in H4].
    unfold bind, emit in H. simpl in H. done.
Qed.
End ExtractZip.

(** ** The loop body *)

Section Process.
Variable w : world.

Lemma process_entry file name u s :
  entry_of file = Some (name, u) ->
  process w file s =
    (download_file w (Some u) (file_path name) >>
     extract_zip w (file_path name) "data") s.
Proof.
  unfold entry_of, process. intros H.
  destruct (Xml.get file "name") as [n|]; [|done].
  destruct (Xml.find file "ml:url" namespace) as [[ue|]|]; [|done..].
  unfold bind at 1 2 3. simpl.
  destruct (Xml.text ue) as [u'|]; [|done]. injection H as <- <-. reflexivity.
Qed.

Lemma process_inv file name s s' :
  Xml.get file "name" = Some name ->
  process w file s = (Ok tt, s') ->
  exists u s1,
    entry_of file = Some (name, u)
    /\ download_file w (Some u) (file_path name) s = (Ok tt, s1)
    /\ extract_zip w (file_path name) "data" s1 = (Ok tt, s').
Proof.
  unfold entry_of, process. intros -> H.
  destruct (Xml.find file "ml:url" namespace) as [[ue|]|]; [|done..].
  simpl in H. unfold bind at 1 2 3 in H. simpl in H.
  apply bind_inv in H as [([] & s1 & H1 & H2)|(e & _ & ?)]; [|done].
  destruct (Xml.text ue) as [u|]; [|done]. by exists u, s1.
Qed.

(** What a successful download leaves behind. *)
Lemma download_file_ok_inv u p s s1 :
  download_file w (Some u) p s = (Ok tt, s1) ->
  exists r l t,
    http w u = Some r /\ declared_size r = Some t /\ complete r = true
    /\ resolve (dirs s) p = Some l /\ is_dir (dirs s) l = false
    /\ files s1 = <[l := concat (chunks r)]> (files s)
    /\ dirs s1 = dirs s
    /\ out s1 = out s ++ [Get u; Bar (PosixPath.basename p) t 0]
                  ++ bars (PosixPath.basename p) t 0 (chunks r) ++ [Saved p].
Proof.
  rewrite download_file_eq. unfold download_outcome.
  destruct (http w u) as [r|] eqn:Hr; [|done].
  destruct (declared_size r) as [t|] eqn:Ht; [|done].
  destruct (resolve (dirs s) p) as [l|] eqn:Hl; [|done].
  destruct (is_dir (dirs s) l) eqn:Hd; [done|].
  destruct (fits_float t); [|done].
  destruct (complete r) eqn:Hc; [|done]. intros [= <-]. by exists r, l, t.
Qed.
End Process.

Lemma fits_float_0 : fits_float 0 = true.
Proof. vm_compute. reflexivity. Qed.

(** C4. A response without a content-length header: [download_file]
    takes 0 as the total size, and when the stream of the response ends
    properly and the destination can be opened, it returns normally and
    the destination holds the chunks of the response, all of them, one
    after the other; no other file is touched. *)
Theorem download_without_content_length w u r p s l :
  http w u = Some r ->
  headers r !! "content-length" = None ->
  complete r = true ->
  resolve (dirs s) p = Some l ->
  is_dir (dirs s) l = false ->
  total_size_of r s = (Ok 0, s)
  /\ exists s',
       download_file w (Some u) p s = (Ok tt, s')
       /\ files s' !! l = Some (concat (chunks r))
       /\ (forall l', l' <> l -> files s' !! l' = files s !! l')
       /\ dirs s' = dirs s
       /\ out s' = out s ++ [Get u; Bar (PosixPath.basename p) 0 0]
                     ++ bars (PosixPath.basename p) 0 0 (chunks r) ++ [Saved p].
Proof.
  intros Hr Hh Hc Hl Hd.
  assert (Ht : declared_size r = Some 0) by (unfold declared_size; by rewrite Hh).
  split; [by rewrite total_size_of_eq, Ht|].
  rewrite download_file_eq. unfold download_outcome.
  rewrite Hr, Ht, Hl, Hd, fits_float_0, Hc. eexists. split; [reflexivity|]. simpl.
  split; [apply lookup_insert_eq|]. split; [|done].
  intros l' Hne. by rewrite lookup_insert_ne.
Qed.

Lemma download_without_content_length_witness :
  exists s',
    download_file Demo.example_entry (Some "http://host/example.zip")
      "downloads/example.zip" (State ∅ {[(false, ["downloads"])]} []) = (Ok tt, s')
    /\ files s' !! (false, ["example.zip"; "downloads"]) = Some Demo.readme_zip.
Proof.
  destruct (download_without_content_length Demo.example_entry
              "http://host/example.zip"
              (Response 200 ∅ [Demo.readme_head; []; Demo.readme_tail] true)
              "downloads/example.zip"
              (State ∅ {[(false, ["downloads"])]} [])
              (false, ["example.zip"; "downloads"]))
    as [_ (s' & H1 & H2 & _)]; try (vm_compute; reflexivity).
  exists s'. split; [exact H1|]. exact H2.
Defined.

(** C7 (amended). Two responses to the same request with the same chunks
    and the same end of stream, whose content-length headers are each
    absent or a number that [int] accepts and that fits a float:
    [download_file] has the same result and leaves the same files and
    directories, whatever the two header values are. The bar alone
    sees the difference. A header that [int] rejects makes
    [download_file] raise ValueError before the destination is opened:
    the request is all that has happened. A header that [int] accepts
    and that does not fit a float makes the bar raise OverflowError
    when it is made, after the destination has been opened: the
    destination is left empty. *)
Theorem download_independent_of_declared_size w1 w2 u r1 r2 p s :
  http w1 u = Some r1 ->
  http w2 u = Some r2 ->
  chunks r1 = chunks r2 ->
  complete r1 = complete r2 ->
  (length_header_ok r1 ->
   length_header_ok r2 ->
   (download_file w1 (Some u) p s).1 = (download_file w2 (Some u) p s).1
   /\ files (download_file w1 (Some u) p s).2 = files (download_file w2 (Some u) p s).2
   /\ dirs (download_file w1 (Some u) p s).2 = dirs (download_file w2 (Some u) p s).2)
  /\ (declared_size r1 = None ->
      download_file w1 (Some u) p s = (Raise ValueError, log s [Get u]))
  /\ (forall t l,
        declared_size r1 = Some t ->
        fits_float t = false ->
        resolve (dirs s) p = Some l ->
        is_dir (dirs s) l = false ->
        download_file w1 (Some u) p s
        = (Raise OverflowError,
           State (<[l := []]> (files s)) (dirs s) (out s ++ [Get u]))).
Proof.
  intros H1 H2 Hc Hk. split; [|split].
  - intros (t1 & Ht1 & Hf1) (t2 & Ht2 & Hf2).
    rewrite !download_file_eq. unfold download_outcome.
    rewrite H1, H2, Ht1, Ht2, Hf1, Hf2, Hc, Hk.
    destruct (resolve (dirs s) p) as [l|]; [|done].
    by destruct (is_dir (dirs s) l).
  - intros Hn. rewrite download_file_eq. unfold download_outcome.
    by rewrite H1, Hn.
  - intros t l Ht Hf Hl Hd. rewrite download_file_eq. unfold download_outcome.
    by rewrite H1, Ht, Hl, Hd, Hf.
Qed.

Lemma download_independent_of_declared_size_witness :
  files (download_file (Demo.single "http://host/a.zip" (sized "22"))
           (Some "http://host/a.zip") "downloads/a.zip" in_downloads).2
  = files (download_file (Demo.single "http://host/a.zip" (sized "7"))
           (Some "http://host/a.zip") "downloads/a.zip" in_downloads).2
  /\ download_file (Demo.single "http://host/a.zip" (sized separated_length))
       (Some "http://host/a.zip") "downloads/a.zip" in_downloads
     = (Raise ValueError, log in_downloads [Get "http://host/a.zip"])
  /\ download_file (Demo.single "http://host/a.zip" (sized huge_length))
       (Some "http://host/a.zip") "downloads/a.zip" in_downloads
     = (Raise OverflowError,
        State {[ (false, ["a.zip"; "downloads"]) := [] ]}
              (dirs in_downloads) [Get "http://host/a.zip"]).
Proof.
  split; [|split].
  - apply (proj1 (download_independent_of_declared_size
                    (Demo.single "http://host/a.zip" (sized "22"))
                    (Demo.single "http://host/a.zip" (sized "7"))
                    "http://host/a.zip" (sized "22") (sized "7")
                    "downloads/a.zip" in_downloads
                    eq_refl eq_refl eq_refl eq_refl)).
    + exists 22. split; vm_compute; reflexivity.
    + exists 7. split; vm_compute; reflexivity.
  - apply (proj1 (proj2 (download_independent_of_declared_size
                    (Demo.single "http://host/a.zip" (sized separated_length))
                    (Demo.single "http://host/a.zip" (sized separated_length))
                    "http://host/a.zip" (sized separated_length) (sized separated_length)
                    "downloads/a.zip" in_downloads
                    eq_refl eq_refl eq_refl eq_refl))).
    vm_compute. reflexivity.
  - apply (proj2 (proj2 (download_independent_of_declared_size
                    (Demo.single "http://host/a.zip" (sized huge_length))
                    (Demo.single "http://host/a.zip" (sized huge_length))
                    "http://host/a.zip" (sized huge_length) (sized huge_length)
                    "downloads/a.zip" in_downloads
                    eq_refl eq_refl eq_refl eq_refl)) (10 ^ 309)).
    + vm_compute. reflexivity.
    + vm_compute. reflexivity.
    + vm_compute. reflexivity.
    + vm_compute. reflexivity.
Defined.

(** C7 as stated fails: the content-length value is not only shown, it
    is first given to [int]. Of two responses with the same body, the one
    whose header is ["abc"] makes [download_file] raise before the
    destination is opened, so the file is not there; the one whose header
    is ["22"] leaves the body in it. *)
Lemma malformed_length_changes_the_file :
  ~ (forall w1 w2 u r1 r2 p s,
       http w1 u = Some r1 ->
       http w2 u = Some r2 ->
       status_code r1 = status_code r2 ->
       chunks r1 = chunks r2 ->
       complete r1 = complete r2 ->
       delete "content-length" (headers r1) = delete "content-length" (headers r2) ->
       files (download_file w1 (Some u) p s).2
       = files (download_file w2 (Some u) p s).2).
Proof.
  intros H.
  specialize (H (Demo.single "http://host/a.zip" (sized "abc"))
                (Demo.single "http://host/a.zip" (sized "22"))
                "http://host/a.zip" (sized "abc") (sized "22")
                "downloads/a.zip" in_downloads
                eq_refl eq_refl eq_refl eq_refl eq_refl).
  assert (Hd : delete "content-length" (headers (sized "abc"))
               = delete "content-length" (headers (sized "22")))
    by (vm_compute; reflexivity).
  apply H in Hd.
  apply (f_equal (fun f : gmap loc bytes => f !! (false, ["a.zip"; "downloads"]))) in Hd.
  vm_compute in Hd. discriminate Hd.
Qed.

Lemma makedirs_downloads s :
  files s !! (false, ["downloads"]) = None ->
  makedirs "downloads" s =
    (Ok tt, State (files s) ({[(false, ["downloads"])]} ∪ dirs s) (out s)).
Proof.
  intros H. apply is_file_false in H.
  unfold makedirs, bind. simpl.
  change (enter "downloads" (start "downloads")) with (false, ["downloads"]).
  by rewrite H.
Qed.

Lemma makedirs_data s :
  files s !! (false, ["data"]) = None ->
  makedirs "data" s =
    (Ok tt, State (files s) ({[(false, ["data"])]} ∪ dirs s) (out s)).
Proof.
  intros H. apply is_file_false in H.
  unfold makedirs, bind. simpl.
  change (enter "data" (start "data")) with (false, ["data"]).
  by rewrite H.
Qed.

(** C8. A manifest without file elements, run where neither [downloads]
    nor [data] is a regular file: the run returns normally, no file is
    created or changed, the directories [downloads] and [data] are the
    only ones added, and the only event is the final line: no download
    and no extraction. *)
Theorem run_on_empty_manifest w root s :
  manifest w = Some root ->
  Xml.findall root "ml:file" namespace = Some [] ->
  files s !! (false, ["downloads"]) = None ->
  files s !! (false, ["data"]) = None ->
  exists s',
    main w s = (Ok tt, s')
    /\ files s' = files s
    /\ dirs s' = {[(false, ["data"])]} ∪ ({[(false, ["downloads"])]} ∪ dirs s)
    /\ out s' = out s ++ [Stdout complete_line]
    /\ ops [Stdout complete_line] = [].
Proof.
  intros Hm Hf H1 H2. unfold main. rewrite (parse_manifest _ _ Hm). simpl.
  unfold bind at 1. simpl. unfold bind at 1. rewrite makedirs_downloads by done.
  unfold bind at 1. rewrite makedirs_data by done.
  rewrite Hf. eexists. split; [reflexivity|]. done.
Qed.

Lemma run_on_empty_manifest_witness :
  exists s',
    main Demo.no_entries Demo.fresh = (Ok tt, s')
    /\ files s' = ∅
    /\ dirs s' = {[(false, ["data"])]} ∪ ({[(false, ["downloads"])]} ∪ ∅)
    /\ out s' = [Stdout complete_line].
Proof.
  destruct (run_on_empty_manifest Demo.no_entries (Demo.metalink []) Demo.fresh)
    as (s' & H & Hf & Hd & Ho & _); try reflexivity.
  exists s'. done.
Defined.

(** C3. The entry named ["example.zip"]: its artifact path is
    [downloads/example.zip] and its extraction folder [data/example].
    When the loop body returns normally for it, the file at
    [downloads/example.zip] holds the body of the response, the directory
    [data/example] exists, every file member of the archive is under
    [data/example] at its own name with its own data (the last member of
    a name wins), and the extraction is reported for these two paths. *)
Theorem example_zip_saved_and_extracted w file s s' :
  Xml.get file "name" = Some "example.zip" ->
  process w file s = (Ok tt, s') ->
  file_path "example.zip" = "downloads/example.zip"
  /\ extract_to "downloads/example.zip" "data" = "data/example"
  /\ exists u r ms,
       entry_of file = Some ("example.zip", u)
       /\ http w u = Some r
       /\ unzip w (concat (chunks r)) = Some ms
       /\ files s' !! (false, ["example.zip"; "downloads"])
          = Some (concat (chunks r))
       /\ (false, ["example"; "data"]) ∈ dirs s'
       /\ (forall pre m post,
             ms = pre ++ m :: post ->
             PosixPath.endswith PosixPath.sep m.1 = false ->
             (forall m', m' ∈ post ->
                PosixPath.endswith PosixPath.sep m'.1 = false ->
                arcname m'.1 <> arcname m.1) ->
             exists d,
               m.2 = Data d
               /\ files s' !! (false, rev (arcname m.1) ++ ["example"; "data"])
                  = Some d)
       /\ exists t,
            out s' = out s ++ t
              ++ [Unpacked "downloads/example.zip" "data/example";
                  Stdout "Extracted: downloads/example.zip to data/example"].
Proof.
  intros Hn H. split; [reflexivity|]. split; [reflexivity|].
  apply process_inv with (name := "example.zip") in H as (u & s1 & He & Hd & Hx);
    [|done].
  change (file_path "example.zip") with "downloads/example.zip" in *.
  apply download_file_ok_inv in Hd
    as (r & l & t & Hr & _ & _ & Hl & _ & Hf1 & Hd1 & Ho1).
  assert (l = (false, ["example.zip"; "downloads"])) as ->.
  { unfold resolve in Hl. simpl in Hl. destruct (is_dir _ _); [|done].
    by injection Hl as <-. }
  apply extract_zip_inv in Hx
    as (s2 & l' & b & ms & s3 & Hmk & Hl' & Hb & Hu & Hx & ->).
  change (extract_to "downloads/example.zip" "data") with "data/example" in *.
  destruct (makedirs_ok _ _ _ Hmk) as (Hf2 & Hd2 & Hin & Ho2).
  change (lexloc "data/example") with (false, ["example"; "data"]) in *.
  assert (l' = (false, ["example.zip"; "downloads"])) as ->.
  { assert (Hsub : dirs s ⊆ dirs s2) by (by rewrite <- Hd1).
    pose proof (resolve_mono _ _ _ _ Hsub Hl) as E. congruence. }
  rewrite Hf2, Hf1, lookup_insert_eq in Hb. injection Hb as <-.
  exists u, r, ms. split; [done|]. split; [done|]. split; [done|].
  simpl. split; [|split; [|split]].
  - rewrite (extractall_other _ _ _ _ _ _ Hx).
    + by rewrite Hf2, Hf1, lookup_insert_eq.
    + intros m _ _ E. unfold target in E. simpl in E.
      apply (f_equal (fun l : loc => last l.2)) in E. simpl in E.
      change ["example"; "data"] with (["example"] ++ ["data"]) in E.
      by rewrite app_assoc, last_app in E.
  - apply (grows_for_each ms _ (grows_extract_member _) _ _ _ Hx). done.
  - intros pre m post -> Hm Hpost.
    by apply (extractall_member (false, ["example"; "data"]) pre m post s2 s3).
  - exists ([Get u; Bar (PosixPath.basename "downloads/example.zip") t 0]
            ++ bars (PosixPath.basename "downloads/example.zip") t 0 (chunks r)
            ++ [Saved "downloads/example.zip"]).
    rewrite (silent_for_each ms _ (silent_extract_member _) _ _ _ Hx), Ho2, Ho1.
    by rewrite <- !app_assoc.
Qed.

Lemma example_zip_saved_and_extracted_witness :
  exists s',
    process Demo.example_entry
      (Demo.file_element "example.zip" "http://host/example.zip")
      in_downloads = (Ok tt, s')
    /\ files s' !! (false, ["example.zip"; "downloads"]) = Some Demo.readme_zip
    /\ files s' !! (false, ["readme.txt"; "example"; "data"]) = Some [x68; x69].
Proof.
  set (f := Demo.file_element "example.zip" "http://host/example.zip").
  assert (Hrun : process Demo.example_entry f in_downloads
                 = (Ok tt, (process Demo.example_entry f in_downloads).2))
    by (apply outcome_eta; vm_compute; reflexivity).
  exists (process Demo.example_entry f in_downloads).2. split; [exact Hrun|].
  destruct (example_zip_saved_and_extracted Demo.example_entry f in_downloads _
              eq_refl Hrun)
    as (_ & _ & u & r & ms & He & Hr & Hu & Hf & _ & Hm & _).
  assert (E1 : entry_of f
               = Some ("example.zip", "http://host/example.zip"))
    by (vm_compute; reflexivity).
  rewrite E1 in He. injection He as <-.
  assert (E2 : http Demo.example_entry "http://host/example.zip"
               = Some (Response 200 ∅ [Demo.readme_head; []; Demo.readme_tail] true))
    by (vm_compute; reflexivity).
  rewrite E2 in Hr. injection Hr as <-.
  assert (E3 : unzip Demo.example_entry
                 (concat [Demo.readme_head; []; Demo.readme_tail])
               = Some [("readme.txt", Data [x68; x69])])
    by (vm_compute; reflexivity).
  simpl chunks in Hu. rewrite E3 in Hu. injection Hu as <-.
  split; [exact Hf|].
  destruct (Hm [] ("readme.txt", Data [x68; x69]) []) as (d & Hd & Hl);
    [reflexivity|reflexivity| |].
  - intros m' Hm'. exfalso. exact (proj1 (elem_of_nil m') Hm').
  - injection Hd as <-. exact Hl.
Defined.

(** ** The order of operations *)

Lemma ops_app t1 t2 : ops (t1 ++ t2) = ops t1 ++ ops t2.
Proof. apply List.filter_app. Qed.

Lemma ops_bars d t cs : forall n, ops (bars d t n cs) = [].
Proof.
  induction cs as [|c cs IH]; intros n; simpl; [done|].
  destruct (is_nil c); simpl; apply IH.
Qed.

Section Schedule.
Variable w : world.

Lemma download_file_trace u p s r s' :
  download_file w (Some u) p s = (r, s') ->
  exists t, out s' = out s ++ t
    /\ match r with
       | Ok _ => ops t = [Get u; Saved p]
       | Raise _ => ops t = [Get u]
       end.
Proof.
  rewrite download_file_eq. unfold download_outcome.
  destruct (http w u) as [rs|]; [|intros [= <- <-]; by exists [Get u]].
  destruct (declared_size rs) as [t|]; [|intros [= <- <-]; by exists [Get u]].
  destruct (resolve (dirs s) p) as [l|]; [|intros [= <- <-]; by exists [Get u]].
  destruct (is_dir (dirs s) l); [intros [= <- <-]; by exists [Get u]|].
  destruct (fits_float t); [|intros [= <- <-]; by exists [Get u]].
  pose proof (ops_bars (PosixPath.basename p) t (chunks rs) 0) as Hb.
  unfold ops in Hb.
  destruct (complete rs); intros [= <- <-]; (eexists; split; [reflexivity|]);
    unfold ops; simpl; rewrite List.filter_app, Hb; reflexivity.
Qed.

Lemma process_trace file e s r s' :
  entry_of file = Some e ->
  process w file s = (r, s') ->
  exists t, out s' = out s ++ t
    /\ ops t `prefix_of` step e
    /\ (r = Ok tt -> ops t = step e).
Proof.
  destruct e as [name u]. intros He. rewrite (process_entry w _ _ _ _ He).
  intros H. apply bind_inv in H as [([] & s1 & H1 & H2)|(x & H1 & ->)].
  - apply download_file_trace in H1 as (t1 & Ho1 & Hk1).
    pose proof (extract_zip_out _ _ _ _ _ _ H2) as Ho2.
    exists (t1 ++ match r with
                  | Ok _ => [Unpacked (file_path name)
                               (extract_to (file_path name) "data");
                             Stdout (extracted_line (file_path name)
                               (extract_to (file_path name) "data"))]
                  | Raise _ => []
                  end).
    split; [by rewrite Ho2, Ho1, <- app_assoc|].
    rewrite ops_app, Hk1. destruct r as [[]|x]; simpl.
    + split; [done|]. done.
    + split; [|done]. by exists [Unpacked (file_path name)
                                  (extract_to (file_path name) "data")].
  - apply download_file_trace in H1 as (t1 & Ho1 & Hk1).
    exists t1. split; [done|]. rewrite Hk1. split; [|done].
    by eexists.
Qed.

Lemma loop_trace fs es :
  Forall2 (fun f e => entry_of f = Some e) fs es ->
  forall s r s',
  for_each fs (process w) s = (r, s') ->
  exists t, out s' = out s ++ t
    /\ ops t `prefix_of` schedule es
    /\ (r = Ok tt -> ops t = schedule es).
Proof.
  induction 1 as [|f e fs es He Hrest IH]; intros s r s' H; simpl in H.
  - injection H as <- <-. exists []. by rewrite app_nil_r.
  - apply bind_inv in H as [([] & s1 & H1 & H2)|(x & H1 & ->)].
    + apply (process_trace _ _ _ _ _ He) in H1 as (t1 & Ho1 & _ & Hk1).
      apply IH in H2 as (t2 & Ho2 & Hp2 & Hk2).
      exists (t1 ++ t2). split; [by rewrite Ho2, Ho1, <- app_assoc|].
      rewrite ops_app, Hk1 by done. simpl. split.
      * by apply (prefix_app (step e)).
      * intros ->. by rewrite Hk2.
    + apply (process_trace _ _ _ _ _ He) in H1 as (t1 & Ho1 & Hp1 & _).
      exists t1. split; [done|]. split; [|done].
      by apply prefix_app_r.
Qed.

Lemma count_schedule es :
  length (List.filter is_get (schedule es)) = length es
  /\ length (List.filter is_saved (schedule es)) = length es
  /\ length (List.filter is_unpacked (schedule es)) = length es.
Proof.
  induction es as [|e es (I1 & I2 & I3)]; [done|]. simpl.
  by rewrite I1, I2, I3.
Qed.

Lemma filter_ops (f : event -> bool) t :
  (forall e, f e = true -> key e = true) ->
  List.filter f (ops t) = List.filter f t.
Proof.
  intros Hf. induction t as [|e t IH]; [done|]. simpl.
  destruct (key e) eqn:Hk; simpl; [by rewrite IH|].
  destruct (f e) eqn:He; [|done]. apply Hf in He. congruence.
Qed.

End Schedule.

Lemma extract_member_dir base m s s' :
  extract_member base m s = (Ok tt, s') ->
  PosixPath.endswith PosixPath.sep m.1 = true ->
  base ∈ dirs s ->
  target base m ∈ dirs s'.
Proof.
  unfold extract_member. intros H Hd Hb. rewrite Hd in H.
  apply bind_inv in H as [(l & s1 & H1 & H2)|(e & _ & ?)]; [|done].
  injection H2 as <-. unfold target.
  destruct (arcname m.1) as [|c cs] eqn:E.
  - injection H1 as _ <-. by destruct base.
  - pose proof (mkdirs_made _ _ _ _ _ H1 ltac:(done)) as Hl.
    rewrite (mkdirs_reaches _ _ _ _ _ H1) in Hl.
    rewrite foldl_enter_valid in Hl; [done|].
    rewrite <- E. apply arcname_valid.
Qed.

Lemma extractall_dir_member base ms : forall s s' m,
  for_each ms (extract_member base) s = (Ok tt, s') ->
  m ∈ ms ->
  PosixPath.endswith PosixPath.sep m.1 = true ->
  base ∈ dirs s ->
  target base m ∈ dirs s'.
Proof.
  induction ms as [|m0 ms IH]; intros s s' m H Hin Hd Hb; simpl in H.
  - exfalso. exact (proj1 (elem_of_nil _) Hin).
  - apply bind_inv in H as [([] & s1 & H1 & H2)|(e & _ & ?)]; [|done].
    pose proof (grows_extract_member _ _ _ _ _ H1) as [[_ L1] _].
    pose proof (grows_for_each ms _ (grows_extract_member base) _ _ _ H2)
      as [[_ L2] _].
    apply elem_of_cons in Hin as [->|Hin].
    + apply L2. by eapply extract_member_dir.
    + eapply IH; [done|done|done|]. by apply L1.
Qed.

Section Performed.
Variable w : world.

Lemma download_file_downloaded u p s s' :
  download_file w (Some u) p s = (Ok tt, s') -> downloaded w u p s s'.
Proof.
  intros H. apply download_file_ok_inv in H
    as (r & l & t & Hr & Ht & _ & Hl & _ & Hf & Hd & Ho).
  by exists r, l, t.
Qed.

Lemma extract_zip_extracted p d s s' :
  extract_zip w p d s = (Ok tt, s') -> extracted w p d s s'.
Proof.
  intros H. apply extract_zip_inv in H
    as (s1 & l & b & ms & s2 & Hmk & Hl & Hb & Hu & Hx & ->).
  destruct (makedirs_ok _ _ _ Hmk) as (Hf1 & Hd1 & Hin & Ho1).
  pose proof (grows_for_each ms _ (grows_extract_member _) _ _ _ Hx)
    as [[_ Hd2] _].
  exists l, b, ms. simpl. split; [by eapply resolve_mono|].
  split; [by rewrite <- Hf1|]. split; [done|]. split; [by apply Hd2|].
  split; [set_solver|]. split; [|split; [|split]].
  - intros pre m post -> Hm Hpost. by eapply extractall_member.
  - intros m Hm Hdir. by eapply extractall_dir_member.
  - intros l' Hl'. rewrite (extractall_other _ _ _ _ _ _ Hx) by done.
    by rewrite Hf1.
  - rewrite (silent_for_each ms _ (silent_extract_member _) _ _ _ Hx).
    by rewrite Ho1.
Qed.

Lemma loop_performed fs es :
  Forall2 (fun f e => entry_of f = Some e) fs es ->
  forall s r s',
  for_each fs (process w) s = (r, s') ->
  exists done sk,
    done `prefix_of` es
    /\ performed w done s sk
    /\ match r with
       | Ok _ => done = es /\ sk = s'
       | Raise x =>
           exists name u,
             (done ++ [(name, u)]) `prefix_of` es
             /\ (download_file w (Some u) (file_path name) >>
                 extract_zip w (file_path name) "data") sk = (Raise x, s')
       end.
Proof.
  induction 1 as [|f [name u] fs es He Hrest IH]; intros s r s' H; simpl in H.
  - injection H as <- <-. exists [], s. split; [done|].
    split; [constructor|done].
  - apply bind_inv in H as [([] & s1 & H1 & H2)|(x & H1 & ->)].
    + rewrite (process_entry w _ _ _ _ He) in H1.
      apply bind_inv in H1 as [([] & s0 & Hd & Hx)|(x & _ & ?)]; [|done].
      apply IH in H2 as (done & sk & Hp & Hperf & Hr).
      exists ((name, u) :: done), sk. split; [by apply prefix_cons|].
      split.
      { econstructor; [by apply download_file_downloaded|
                       by apply extract_zip_extracted|done]. }
      destruct r as [[]|x].
      * destruct Hr as [-> ->]. done.
      * destruct Hr as (n' & u' & Hp' & Hfail). exists n', u'.
        split; [|done]. simpl. by apply prefix_cons.
    + exists [], s. split; [apply prefix_nil|]. split; [constructor|].
      exists name, u. split; [by apply prefix_cons, prefix_nil|].
      by rewrite <- (process_entry w _ _ _ _ He).
Qed.
End Performed.

Section RunSchedule.
Variable w : world.

(** C2. A manifest whose file elements all carry a name and a URL, N of
    them: the operations of a run are always an initial part of the
    schedule (entry 1's download starts, is complete, its extraction is
    complete; then entry 2's; ...) in document order, and a run that
    returns normally performs the whole schedule: exactly N downloads
    and N extractions, entry k's download and extraction complete before
    entry k+1's download starts. These are operations on the disk: once
    the two folders are made, the run performs an initial part of the
    entries one after the other, each download leaving the body of its
    response in the artifact and each extraction leaving the folder
    and the members of the archive in it, and the download of an entry
    starts on the disk its predecessor's extraction has left. After a
    normal return all N entries have been performed so; after an
    exception, the entry after the performed ones is the one whose
    download or extraction raised it. *)
Theorem run_follows_schedule root fs es s r s' :
  manifest w = Some root ->
  Xml.findall root "ml:file" namespace = Some fs ->
  mapM entry_of fs = Some es ->
  main w s = (r, s') ->
  (exists t,
     out s' = out s ++ t
     /\ ops t `prefix_of` schedule es
     /\ (r = Ok tt ->
         ops t = schedule es
         /\ length (List.filter is_get t) = length fs
         /\ length (List.filter is_saved t) = length fs
         /\ length (List.filter is_unpacked t) = length fs))
  /\ (forall s0,
        base_folders s = (Ok tt, s0) ->
        exists done sk,
          done `prefix_of` es
          /\ performed w done s0 sk
          /\ match r with
             | Ok _ =>
                 done = es /\ length done = length fs
                 /\ s' = log sk [Stdout complete_line]
             | Raise x =>
                 exists name u,
                   (done ++ [(name, u)]) `prefix_of` es
                   /\ (download_file w (Some u) (file_path name) >>
                       extract_zip w (file_path name) "data") sk
                      = (Raise x, s')
             end).
Proof.
  intros Hm Hf He. apply mapM_Some in He. unfold main. rewrite (parse_manifest _ _ Hm).
  unfold bind at 1. simpl. intros H. split.
  - apply bind_inv in H as [([] & s1 & H1 & H)|(x & H1 & ->)].
    2:{ exists []. rewrite app_nil_r. split; [by apply silent_makedirs in H1|].
        split; [apply prefix_nil|done]. }
    apply bind_inv in H as [([] & s2 & H2 & H)|(x & H2 & ->)].
    2:{ exists []. rewrite app_nil_r. apply silent_makedirs in H1, H2.
        split; [congruence|]. split; [apply prefix_nil|done]. }
    apply silent_makedirs in H1, H2. unfold bind at 1 in H. rewrite Hf in H.
    simpl in H.
    apply bind_inv in H as [([] & s3 & H3 & H)|(x & H3 & ->)].
    + apply (loop_trace _ _ _ He) in H3 as (t & Ho & Hp & Hk).
      injection H as <- <-. simpl. exists (t ++ [Stdout "Download and extraction complete."]).
      split; [rewrite Ho, H2, H1; by rewrite <- app_assoc|].
      rewrite ops_app. simpl. rewrite app_nil_r. split; [done|]. intros _.
      specialize (Hk eq_refl). split; [done|].
      rewrite !List.filter_app. simpl. rewrite !length_app. simpl.
      rewrite <- (filter_ops is_get), <- (filter_ops is_saved),
        <- (filter_ops is_unpacked) by (by intros []).
      rewrite Hk. destruct (count_schedule es) as (-> & -> & ->).
      apply Forall2_length in He. lia.
    + apply (loop_trace _ _ _ He) in H3 as (t & Ho & Hp & _).
      exists t. split; [congruence|]. split; [done|]. done.
  - intros s0 Hb. unfold base_folders in Hb.
    apply bind_inv in Hb as [([] & s1 & H1 & H2)|(x & _ & ?)]; [|done].
    rewrite (bind_ok _ _ _ _ _ H1), (bind_ok _ _ _ _ _ H2) in H.
    unfold bind at 1 in H. rewrite Hf in H. simpl in H.
    apply bind_inv in H as [([] & s3 & H3 & H)|(x & H3 & ->)].
    + apply (loop_performed _ _ _ He) in H3 as (done & sk & Hp & Hperf & -> & ->).
      injection H as <- <-. exists es, s3. split; [done|]. split; [done|].
      split; [done|]. split; [|done]. symmetry. by eapply Forall2_length.
    + apply (loop_performed _ _ _ He) in H3 as (done & sk & Hp & Hperf & Hr).
      by exists done, sk.
Qed.
End RunSchedule.

Lemma run_follows_schedule_witness :
  (exists t,
    out (main Demo.two_entries Demo.fresh).2 = t
    /\ ops t = [Get "http://host/a.zip"; Saved "downloads/a.zip";
                Unpacked "downloads/a.zip" "data/a";
                Get "http://host/b.zip"; Saved "downloads/b.zip";
                Unpacked "downloads/b.zip" "data/b"]
    /\ length (List.filter is_get t) = 2%nat
    /\ length (List.filter is_unpacked t) = 2%nat)
  /\ exists sk,
       performed Demo.two_entries
         [("a.zip", "http://host/a.zip"); ("b.zip", "http://host/b.zip")]
         (base_folders Demo.fresh).2 sk
       /\ (main Demo.two_entries Demo.fresh).2 = log sk [Stdout complete_line].
Proof.
  set (fa := Demo.file_element "a.zip" "http://host/a.zip").
  set (fb := Demo.file_element "b.zip" "http://host/b.zip").
  assert (Hrun : main Demo.two_entries Demo.fresh
                 = (Ok tt, (main Demo.two_entries Demo.fresh).2))
    by (apply outcome_eta; vm_compute; reflexivity).
  assert (Hbase : base_folders Demo.fresh
                  = (Ok tt, (base_folders Demo.fresh).2))
    by (apply outcome_eta; vm_compute; reflexivity).
  destruct (run_follows_schedule Demo.two_entries
              (Demo.metalink [fa; fb]) [fa; fb]
              [("a.zip", "http://host/a.zip"); ("b.zip", "http://host/b.zip")]
              Demo.fresh (Ok tt) (main Demo.two_entries Demo.fresh).2
              eq_refl eq_refl eq_refl Hrun)
    as [(t & Ho & _ & Hk) Hperf].
  destruct (Hk eq_refl) as (Hs & Hg & _ & Hu).
  destruct (Hperf _ Hbase) as (done & sk & _ & Hp & Hd & _ & Hend).
  split.
  - exists t. split; [exact Ho|]. split; [exact Hs|]. split; [exact Hg|exact Hu].
  - exists sk. split; [|exact Hend]. rewrite <- Hd. exact Hp.
Defined.

(** ** Status codes *)

Lemma for_each_ext {A} (l : list A) f g :
  (forall x s, f x s = g x s) -> forall s, for_each l f s = for_each l g s.
Proof.
  intros H. induction l as [|x l IH]; intros s; simpl; [done|].
  unfold bind. rewrite H. destruct (g x s) as [[[]|e] s1]; [apply IH|done].
Qed.

Section Status.
Variables w w' : world.
Hypothesis Hsame : same_but_statuses w w'.

Lemma download_file_status url p s :
  download_file w url p s = download_file w' url p s.
Proof.
  rewrite !download_file_eq. unfold download_outcome.
  destruct url as [u|]; [|done]. destruct Hsame as (_ & _ & Hh).
  specialize (Hh u). destruct Hh as [r r' (Hhd & Hch & Hco)|]; [|done].
  unfold declared_size. by rewrite Hhd, Hch, Hco.
Qed.

Lemma extract_zip_status p d s :
  extract_zip w p d s = extract_zip w' p d s.
Proof.
  unfold extract_zip, bind. destruct (makedirs _ s) as [[[]|e] s1]; [|done].
  destruct (read p s1) as [[b|e] s2]; [|done].
  destruct Hsame as (_ & Hz & _). by rewrite Hz.
Qed.

Lemma process_status file s : process w file s = process w' file s.
Proof.
  unfold process, bind.
  destruct (expect (Xml.find file "ml:url" namespace) SyntaxError s)
    as [[o|e] s1]; [|done].
  destruct (expect o AttributeError s1) as [[ue|e] s2]; [|done].
  destruct (expect _ TypeError s2) as [[p|e] s3]; [|done].
  rewrite download_file_status.
  destruct (download_file w' _ p s3) as [[[]|e] s4]; [|done].
  apply extract_zip_status.
Qed.

Lemma main_status s : main w s = main w' s.
Proof.
  unfold main, parse. destruct Hsame as (<- & _ & _).
  destruct (meta4 w) as [| |root]; [done|done|]. unfold bind. simpl.
  destruct (makedirs "downloads" s) as [[[]|e] s2]; [|done].
  destruct (makedirs "data" s2) as [[[]|e] s3]; [|done].
  destruct (expect _ SyntaxError s3) as [[fs|e] s4]; [|done].
  by rewrite (for_each_ext fs _ _ process_status).
Qed.
End Status.

(** ** A failing entry *)

Section Abort.
Variable w : world.

Lemma main_loop root fs s s0 :
  manifest w = Some root ->
  Xml.findall root "ml:file" namespace = Some fs ->
  base_folders s = (Ok tt, s0) ->
  main w s =
    (for_each fs (process w) >>
     emit (Stdout "Download and extraction complete.")) s0.
Proof.
  intros Hm Hf Hb. unfold main. rewrite (parse_manifest _ _ Hm). unfold bind at 1. simpl.
  unfold base_folders in Hb.
  apply bind_inv in Hb as [([] & s1 & H1 & H2)|(e & _ & ?)]; [|done].
  rewrite (bind_ok _ _ _ _ _ H1). rewrite (bind_ok _ _ _ _ _ H2).
  rewrite Hf. reflexivity.
Qed.

Lemma main_abort root pre file post s s0 s1 e s2 :
  manifest w = Some root ->
  Xml.findall root "ml:file" namespace = Some (pre ++ file :: post) ->
  base_folders s = (Ok tt, s0) ->
  for_each pre (process w) s0 = (Ok tt, s1) ->
  process w file s1 = (Raise e, s2) ->
  main w s = (Raise e, s2).
Proof.
  intros Hm Hf Hb Hpre Hx. rewrite (main_loop _ _ _ _ Hm Hf Hb).
  apply bind_raise. by eapply for_each_abort.
Qed.

(** A body that is no archive makes the entry fail after its download. *)
Lemma process_not_an_archive file name u r s s1 :
  entry_of file = Some (name, u) ->
  http w u = Some r ->
  unzip w (concat (chunks r)) = None ->
  download_file w (Some u) (file_path name) s = (Ok tt, s1) ->
  exists e s2, process w file s = (Raise e, s2)
    /\ (e = BadZipFile \/ e = OSError).
Proof.
  intros He Hr Hz Hd. rewrite (process_entry w _ _ _ _ He).
  rewrite (bind_ok _ _ _ _ _ Hd).
  apply download_file_ok_inv in Hd
    as (r' & l & t & Hr' & _ & _ & Hl & _ & Hf1 & Hd1 & _).
  assert (r' = r) as -> by congruence.
  unfold extract_zip.
  destruct (makedirs (extract_to (file_path name) "data") s1)
    as [[[]|e] s2] eqn:Hmk.
  - rewrite (bind_ok _ _ _ _ _ Hmk).
    destruct (makedirs_ok _ _ _ Hmk) as (Hf2 & Hd2 & _ & _).
    assert (Hrd : read (file_path name) s2 = (Ok (concat (chunks r)), s2)).
    { unfold read. rewrite (resolve_mono (dirs s) (dirs s2) _ l); [|by rewrite <- Hd1|done].
      by rewrite Hf2, Hf1, lookup_insert_eq. }
    rewrite (bind_ok _ _ _ _ _ Hrd). rewrite Hz. simpl.
    exists BadZipFile, s2. split; [reflexivity|by left].
  - rewrite (bind_raise _ _ _ _ _ Hmk). exists e, s2. split; [done|].
    right. unfold makedirs in Hmk. destruct (PosixPath.is_empty _); [by injection Hmk|].
    apply bind_inv in Hmk as [(? & ? & _ & ?)|(e' & Hmk & [= ->])]; [done|].
    clear -Hmk. revert Hmk. generalize (start (extract_to (file_path name) "data")).
    generalize s1.
    induction (PosixPath.split (extract_to (file_path name) "data")) as [|c cs IH];
      intros s0 cur; simpl; [done|].
    destruct (is_file _ _); [by intros [= -> _]|]. apply IH.
Qed.

Lemma artifact_present_mono p s s' :
  shape_le s s' -> artifact_present p s -> artifact_present p s'.
Proof.
  intros [Hf Hd] (l & Hl & Hs). exists l. split; [by eapply resolve_mono|].
  apply elem_of_dom. apply Hf. by apply elem_of_dom.
Qed.

Lemma folder_present_mono p s s' :
  shape_le s s' -> folder_present p s -> folder_present p s'.
Proof. intros [_ Hd] H. by apply Hd. Qed.

Lemma process_outputs file name s s' :
  Xml.get file "name" = Some name ->
  process w file s = (Ok tt, s') ->
  artifact_present (file_path name) s'
  /\ folder_present (extract_to (file_path name) "data") s'.
Proof.
  intros Hn H. apply (process_inv w _ _ _ _ Hn) in H as (u & s1 & _ & Hd & Hx).
  pose proof (grows_extract_zip w _ _ _ _ _ Hx) as [Hle _].
  split.
  - apply (artifact_present_mono _ s1); [done|].
    apply download_file_ok_inv in Hd
      as (r & l & t & _ & _ & _ & Hl & _ & Hf1 & Hd1 & _).
    exists l. rewrite Hd1, Hf1, lookup_insert_eq. by split.
  - apply extract_zip_inv in Hx
      as (s2 & l & b & ms & s3 & Hmk & _ & _ & _ & Hall & ->).
    destruct (makedirs_ok _ _ _ Hmk) as (_ & _ & Hin & _).
    unfold folder_present. simpl.
    by apply (grows_for_each _ _ (grows_extract_member _) _ _ _ Hall).
Qed.

Lemma loop_outputs pre : forall s s1,
  for_each pre (process w) s = (Ok tt, s1) ->
  forall f name, f ∈ pre -> Xml.get f "name" = Some name ->
  artifact_present (file_path name) s1
  /\ folder_present (extract_to (file_path name) "data") s1.
Proof.
  induction pre as [|x pre IH]; intros s s1 H f name Hin Hn.
  - by apply elem_of_nil in Hin.
  - simpl in H. apply bind_inv in H as [([] & s' & H1 & H2)|(e & _ & ?)]; [|done].
    apply elem_of_cons in Hin as [->|Hin].
    + destruct (process_outputs _ _ _ _ Hn H1) as [Ha Hf].
      pose proof (grows_for_each pre _ (grows_process w) _ _ _ H2) as [Hle _].
      split; [by eapply artifact_present_mono|by eapply folder_present_mono].
    + by eapply IH.
Qed.
End Abort.

(** C1 (amended). [download_file] never looks at the status of the
    response. Worlds whose responses differ only in their status codes
    run alike; a non-success status is no failure of the download. An
    entry whose saved body is no archive fails in its extraction. And
    when an entry fails, the run ends with that exception in the state
    of the failure: no later entry is downloaded or extracted, and the
    artifacts and folders of the entries before it are still there. *)
Theorem status_code_not_inspected w w' :
  same_but_statuses w w' ->
  (forall s, main w s = main w' s)
  /\ (forall file name u r s s1,
        entry_of file = Some (name, u) ->
        http w u = Some r ->
        unzip w (concat (chunks r)) = None ->
        download_file w (Some u) (file_path name) s = (Ok tt, s1) ->
        exists e s2, process w file s = (Raise e, s2)
          /\ (e = BadZipFile \/ e = OSError))
  /\ (forall root pre file post s s0 s1 e s2,
        manifest w = Some root ->
        Xml.findall root "ml:file" namespace = Some (pre ++ file :: post) ->
        base_folders s = (Ok tt, s0) ->
        for_each pre (process w) s0 = (Ok tt, s1) ->
        process w file s1 = (Raise e, s2) ->
        main w s = (Raise e, s2)
        /\ shape_le s1 s2
        /\ forall f name, f ∈ pre -> Xml.get f "name" = Some name ->
             artifact_present (file_path name) s2
             /\ folder_present (extract_to (file_path name) "data") s2).
Proof.
  intros Hsame. split; [by apply main_status|].
  split; [apply process_not_an_archive|].
  intros root pre file post s s0 s1 e s2 Hm Hf Hb Hpre Hx.
  split; [by eapply main_abort|].
  pose proof (grows_process w _ _ _ _ Hx) as [Hle _]. split; [done|].
  intros f name Hin Hn.
  destruct (loop_outputs w pre _ _ Hpre f name Hin Hn) as [Ha Hd].
  split; [by eapply artifact_present_mono|by eapply folder_present_mono].
Qed.

Lemma not_found_same_but_statuses : same_but_statuses Demo.not_found found_instead.
Proof.
  split; [reflexivity|]. split; [reflexivity|]. intros u.
  unfold Demo.not_found, found_instead, Demo.serve. simpl.
  repeat case_bool_decide; simpl; constructor; done.
Qed.

Lemma status_code_not_inspected_witness :
  main Demo.not_found Demo.fresh = main found_instead Demo.fresh.
Proof.
  apply (proj1 (status_code_not_inspected Demo.not_found found_instead
                  not_found_same_but_statuses)).
Defined.

(** C1 as stated fails: a URL that answers 404 with a body that is an
    archive does not end the run. *)
Lemma not_found_is_not_fatal :
  ~ (forall w s root fs file name u r,
       manifest w = Some root ->
       Xml.findall root "ml:file" namespace = Some fs ->
       file ∈ fs ->
       entry_of file = Some (name, u) ->
       http w u = Some r ->
       is_success (status_code r) = false ->
       exists e, (main w s).1 = Raise e).
Proof.
  intros H.
  destruct (H Demo.not_found Demo.fresh
              (Demo.metalink [Demo.file_element "a.zip" "http://host/a.zip";
                              Demo.file_element "b.zip" "http://host/b.zip"])
              [Demo.file_element "a.zip" "http://host/a.zip";
               Demo.file_element "b.zip" "http://host/b.zip"]
              (Demo.file_element "a.zip" "http://host/a.zip")
              "a.zip" "http://host/a.zip"
              (Response 404 (Demo.length_header "22") [Demo.empty_zip] true))
    as [e He]; try reflexivity.
  - by left.
  - vm_compute in He. discriminate He.
Qed.

(** The run of that counterexample in full: the 404 body is saved and
    unpacked, and the second entry is downloaded and unpacked after it. *)
Example not_found_run :
  (main Demo.not_found Demo.fresh).1 = Ok tt
  /\ files (main Demo.not_found Demo.fresh).2 !! (false, ["a.zip"; "downloads"])
     = Some Demo.empty_zip
  /\ ops (out (main Demo.not_found Demo.fresh).2)
     = [Get "http://host/a.zip"; Saved "downloads/a.zip";
        Unpacked "downloads/a.zip" "data/a";
        Get "http://host/b.zip"; Saved "downloads/b.zip";
        Unpacked "downloads/b.zip" "data/b"].
Proof. repeat split; vm_compute; reflexivity. Qed.

(** C5. When the loop body raises for entry k, the run ends with that
    exception in the very state the failure left: whatever entries
    follow k, none of them is processed; no file and no directory that
    was there after entry k-1 is missing; the artifact and the folder of
    every entry before k are still there. Nothing is rolled back, so the
    output of entry k itself can be partial: when the stream of the
    second of three entries breaks after its first chunk, the run ends
    with the artifact holding that chunk alone. *)
Theorem failing_entry_aborts_run :
  (forall w root pre file post s s0 s1 e s2,
     manifest w = Some root ->
     Xml.findall root "ml:file" namespace = Some (pre ++ file :: post) ->
     base_folders s = (Ok tt, s0) ->
     for_each pre (process w) s0 = (Ok tt, s1) ->
     process w file s1 = (Raise e, s2) ->
     main w s = (Raise e, s2)
     /\ (forall post',
           for_each (pre ++ file :: post') (process w) s0 = (Raise e, s2))
     /\ shape_le s1 s2
     /\ (forall f name, f ∈ pre -> Xml.get f "name" = Some name ->
           artifact_present (file_path name) s2
           /\ folder_present (extract_to (file_path name) "data") s2))
  /\ (main Demo.broken_second Demo.fresh).1 = Raise RequestException
  /\ files (main Demo.broken_second Demo.fresh).2 !! (false, ["b.zip"; "downloads"])
     = Some Demo.readme_head.
Proof.
  split; [|split; vm_compute; reflexivity].
  intros w root pre file post s s0 s1 e s2 Hm Hf Hb Hpre Hx.
  split; [by eapply main_abort|].
  split; [intros post'; by eapply for_each_abort|].
  pose proof (grows_process w _ _ _ _ Hx) as [Hle _]. split; [done|].
  intros f name Hin Hn.
  destruct (loop_outputs w pre _ _ Hpre f name Hin Hn) as [Ha Hd].
  split; [by eapply artifact_present_mono|by eapply folder_present_mono].
Qed.

Lemma failing_entry_aborts_run_witness :
  exists s2,
    main Demo.broken_second Demo.fresh = (Raise RequestException, s2)
    /\ artifact_present "downloads/a.zip" s2
    /\ folder_present "data/a" s2.
Proof.
  pose (fa := Demo.file_element "a.zip" "http://host/a.zip").
  pose (fb := Demo.file_element "b.zip" "http://host/b.zip").
  pose (fc := Demo.file_element "c.zip" "http://host/c.zip").
  pose proof (outcome_eta (base_folders Demo.fresh) (Ok tt)
                ltac:(vm_compute; reflexivity)) as H0.
  pose proof (outcome_eta
                (for_each [fa] (process Demo.broken_second)
                   (base_folders Demo.fresh).2) (Ok tt)
                ltac:(vm_compute; reflexivity)) as H1.
  pose proof (outcome_eta
                (process Demo.broken_second fb
                   (for_each [fa] (process Demo.broken_second)
                      (base_folders Demo.fresh).2).2)
                (Raise RequestException)
                ltac:(vm_compute; reflexivity)) as H2.
  destruct (proj1 failing_entry_aborts_run Demo.broken_second
              (Demo.metalink [fa; fb; fc]) [fa] fb [fc]
              Demo.fresh _ _ RequestException _ eq_refl eq_refl H0 H1 H2)
    as (Hrun & _ & _ & Hout).
  destruct (Hout fa "a.zip" (list_elem_of_here _ _) eq_refl) as [Ha Hd].
  eexists. split; [exact Hrun|]. split; [exact Ha|exact Hd].
Defined.

(** ** A second run *)

Lemma sim_put sF s t l d o1 o2 :
  wf sF -> sim sF s t -> l ∈ dom (files sF) ->
  sim sF (State (<[l := d]> (files s)) (dirs s) o1)
         (State (<[l := d]> (files t)) (dirs t) o2)
  /\ is_dir (dirs t) l = false.
Proof.
  intros W (Edirs & Edom & Hl) Hin. split.
  - split; [done|]. split; simpl.
    + rewrite dom_insert_L, Edom. apply subseteq_union_1_L.
      by apply singleton_subseteq_l.
    + intros k. destruct (decide (k = l)) as [->|Hne].
      * left. by rewrite !lookup_insert_eq.
      * rewrite !lookup_insert_ne by done. apply Hl.
  - rewrite Edirs. destruct (is_dir (dirs sF) l) eqn:E; [|done].
    apply W in E. apply elem_of_dom in Hin as [? ?]. congruence.
Qed.

Lemma sim_add_dir sF s t l o1 o2 :
  wf sF -> sim sF s t -> l ∈ dirs sF ->
  sim sF (State (files s) ({[l]} ∪ dirs s) o1)
         (State (files t) ({[l]} ∪ dirs t) o2)
  /\ is_file (files t) l = false.
Proof.
  intros W (Edirs & Edom & Hl) Hin. split.
  - split; simpl; [|by split]. rewrite Edirs. apply subseteq_union_1_L.
    by apply singleton_subseteq_l.
  - apply is_file_false. apply not_elem_of_dom. rewrite Edom.
    apply not_elem_of_dom. apply W. unfold is_dir. apply orb_true_iff. right.
    by apply bool_decide_eq_true.
Qed.

Lemma sim_same_out sF s t o1 o2 :
  sim sF s t ->
  sim sF (State (files s) (dirs s) o1) (State (files t) (dirs t) o2).
Proof. by intros (Hd & Hf & Hl). Qed.

Lemma replays_ret {A} (a : A) : replays (ret a).
Proof. intros sF s t r s' _ [= <- <-] _ _ H. by exists t. Qed.

Lemma replays_raise {A} e : replays (@raise A e).
Proof. intros sF s t r s' _ [= <- <-] _ _ H. by exists t. Qed.

Lemma replays_expect {A} (o : option A) e : replays (expect o e).
Proof. destruct o; [apply replays_ret|apply replays_raise]. Qed.

Lemma replays_emit e : replays (emit e).
Proof.
  intros sF s t r s' _ [= <- <-] _ _ H. eexists. split; [reflexivity|].
  by apply sim_same_out.
Qed.

Lemma replays_bind {A B} (m : M A) (k : A -> M B) :
  replays m -> (forall a, replays (k a)) -> (forall a, grows (k a)) ->
  replays (bind m k).
Proof.
  intros Hm Hk Hg sF s t r s' W H Hle Hr Hs.
  apply bind_inv in H as [(a & s1 & H1 & H2)|(e & H1 & ->)].
  - destruct (Hg a _ _ _ H2) as [Hle1 _].
    destruct (Hm sF s t _ _ W H1) as (t1 & Ht1 & Hs1);
      [by eapply shape_le_trans|done|done|].
    destruct (Hk a sF s1 t1 _ _ W H2 Hle Hr Hs1) as (t' & Ht' & Hs').
    exists t'. split; [|done]. by rewrite (bind_ok _ _ _ _ _ Ht1).
  - destruct (Hm sF s t _ _ W H1 Hle (fun _ => Hr I) Hs) as (t' & Ht' & Hs').
    exists t'. split; [|done]. by rewrite (bind_raise _ _ _ _ _ Ht').
Qed.

Lemma replays_for_each {A} (l : list A) body :
  (forall x, replays (body x)) -> (forall x, grows (body x)) ->
  replays (for_each l body).
Proof.
  intros Hb Hg. induction l as [|x l IH]; simpl; [apply replays_ret|].
  apply replays_bind; [done|done|]. intros _. by apply grows_for_each.
Qed.

Lemma shape_le_dirs s s' l : shape_le s s' -> l ∈ dirs s -> l ∈ dirs s'.
Proof. intros [_ H]. apply H. Qed.

Lemma shape_le_files s s' l : shape_le s s' -> is_Some (files s !! l) -> l ∈ dom (files s').
Proof. intros [H _] Hl. apply H. by apply elem_of_dom. Qed.

Lemma is_file_same f f' l : dom f = dom f' -> is_file f l = is_file f' l.
Proof.
  intros H. unfold is_file. apply bool_decide_ext.
  rewrite <- !elem_of_dom. by rewrite H.
Qed.

Lemma replays_mkdirs cs : forall cur, replays (mkdirs cs cur).
Proof.
  induction cs as [|c cs IH]; intros cur; simpl; [apply replays_ret|].
  intros sF s t r s' W H Hle Hr Hs.
  destruct (is_file (files s) (enter c cur)) eqn:Hf.
  - injection H as <- <-. destruct (Hr I) as [Ef Ed].
    exists t. split; [|done].
    destruct Hs as (Hd & Hdom & _).
    by rewrite (is_file_same (files t) (files s)), Hf by (by rewrite Hdom, Ef).
  - destruct (grows_mkdirs _ _ _ _ _ H) as [Hle1 _].
    assert (Hin : enter c cur ∈ dirs sF).
    { eapply shape_le_dirs; [exact Hle|]. eapply shape_le_dirs; [exact Hle1|].
      simpl. set_solver. }
    destruct (sim_add_dir sF s t (enter c cur) (out s) (out t) W Hs Hin)
      as [Hs1 Hft].
    destruct (IH _ sF _ _ _ _ W H Hle Hr Hs1) as (t' & Ht' & Hs').
    exists t'. by rewrite Hft.
Qed.

Lemma replays_makedirs p : replays (makedirs p).
Proof.
  unfold makedirs. destruct (PosixPath.is_empty p); [apply replays_raise|].
  apply replays_bind; [apply replays_mkdirs|intros; apply replays_ret|].
  intros; apply grows_ret.
Qed.

Lemma replays_copy_to target d : replays (copy_to target d).
Proof.
  intros sF s t r s' W H Hle Hr Hs. unfold copy_to in *.
  destruct (is_dir (dirs s) target) eqn:Hd.
  - injection H as <- <-. destruct (Hr I) as [_ Ed].
    exists t. split; [|done]. destruct Hs as (Hdt & _ & _).
    by rewrite Hdt, <- Ed, Hd.
  - injection H as <- <-.
    assert (Hin : target ∈ dom (files sF)).
    { eapply shape_le_files; [exact Hle|]. simpl. by rewrite lookup_insert_eq. }
    destruct (sim_put sF s t target d (out s) (out t) W Hs Hin)
      as [Hs' Hdt].
    eexists. rewrite Hdt. by split.
Qed.

Lemma replays_store target c : replays (store target c).
Proof.
  destruct c as [d|f|d f]; simpl.
  - apply replays_copy_to.
  - apply replays_raise.
  - apply replays_bind; [apply replays_copy_to|intros; apply replays_raise|].
    intros; apply grows_raise.
Qed.

Lemma replays_extract_member base m : replays (extract_member base m).
Proof.
  unfold extract_member. destruct (PosixPath.endswith _ _).
  { apply replays_bind; [apply replays_mkdirs|intros; apply replays_ret|].
    intros; apply grows_ret. }
  destruct (split_last _) as [[upper name]|].
  - apply replays_bind; [apply replays_mkdirs|intros; apply replays_store|].
    intros; apply grows_store.
  - destruct (PosixPath.is_empty _); [apply replays_raise|apply replays_store].
Qed.

Section Rerun.
Variable w : world.

Lemma download_file_replay url p sF s t r s' :
  wf sF ->
  download_file w url p s = (r, s') ->
  shape_le s' sF ->
  (failed r -> same_disk s' sF) ->
  sim sF s t ->
  exists t',
    download_file w url p t = (r, t') /\ sim sF s' t'
    /\ (r = Ok tt ->
        exists l b, resolve (dirs s) p = Some l /\ dirs s' = dirs s
          /\ files s' !! l = Some b /\ files t' !! l = Some b).
Proof.
  intros W H Hle Hr Hs. rewrite download_file_eq in *.
  unfold download_outcome in *.
  destruct url as [u|]; [|injection H as <- <-; by exists t].
  destruct (http w u) as [rs|];
    [|injection H as <- <-; eexists; split; [reflexivity|];
      split; [by apply sim_same_out|done]].
  destruct (declared_size rs) as [n|];
    [|injection H as <- <-; eexists; split; [reflexivity|];
      split; [by apply sim_same_out|done]].
  assert (Hdt : dirs t = dirs sF) by apply Hs.
  destruct (resolve (dirs s) p) as [l|] eqn:Hl.
  2:{ injection H as <- <-. destruct (Hr I) as [_ Ed]. simpl in Ed.
      rewrite Hdt, <- Ed, Hl. eexists. split; [reflexivity|].
      split; [by apply sim_same_out|done]. }
  destruct (is_dir (dirs s) l) eqn:Hd.
  { injection H as <- <-. destruct (Hr I) as [_ Ed]. simpl in Ed.
    rewrite Hdt, <- Ed, Hl, Hd. eexists. split; [reflexivity|].
    split; [by apply sim_same_out|done]. }
  destruct (fits_float n).
  - injection H as <- <-.
    assert (Hin : l ∈ dom (files sF)).
    { eapply shape_le_files; [exact Hle|]. simpl. by rewrite lookup_insert_eq. }
    assert (Hsub : dirs s ⊆ dirs t).
    { rewrite Hdt. by destruct Hle as [_ ?]. }
    rewrite (resolve_mono _ _ _ _ Hsub Hl).
    edestruct (sim_put sF s t l) as [Hs' ->]; [done..|].
    eexists. split; [reflexivity|]. split; [exact Hs'|].
    intros _. exists l, (concat (chunks rs)). simpl.
    by rewrite !lookup_insert_eq.
  - injection H as <- <-.
    assert (Hin : l ∈ dom (files sF)).
    { eapply shape_le_files; [exact Hle|]. simpl. by rewrite lookup_insert_eq. }
    assert (Hsub : dirs s ⊆ dirs t).
    { rewrite Hdt. by destruct Hle as [_ ?]. }
    rewrite (resolve_mono _ _ _ _ Hsub Hl).
    edestruct (sim_put sF s t l) as [Hs' ->]; [done..|].
    eexists. split; [reflexivity|]. split; [exact Hs'|done].
Qed.

Lemma grows_unpack p d b : grows (unpack w p d b).
Proof. unfold unpack. auto 10 with grows. Qed.

Lemma replays_unpack p d b : replays (unpack w p d b).
Proof.
  unfold unpack. apply replays_bind; [apply replays_expect| |].
  - intros ms. apply replays_bind.
    + apply replays_for_each; intros; [apply replays_extract_member|apply grows_extract_member].
    + intros _. apply replays_bind; [apply replays_emit|intros; apply replays_emit|].
      intros; apply grows_emit.
    + intros _. auto with grows.
  - intros ms. auto 10 with grows.
Qed.

Lemma extract_zip_unpack p d s :
  extract_zip w p d s =
    (makedirs (extract_to p d) >> let* content := read p in unpack w p d content) s.
Proof. reflexivity. Qed.

Lemma extract_zip_replay p d sF s t r s' l b :
  wf sF ->
  resolve (dirs s) p = Some l ->
  files s !! l = Some b ->
  files t !! l = Some b ->
  extract_zip w p d s = (r, s') ->
  shape_le s' sF ->
  (failed r -> same_disk s' sF) ->
  sim sF s t ->
  exists t', extract_zip w p d t = (r, t') /\ sim sF s' t'.
Proof.
  intros W Hl Hb Hbt H Hle Hr Hs. rewrite extract_zip_unpack in *.
  apply bind_inv in H as [([] & s1 & H1 & H2)|(e & H1 & ->)].
  2:{ destruct (replays_makedirs _ sF s t _ _ W H1 Hle Hr Hs) as (t' & Ht' & Hs').
      exists t'. by rewrite (bind_raise _ _ _ _ _ Ht'). }
  destruct (makedirs_ok _ _ _ H1) as (Hf1 & Hd1 & _ & _).
  assert (Hrd : read p s1 = (Ok b, s1)).
  { unfold read. by rewrite (resolve_mono _ _ _ _ Hd1 Hl), Hf1, Hb. }
  rewrite (bind_ok _ _ _ _ _ Hrd) in H2.
  destruct (grows_unpack _ _ _ _ _ _ H2) as [Hle1 _].
  destruct (replays_makedirs _ sF s t _ _ W H1) as (t1 & Ht1 & Hs1);
    [by eapply shape_le_trans|done|done|].
  destruct (makedirs_ok _ _ _ Ht1) as (Hf1t & _ & _ & _).
  assert (Hrdt : read p t1 = (Ok b, t1)).
  { unfold read. assert (Hsub : dirs s ⊆ dirs t1).
    { destruct Hs1 as (-> & _ & _). destruct Hle as [_ Hle]. destruct Hle1 as [_ Hle1].
      set_solver. }
    by rewrite (resolve_mono _ _ _ _ Hsub Hl), Hf1t, Hbt. }
  destruct (replays_unpack p d b sF s1 t1 _ _ W H2 Hle Hr Hs1) as (t' & Ht' & Hs').
  exists t'. split; [|done].
  by rewrite (bind_ok _ _ _ _ _ Ht1), (bind_ok _ _ _ _ _ Hrdt).
Qed.

Lemma replays_fetch url p d :
  replays (download_file w url p >> extract_zip w p d).
Proof.
  intros sF s t r s' W H Hle Hr Hs.
  apply bind_inv in H as [([] & s1 & H1 & H2)|(e & H1 & ->)].
  - destruct (grows_extract_zip w _ _ _ _ _ H2) as [Hle1 _].
    destruct (download_file_replay _ _ sF s t _ _ W H1) as (t1 & Ht1 & Hs1 & Hk);
      [by eapply shape_le_trans|done|done|].
    destruct (Hk eq_refl) as (l & b & Hl & Hd1 & Hb & Hbt).
    rewrite <- Hd1 in Hl.
    destruct (extract_zip_replay p d sF s1 t1 r s' l b W Hl Hb Hbt H2 Hle Hr Hs1)
      as (t' & Ht' & Hs').
    exists t'. split; [|done]. by rewrite (bind_ok _ _ _ _ _ Ht1).
  - destruct (download_file_replay _ _ sF s t _ _ W H1 Hle (fun _ => Hr I) Hs)
      as (t' & Ht' & Hs' & _).
    exists t'. split; [|done]. by rewrite (bind_raise _ _ _ _ _ Ht').
Qed.

Lemma replays_process file : replays (process w file).
Proof.
  unfold process.
  apply replays_bind; [apply replays_expect| |].
  - intros o. apply replays_bind; [apply replays_expect| |].
    + intros ue. apply replays_bind; [apply replays_expect|intros; apply replays_fetch|].
      intros p. pose proof (grows_download_file w). pose proof (grows_extract_zip w).
      auto with grows.
    + intros ue. pose proof (grows_download_file w). pose proof (grows_extract_zip w).
      auto 10 with grows.
  - intros o. pose proof (grows_download_file w). pose proof (grows_extract_zip w).
    auto 10 with grows.
Qed.

Lemma replays_main : replays (main w).
Proof.
  pose proof (grows_process w) as Hg. pose proof replays_process as Hp.
  unfold main.
  apply replays_bind;
    [unfold parse; destruct (meta4 w); [apply replays_raise..|apply replays_ret]|
     |intros; auto 10 with grows].
  intros root.
  apply replays_bind; [apply replays_makedirs| |intros; auto 10 with grows].
  intros _.
  apply replays_bind; [apply replays_makedirs| |intros; auto 10 with grows].
  intros _.
  apply replays_bind; [apply replays_expect| |intros; auto 10 with grows].
  intros fs.
  apply replays_bind; [by apply replays_for_each|intros; apply replays_emit|].
  intros; auto with grows.
Qed.

(** C6. On a disk where no place is both a directory and a regular
    file, a second run in the state the first run left, against the same
    world, has the same result and leaves the files, their contents and
    the directories as the first run left them. [download_file] puts the
    body of the response in the destination whatever the destination
    held before, and [makedirs] on a folder it has already made returns
    normally and changes nothing. *)
Theorem rerun_reaches_same_disk :
  (forall s r s1,
     wf s -> main w s = (r, s1) ->
     exists s2, main w s1 = (r, s2) /\ files s2 = files s1 /\ dirs s2 = dirs s1)
  /\ (forall u p s s1 old l,
        resolve (dirs s) p = Some l -> files s !! l = Some old ->
        download_file w (Some u) p s = (Ok tt, s1) ->
        exists r, http w u = Some r /\ files s1 !! l = Some (concat (chunks r)))
  /\ (forall p s s1,
        wf s -> makedirs p s = (Ok tt, s1) ->
        exists s2, makedirs p s1 = (Ok tt, s2) /\ same_disk s2 s1).
Proof.
  assert (Hfix : forall (m : M unit) s r s1,
            replays m -> grows m -> wf s -> m s = (r, s1) ->
            exists s2, m s1 = (r, s2) /\ files s2 = files s1 /\ dirs s2 = dirs s1).
  { intros m s r s1 Hm Hg W H. destruct (Hg _ _ _ H) as [_ W1].
    destruct (Hm s1 s s1 r s1 (W1 W) H) as (s2 & H2 & Hd & _ & Hl).
    - apply shape_le_refl.
    - by intros _.
    - split; [done|]. split; [done|]. intros l. by right.
    - exists s2. split; [done|]. split; [|done].
      apply map_eq. intros l. by destruct (Hl l). }
  split; [|split].
  - intros s r s1. apply Hfix; [apply replays_main|apply grows_main].
  - intros u p s s1 old l Hl Hold H.
    apply download_file_ok_inv in H as (r & l' & t & Hr & _ & _ & Hl' & _ & Hf & _).
    exists r. split; [done|]. rewrite Hf. assert (l' = l) as -> by congruence.
    apply lookup_insert_eq.
  - intros p s s1 W H.
    destruct (Hfix (makedirs p) s (Ok tt) s1 (replays_makedirs p) (grows_makedirs p) W H)
      as (s2 & H2 & Hf & Hd).
    by exists s2.
Qed.
End Rerun.

Lemma fresh_wf : wf Demo.fresh.
Proof. intros l _. apply lookup_empty. Qed.

Lemma rerun_reaches_same_disk_witness :
  exists s1 s2,
    main Demo.two_entries Demo.fresh = (Ok tt, s1)
    /\ main Demo.two_entries s1 = (Ok tt, s2)
    /\ files s2 = files s1 /\ dirs s2 = dirs s1.
Proof.
  assert (H1 : main Demo.two_entries Demo.fresh
               = (Ok tt, (main Demo.two_entries Demo.fresh).2))
    by (apply outcome_eta; vm_compute; reflexivity).
  destruct (proj1 (rerun_reaches_same_disk Demo.two_entries)
              Demo.fresh (Ok tt) _ fresh_wf H1) as (s2 & H2 & Hf & Hd).
  exists (main Demo.two_entries Demo.fresh).2, s2.
  split; [exact H1|]. split; [exact H2|]. split; [exact Hf|exact Hd].
Defined.

(** * Further properties *)

(** ** [download_file]: failures, the bar, the chunks *)

(** X1. Three ways in which [download_file] fails, and what each
    leaves behind. A request that gets no response raises
    RequestException: nothing is written. A destination that cannot be
    opened, for a missing directory on the way or a directory at the
    path itself, raises OSError once the response has come and its
    header is read: nothing is written. A stream that breaks raises
    RequestException and leaves in the destination the bytes received
    before the break: nothing is cleaned up. *)
Theorem download_file_failure_modes w u p s :
  (http w u = None ->
   download_file w (Some u) p s = (Raise RequestException, log s [Get u]))
  /\ (forall r t,
        http w u = Some r ->
        declared_size r = Some t ->
        (resolve (dirs s) p = None
         \/ exists l, resolve (dirs s) p = Some l /\ is_dir (dirs s) l = true) ->
        download_file w (Some u) p s = (Raise OSError, log s [Get u]))
  /\ (forall r t l,
        http w u = Some r ->
        declared_size r = Some t ->
        fits_float t = true ->
        resolve (dirs s) p = Some l ->
        is_dir (dirs s) l = false ->
        complete r = false ->
        exists s',
          download_file w (Some u) p s = (Raise RequestException, s')
          /\ files s' = <[l := concat (chunks r)]> (files s)
          /\ dirs s' = dirs s).
Proof.
  rewrite download_file_eq. unfold download_outcome. split; [|split].
  - by intros ->.
  - intros r t -> -> [->|(l & -> & ->)]; done.
  - intros r t l -> -> -> -> -> ->. by eexists.
Qed.

Lemma download_file_failure_modes_witness :
  exists s',
    download_file Demo.broken_second (Some "http://host/b.zip")
      "downloads/b.zip" in_downloads = (Raise RequestException, s')
    /\ files s' !! (false, ["b.zip"; "downloads"]) = Some Demo.readme_head.
Proof.
  destruct (proj2 (proj2 (download_file_failure_modes Demo.broken_second
                            "http://host/b.zip" "downloads/b.zip" in_downloads))
              (Response 200 (Demo.length_header "120") [Demo.readme_head] false)
              120 (false, ["b.zip"; "downloads"]))
    as (s' & H & Hf & _); try (vm_compute; reflexivity).
  exists s'. split; [exact H|]. rewrite Hf. vm_compute. reflexivity.
Defined.

Lemma final_count_from_app t1 t2 : forall acc,
  final_count_from acc (t1 ++ t2)
  = final_count_from (final_count_from acc t1) t2.
Proof. induction t1 as [|e t1 IH]; intros acc; simpl; [done|apply IH]. Qed.

Lemma byte_len_app (a b : bytes) : byte_len (a ++ b) = byte_len a + byte_len b.
Proof. unfold byte_len. rewrite length_app. lia. Qed.

Lemma final_count_bars d t cs : forall n,
  final_count_from (Some n) (bars d t n cs) = Some (n + byte_len (concat cs)).
Proof.
  induction cs as [|c cs IH]; intros n; simpl.
  - f_equal. unfold byte_len. simpl. lia.
  - destruct c as [|b c]; simpl.
    + apply IH.
    + rewrite IH. f_equal.
      change (b :: c ++ concat cs) with ((b :: c) ++ concat cs).
      rewrite byte_len_app. lia.
Qed.

(** X2. After a download that returns normally, the counter the
    progress bar showed last is the length of the file written. *)
Theorem bar_ends_at_bytes_written w u p s s' :
  download_file w (Some u) p s = (Ok tt, s') ->
  exists t l b,
    out s' = out s ++ t
    /\ resolve (dirs s) p = Some l
    /\ files s' !! l = Some b
    /\ final_count t = Some (byte_len b).
Proof.
  intros H. apply download_file_ok_inv in H
    as (r & l & n & _ & _ & _ & Hl & _ & Hf & _ & Ho).
  eexists _, l, (concat (chunks r)). split; [exact Ho|]. split; [done|].
  split; [by rewrite Hf, lookup_insert_eq|].
  unfold final_count. simpl. rewrite final_count_from_app, final_count_bars.
  reflexivity.
Qed.

Lemma bar_ends_at_bytes_written_witness :
  exists t,
    out (download_file (Demo.single "http://host/a.zip" (sized "7"))
           (Some "http://host/a.zip") "downloads/a.zip" in_downloads).2 = t
    /\ final_count t = Some 22.
Proof.
  destruct (bar_ends_at_bytes_written
              (Demo.single "http://host/a.zip" (sized "7"))
              "http://host/a.zip" "downloads/a.zip" in_downloads
              (download_file (Demo.single "http://host/a.zip" (sized "7"))
                 (Some "http://host/a.zip") "downloads/a.zip" in_downloads).2)
    as (t & l & b & Ho & Hl & Hb & Hc).
  - apply outcome_eta. vm_compute. reflexivity.
  - exists t. split; [exact Ho|].
    assert (E : files (download_file (Demo.single "http://host/a.zip" (sized "7"))
                   (Some "http://host/a.zip") "downloads/a.zip" in_downloads).2
                !! (false, ["a.zip"; "downloads"]) = Some Demo.empty_zip)
      by (vm_compute; reflexivity).
    assert (l = (false, ["a.zip"; "downloads"])) as ->
      by (vm_compute in Hl; by injection Hl as <-).
    rewrite E in Hb. injection Hb as <-. exact Hc.
Defined.

(** X3. How the body is cut into chunks does not matter: two
    responses with the same headers, the same end of stream and the same
    bytes, empty chunks or not, give the same result, the same files and
    the same directories. *)
Theorem chunking_does_not_matter w1 w2 u r1 r2 p s :
  http w1 u = Some r1 ->
  http w2 u = Some r2 ->
  headers r1 = headers r2 ->
  complete r1 = complete r2 ->
  concat (chunks r1) = concat (chunks r2) ->
  (download_file w1 (Some u) p s).1 = (download_file w2 (Some u) p s).1
  /\ files (download_file w1 (Some u) p s).2
     = files (download_file w2 (Some u) p s).2
  /\ dirs (download_file w1 (Some u) p s).2
     = dirs (download_file w2 (Some u) p s).2.
Proof.
  intros H1 H2 Hh Hc Hb. rewrite !download_file_eq. unfold download_outcome.
  rewrite H1, H2. unfold declared_size. rewrite Hh, Hc, Hb.
  destruct (headers r2 !! "content-length") as [v|].
  - destruct (Py.int v) as [t|]; [|done].
    destruct (resolve (dirs s) p) as [l|]; [|done].
    destruct (is_dir _ _); [done|]. by destruct (fits_float t).
  - destruct (resolve (dirs s) p) as [l|]; [|done].
    destruct (is_dir _ _); [done|]. by destruct (fits_float 0).
Qed.

Lemma chunking_does_not_matter_witness :
  files (download_file (Demo.single "http://host/a.zip" readme_whole)
           (Some "http://host/a.zip") "downloads/a.zip" in_downloads).2
  = files (download_file (Demo.single "http://host/a.zip" readme_parts)
           (Some "http://host/a.zip") "downloads/a.zip" in_downloads).2.
Proof.
  apply (chunking_does_not_matter
           (Demo.single "http://host/a.zip" readme_whole)
           (Demo.single "http://host/a.zip" readme_parts)
           "http://host/a.zip" readme_whole readme_parts);
    reflexivity.
Defined.

(** X4. Whatever its outcome, [download_file] creates no directory
    and leaves every file but its destination as it was. *)
Theorem download_file_touches_only_destination w url p s r s' :
  download_file w url p s = (r, s') ->
  dirs s' = dirs s
  /\ forall l, resolve (dirs s) p <> Some l -> files s' !! l = files s !! l.
Proof.
  rewrite download_file_eq. unfold download_outcome.
  destruct url as [u|]; [|by intros [= <- <-]].
  destruct (http w u) as [rs|]; [|by intros [= <- <-]].
  destruct (declared_size rs) as [t|]; [|by intros [= <- <-]].
  destruct (resolve (dirs s) p) as [l|]; [|by intros [= <- <-]].
  destruct (is_dir (dirs s) l); [by intros [= <- <-]|].
  destruct (fits_float t); intros [= <- <-];
    (split; [done|]; intros l' Hne; simpl;
     rewrite lookup_insert_ne; [done|]; intros ->; by apply Hne).
Qed.

Lemma download_file_touches_only_destination_witness :
  dirs (download_file (Demo.single "http://host/a.zip" (sized "22"))
          (Some "http://host/a.zip") "downloads/sub/a.zip" in_downloads).2
  = dirs in_downloads
  /\ files (download_file (Demo.single "http://host/a.zip" (sized "22"))
          (Some "http://host/a.zip") "downloads/sub/a.zip" in_downloads).2
       !! (false, ["a.zip"; "sub"; "downloads"]) = None.
Proof.
  destruct (download_file_touches_only_destination
              (Demo.single "http://host/a.zip" (sized "22"))
              (Some "http://host/a.zip") "downloads/sub/a.zip" in_downloads
              _ _ eq_refl) as [Hd Hf].
  split; [exact Hd|]. rewrite Hf; [reflexivity|]. vm_compute. discriminate.
Defined.

(** ** Exceptions *)

Lemma findall_file root :
  Xml.findall root "ml:file" namespace = Some (file_children root).
Proof. reflexivity. Qed.

Lemma find_url file :
  Xml.find file "ml:url" namespace = Some (url_child file).
Proof. reflexivity. Qed.

Section Raises.
Context {A B : Type}.

Lemma raises_ret E (a : A) : raises_only E (ret a).
Proof. by intros s e s'. Qed.

Lemma raises_raise (E : exn -> Prop) e : E e -> raises_only E (@raise A e).
Proof. by intros He s e' s' [= <- _]. Qed.

Lemma raises_expect (E : exn -> Prop) (o : option A) e :
  E e -> raises_only E (expect o e).
Proof. intros He. destruct o; [apply raises_ret|by apply raises_raise]. Qed.

Lemma raises_bind E (m : M A) (k : A -> M B) :
  raises_only E m -> (forall a, raises_only E (k a)) -> raises_only E (bind m k).
Proof.
  intros Hm Hk s e s' H.
  apply bind_inv in H as [(a & s1 & H1 & H2)|(e' & H1 & [= ->])].
  - by eapply Hk.
  - by eapply Hm.
Qed.

Lemma raises_weaken (E E' : exn -> Prop) (m : M A) :
  (forall e, E e -> E' e) -> raises_only E m -> raises_only E' m.
Proof. intros HE Hm s e s' H. apply HE. by eapply Hm. Qed.
End Raises.

Lemma raises_emit E e : raises_only E (emit e).
Proof. by intros s e' s'. Qed.

Lemma raises_for_each {A} E (l : list A) body :
  (forall x, raises_only E (body x)) -> raises_only E (for_each l body).
Proof.
  intros Hb. induction l as [|x l IH]; simpl; [apply raises_ret|].
  apply raises_bind; auto.
Qed.

(** The element at which a loop raised. *)
Lemma for_each_raise_inv {A} (l : list A) body : forall s e s',
  for_each l body s = (Raise e, s') ->
  exists pre x post s1,
    l = pre ++ x :: post
    /\ for_each pre body s = (Ok tt, s1)
    /\ body x s1 = (Raise e, s').
Proof.
  induction l as [|x l IH]; intros s e s' H; simpl in H; [done|].
  apply bind_inv in H as [([] & s1 & H1 & H2)|(e' & H1 & [= ->])].
  - apply IH in H2 as (pre & y & post & s2 & -> & Hpre & Hy).
    exists (x :: pre), y, post, s2. split; [done|]. split; [|done].
    simpl. by rewrite (bind_ok _ _ _ _ _ H1).
  - by exists [], x, l, s.
Qed.

Lemma raises_mkdirs cs : forall cur, raises_only disk_error (mkdirs cs cur).
Proof.
  induction cs as [|c cs IH]; intros cur; simpl; [apply raises_ret|].
  intros s e s'. destruct (is_file _ _); [by intros [= <- _]|]. apply IH.
Qed.

Lemma raises_makedirs p : raises_only disk_error (makedirs p).
Proof.
  unfold makedirs. destruct (is_empty p); [by apply raises_raise|].
  apply raises_bind; [apply raises_mkdirs|intros; apply raises_ret].
Qed.

Lemma raises_read p : raises_only disk_error (read p).
Proof.
  intros s e s'. unfold read.
  destruct (resolve _ _) as [l|]; [destruct (files s !! l)|]; by intros [= <- _].
Qed.

Lemma raises_copy_to target d : raises_only disk_error (copy_to target d).
Proof.
  intros s e s'. unfold copy_to. destruct (is_dir _ _); [|done].
  by intros [= <- _].
Qed.

Lemma raises_store target c : raises_only member_error (store target c).
Proof.
  destruct c as [d|f|d f]; simpl.
  - eapply raises_weaken; [|apply raises_copy_to]. by left.
  - apply raises_raise. right. right. by exists f.
  - apply raises_bind.
    + eapply raises_weaken; [|apply raises_copy_to]. by left.
    + intros _. apply raises_raise. right. right. by exists f.
Qed.

Lemma raises_extract_member base m :
  raises_only member_error (extract_member base m).
Proof.
  unfold extract_member. destruct (endswith _ _).
  { apply raises_bind; [|intros; apply raises_ret].
    eapply raises_weaken; [|apply raises_mkdirs]. by left. }
  destruct (split_last _) as [[upper name]|].
  - apply raises_bind; [|intros; apply raises_store].
    eapply raises_weaken; [|apply raises_mkdirs]. by left.
  - destruct (is_empty _); [|apply raises_store].
    apply raises_raise. right. by left.
Qed.

Section DatasetRaises.
Variable w : world.

Lemma raises_download_file url p :
  raises_only download_error (download_file w url p).
Proof.
  intros s e s'. rewrite download_file_eq. unfold download_outcome, download_error.
  destruct url as [u|]; [|intros [= <- _]; auto].
  destruct (http w u) as [r|]; [|intros [= <- _]; auto].
  destruct (declared_size r) as [t|]; [|intros [= <- _]; auto].
  destruct (resolve (dirs s) p) as [l|]; [|intros [= <- _]; auto].
  destruct (is_dir (dirs s) l); [intros [= <- _]; auto|].
  destruct (fits_float t); [|intros [= <- _]; auto 6].
  destruct (complete r); [done|]. intros [= <- _]; auto.
Qed.

Lemma raises_extract_zip p d : raises_only extract_error (extract_zip w p d).
Proof.
  unfold extract_zip, extract_error.
  apply raises_bind.
  { eapply raises_weaken; [|apply raises_makedirs]. intros e ->. right. by left. }
  intros _. apply raises_bind.
  { eapply raises_weaken; [|apply raises_read]. intros e ->. right. by left. }
  intros b. apply raises_bind; [apply raises_expect; by left|].
  intros ms. apply raises_bind.
  { apply raises_for_each. intros m.
    eapply raises_weaken; [|apply raises_extract_member]. intros e He. by right. }
  intros _. apply raises_bind; [apply raises_emit|intros; apply raises_emit].
Qed.
End DatasetRaises.

(** ** Failures of [extract_zip] and of the loop body *)

Section Entries.
Variable w : world.

(** X5. When [extract_zip] raises, it has printed nothing. When the
    file at [zip_path] is no archive, no file has changed, the
    exception is BadZipFile or, if the folder could not be made,
    OSError, and on BadZipFile the folder has been made all the same.
    When a file has changed, the archive was opened and the
    extraction has stopped at one of its members: the folder exists,
    and the file members before that one stay extracted, each at its
    place with its data, unless a member after it, up to the one where
    the extraction stopped, has the same extracted name. *)
Theorem extract_zip_failure_modes p d s e s' :
  extract_zip w p d s = (Raise e, s') ->
  out s' = out s
  /\ (forall l b,
        resolve (dirs s') p = Some l ->
        files s !! l = Some b ->
        unzip w b = None ->
        files s' = files s
        /\ (e = BadZipFile \/ e = OSError)
        /\ (e = BadZipFile -> folder_present (extract_to p d) s'))
  /\ (files s' <> files s ->
      exists l b pre m post,
        resolve (dirs s') p = Some l
        /\ files s !! l = Some b
        /\ unzip w b = Some (pre ++ m :: post)
        /\ folder_present (extract_to p d) s'
        /\ forall i m0 j,
             pre = i ++ m0 :: j ->
             endswith sep m0.1 = false ->
             (forall m', m' ∈ j ++ [m] -> endswith sep m'.1 = false ->
                arcname m'.1 <> arcname m0.1) ->
             exists data,
               m0.2 = Data data
               /\ files s' !! target (lexloc (extract_to p d)) m0 = Some data).
Proof.
  intros H. split; [|].
  { rewrite (extract_zip_out _ _ _ _ _ _ H). apply app_nil_r. }
  unfold extract_zip in H.
  apply bind_inv in H as [([] & s1 & H1 & H)|(e' & H1 & [= <-])].
  2:{ pose proof (makedirs_files _ _ _ _ H1) as Hf.
      apply raises_makedirs in H1 as ->.
      split; [intros l b _ _ _; split; [done|]; split; [by right|done]|done]. }
  destruct (makedirs_ok _ _ _ H1) as (Hf & _ & Hin & _).
  apply bind_inv in H as [(bx & s2 & H2 & H)|(e' & H2 & [= <-])].
  2:{ pose proof (read_same _ _ _ _ H2) as ->.
      apply raises_read in H2 as ->.
      split; [intros l b _ _ _; split; [done|]; split; [by right|done]|done]. }
  unfold read in H2. destruct (resolve (dirs s1) p) as [l0|] eqn:Hl; [|done].
  destruct (files s1 !! l0) as [b0|] eqn:Hb; [|done]. injection H2 as <- <-.
  rewrite Hf in Hb.
  apply bind_inv in H as [(ms & s3 & H3 & H)|(e' & H3 & [= <-])].
  2:{ destruct (unzip w b0) eqn:Hu; [done|]. injection H3 as <- <-.
      split; [intros l b _ _ _; split; [done|]; split; [by left|done]|done]. }
  destruct (unzip w b0) as [ms'|] eqn:Hu; [|done]. injection H3 as <- <-.
  apply bind_inv in H as [([] & s4 & H4 & H)|(e' & H4 & [= <-])]; [done|].
  pose proof (grows_for_each ms' _ (grows_extract_member _) _ _ _ H4)
    as [[_ Hd] _].
  pose proof (resolve_mono _ _ _ _ Hd Hl) as Hl'.
  split.
  { intros l b Hlb Hbb Hn. rewrite Hl' in Hlb. injection Hlb as <-.
    rewrite Hb in Hbb. injection Hbb as <-. congruence. }
  intros _. apply for_each_raise_inv in H4
    as (pre & m & post & s5 & -> & Hpre & Hm).
  exists l0, b0, pre, m, post. split; [done|]. split; [done|]. split; [done|].
  split; [by apply Hd|].
  intros i m0 j -> Hfile Hlater.
  destruct (extractall_member _ i m0 j _ _ Hpre Hfile) as (data & Hdata & Hat).
  { intros m' Hm'. apply Hlater. apply elem_of_app. by left. }
  exists data. split; [done|].
  rewrite (extract_member_other _ _ _ _ _ _ Hm); [done|].
  intros Hmf E. apply (Hlater m); [apply elem_of_app; right; by left|done|].
  unfold target in E. injection E as E. apply app_inv_tail in E.
  apply (f_equal (@rev string)) in E. by rewrite !rev_involutive in E.
Qed.

Lemma process_invalid file s :
  entry_of file = None -> process w file s = (Raise (entry_error file), s).
Proof.
  unfold entry_of, process, entry_error. rewrite find_url.
  destruct (url_child file) as [ue|]; [|done].
  destruct (Xml.get file "name") as [n|]; [|done].
  unfold bind at 1 2 3. simpl. by destruct (Xml.text ue).
Qed.

(** X6. A file element that lacks a url element, a name, or the text
    of its url makes the loop body raise AttributeError, TypeError or
    RequestException, in that order of precedence, with nothing
    changed. The run raises it when the loop reaches the element: the
    manifest is not checked beforehand, and the entries before it have
    been processed. *)
Theorem invalid_entry_found_when_reached file :
  entry_of file = None ->
  (forall s, process w file s = (Raise (entry_error file), s))
  /\ (forall root pre post s s0 s1,
        manifest w = Some root ->
        file_children root = pre ++ file :: post ->
        base_folders s = (Ok tt, s0) ->
        for_each pre (process w) s0 = (Ok tt, s1) ->
        main w s = (Raise (entry_error file), s1)).
Proof.
  intros He. split; [intros s; by apply process_invalid|].
  intros root pre post s s0 s1 Hm Hf Hb Hpre.
  eapply main_abort; [done| |done|done|by apply process_invalid].
  by rewrite findall_file, Hf.
Qed.

(** What the loop body can raise, and why. *)
Lemma process_raise_inv file s e s' :
  process w file s = (Raise e, s') ->
  (e = AttributeError /\ url_child file = None)
  \/ (e = TypeError /\ Xml.get file "name" = None)
  \/ download_error e \/ extract_error e.
Proof.
  unfold process. rewrite find_url. unfold bind at 1. simpl.
  destruct (url_child file) as [ue|]; [|intros [= <- _]; by left].
  unfold bind at 1. simpl.
  destruct (Xml.get file "name") as [n|]; [|intros [= <- _]; right; by left].
  unfold bind at 1. simpl. intros H.
  apply bind_inv in H as [([] & s1 & H1 & H2)|(e' & H1 & [= ->])].
  - do 3 right. by eapply raises_extract_zip.
  - do 2 right. left. by eapply raises_download_file.
Qed.

(** X7. What a run raises: never SyntaxError; ParseError only when
    the manifest is there and is not well-formed, and then nothing has
    changed; AttributeError only when a file element has no url
    element; TypeError only when a file element has no name. *)
Theorem main_exceptions s e s' :
  main w s = (Raise e, s') ->
  e <> SyntaxError
  /\ (e = ParseError -> meta4 w = Malformed /\ manifest w = None /\ s' = s)
  /\ (e = AttributeError ->
      exists root f, manifest w = Some root /\ f ∈ file_children root
        /\ url_child f = None)
  /\ (e = TypeError ->
      exists root f, manifest w = Some root /\ f ∈ file_children root
        /\ Xml.get f "name" = None).
Proof.
  unfold main, parse, manifest. destruct (meta4 w) as [| |root].
  1,2: intros [= <- <-]; repeat split; done.
  unfold bind at 1. simpl. intros H.
  assert (Hcases : e = OSError
            \/ exists f s1 s2, f ∈ file_children root
                 /\ process w f s1 = (Raise e, s2)).
  { apply bind_inv in H as [([] & s1 & H1 & H)|(e' & H1 & [= ->])];
      [|left; by apply raises_makedirs in H1].
    apply bind_inv in H as [([] & s2 & H2 & H)|(e' & H2 & [= ->])];
      [|left; by apply raises_makedirs in H2].
    rewrite findall_file in H. unfold bind at 1 in H. simpl in H.
    apply bind_inv in H as [([] & s3 & H3 & H)|(e' & H3 & [= ->])]; [done|].
    apply for_each_raise_inv in H3 as (pre & f & post & s4 & Hl & _ & Hf).
    right. exists f, s4, s'. split; [|done]. rewrite Hl.
    apply elem_of_app. right. by left. }
  destruct Hcases as [->|(f & s1 & s2 & Hin & Hf)]; [repeat split; done|].
  apply process_raise_inv in Hf
    as [[-> Hu]|[[-> Hn]|[[->|[->|[->| ->]]]|[->|[->|[->|[ft ->]]]]]]];
    try destruct ft;
    repeat split; try done; intros _; by exists root, f.
Qed.
End Entries.

Lemma extract_zip_failure_modes_witness :
  exists s',
    extract_zip bad_second_member "downloads/x.zip" "data" one_artifact
    = (Raise BadZipFile, s')
    /\ files s' !! (false, ["a.txt"; "x"; "data"]) = Some [x68; x69]
    /\ files s' !! (false, ["b.txt"; "sub"; "x"; "data"]) = Some []
    /\ files s' !! (false, ["c.txt"; "x"; "data"]) = None.
Proof.
  pose proof (outcome_eta
                (extract_zip bad_second_member "downloads/x.zip" "data" one_artifact)
                (Raise BadZipFile) ltac:(vm_compute; reflexivity)) as H.
  destruct (extract_zip_failure_modes _ _ _ _ _ _ H) as (_ & _ & Hsome).
  destruct Hsome as (l & b & pre & m & post & _ & _ & _ & _ & _).
  { intros E.
    apply (f_equal (fun f : gmap loc bytes => f !! (false, ["a.txt"; "x"; "data"])))
      in E.
    vm_compute in E. discriminate E. }
  eexists. split; [exact H|]. split; [|split]; vm_compute; reflexivity.
Defined.

Lemma invalid_entry_found_when_reached_witness :
  exists s1,
    main second_without_url Demo.fresh = (Raise AttributeError, s1)
    /\ for_each [Demo.file_element "a.zip" "http://host/a.zip"]
         (process second_without_url) (base_folders Demo.fresh).2 = (Ok tt, s1).
Proof.
  pose (fa := Demo.file_element "a.zip" "http://host/a.zip").
  pose (fb := Xml.Element file_tag {[ "name" := "b.zip" ]} None []).
  pose proof (outcome_eta (base_folders Demo.fresh) (Ok tt)
                ltac:(vm_compute; reflexivity)) as H0.
  pose proof (outcome_eta
                (for_each [fa] (process second_without_url)
                   (base_folders Demo.fresh).2) (Ok tt)
                ltac:(vm_compute; reflexivity)) as H1.
  pose proof (proj2 (invalid_entry_found_when_reached second_without_url fb eq_refl)
                (Demo.metalink [fa; fb]) [fa] [] Demo.fresh _ _
                eq_refl eq_refl H0 H1) as H.
  eexists. split; [exact H|exact H1].
Defined.

Lemma main_exceptions_witness :
  exists f, f ∈ file_children
                  (Demo.metalink
                     [Demo.file_element "a.zip" "http://host/a.zip";
                      Xml.Element file_tag {[ "name" := "b.zip" ]} None []])
    /\ url_child f = None.
Proof.
  pose proof (outcome_eta (main second_without_url Demo.fresh)
                (Raise AttributeError) ltac:(vm_compute; reflexivity)) as H.
  destruct (main_exceptions second_without_url Demo.fresh AttributeError _ H)
    as (_ & _ & Hattr & _).
  destruct (Hattr eq_refl) as (root & f & Hm & Hin & Hu).
  injection Hm as <-. exists f. split; [exact Hin|exact Hu].
Defined.

(** ** What a run reads of the manifest *)

Lemma process_world m m' h z file s :
  process (World m h z) file s = process (World m' h z) file s.
Proof. reflexivity. Qed.

(** X8. A run depends on the manifest through the file elements
    directly under the root only: two manifests with the same ones give
    the same run, whatever else they hold. *)
Theorem run_reads_only_file_children root root' h z s :
  file_children root = file_children root' ->
  main (World (Parsed root) h z) s = main (World (Parsed root') h z) s.
Proof.
  intros Hf. unfold main, parse. simpl meta4. unfold bind. simpl.
  destruct (makedirs "downloads" s) as [[[]|e] s1]; [|done].
  destruct (makedirs "data" s1) as [[[]|e] s2]; [|done].
  rewrite !findall_file, Hf. simpl.
  by rewrite (for_each_ext (file_children root') _ _
                (process_world (Parsed root) (Parsed root') h z) s2).
Qed.

Lemma run_reads_only_file_children_witness :
  main with_more Demo.fresh
  = main (World (Parsed (Demo.metalink
                         [Xml.Element file_tag {[ "name" := "a.zip" ]} None
                            [Demo.url_element "http://host/a.zip";
                             Demo.url_element "http://mirror/a.zip"];
                          Demo.file_element "b.zip" "http://host/b.zip"]))
            (http Demo.two_entries) Demo.zip_table) Demo.fresh.
Proof.
  apply run_reads_only_file_children. vm_compute. reflexivity.
Defined.

Section FirstUrl.
Variable w : world.

Lemma process_requests file s r s' :
  process w file s = (r, s') ->
  exists t, out s' = out s ++ t /\ (length (List.filter is_get t) <= 1)%nat.
Proof.
  destruct (entry_of file) as [e|] eqn:He.
  - intros H. apply (process_trace w _ _ _ _ _ He) in H as (t & Ho & [k Hk] & _).
    exists t. split; [done|].
    rewrite <- (filter_ops is_get) by (by intros []).
    apply (f_equal (fun l => length (List.filter is_get l))) in Hk.
    rewrite List.filter_app, length_app in Hk. simpl in Hk. lia.
  - rewrite process_invalid by done. intros [= <- <-]. exists [].
    rewrite app_nil_r. split; [done|]. simpl. lia.
Qed.

(** X9. The loop body reads the name of a file element and the text
    of its first url element, nothing else of it: two elements that
    agree on these are processed alike. It makes at most one request. *)
Theorem process_reads_first_url :
  (forall f f' s,
     Xml.get f "name" = Xml.get f' "name" ->
     Xml.text <$> url_child f = Xml.text <$> url_child f' ->
     process w f s = process w f' s)
  /\ (forall file s r s',
        process w file s = (r, s') ->
        exists t, out s' = out s ++ t
          /\ (length (List.filter is_get t) <= 1)%nat).
Proof.
  split; [|apply process_requests].
  intros f f' s Hn Hu. unfold process. rewrite !find_url, Hn.
  destruct (url_child f) as [ue|], (url_child f') as [ue'|]; try done.
  injection Hu as Hu. unfold bind at 1 2 4 5. simpl. by rewrite Hu.
Qed.
End FirstUrl.

Lemma process_reads_first_url_witness :
  process Demo.two_entries
    (Xml.Element file_tag {[ "name" := "a.zip" ]} None
       [Demo.url_element "http://host/a.zip";
        Demo.url_element "http://mirror/a.zip"]) Demo.fresh
  = process Demo.two_entries
      (Demo.file_element "a.zip" "http://host/a.zip") Demo.fresh.
Proof.
  apply (proj1 (process_reads_first_url Demo.two_entries)).
  - vm_compute. reflexivity.
  - vm_compute. reflexivity.
Defined.

(** ** Plain names *)

Lemma has_app c (a b : string) : has c (a +:+ b) = has c a || has c b.
Proof.
  induction a as [|x a IH]; [done|]. rewrite app_cons. simpl.
  by rewrite IH, orb_assoc.
Qed.

Lemma split_no_sep n : has sep n = false -> split n = [n].
Proof.
  induction n as [|a r IH]; [done|]. simpl. intros H.
  apply orb_false_iff in H as [Ha Hr]. by rewrite Ha, IH.
Qed.

Lemma startswith_no_sep n : has sep n = false -> startswith sep n = false.
Proof. destruct n as [|a r]; [done|]. simpl. by intros [? _]%orb_false_iff. Qed.

Lemma plain_inv n : plain n = true -> has sep n = false /\ valid_part n = true.
Proof.
  unfold plain. intros [H1 H2]%andb_true_iff. by apply negb_true_iff in H1.
Qed.

Lemma enter_valid c cur : valid_part c = true -> enter c cur = push c cur.
Proof.
  unfold valid_part, enter. intros H. apply negb_true_iff in H.
  apply orb_false_iff in H as [H1 H3]. by rewrite H1, H3.
Qed.

Lemma not_valid_all_dots s : valid_part s = false -> all_dots s = true.
Proof.
  unfold valid_part. intros H. apply negb_false_iff in H.
  apply orb_true_iff in H as [H|H]; [apply orb_true_iff in H as [H|H]|];
    apply String.eqb_eq in H; by subst.
Qed.

Lemma split_file_path n :
  has sep n = false -> split (file_path n) = ["downloads"; n].
Proof.
  intros H. rewrite file_path_relative by (by apply startswith_no_sep).
  change ("downloads/" +:+ n) with ("downloads" +:+ String sep n).
  rewrite split_cons_sep by reflexivity. by rewrite split_no_sep.
Qed.

Lemma resolve_plain d n l :
  plain n = true -> resolve d (file_path n) = Some l -> l = artifact n.
Proof.
  intros [Hs Hv]%plain_inv. unfold resolve. rewrite split_file_path by done.
  rewrite file_path_relative by (by apply startswith_no_sep). simpl.
  destruct (is_dir d _); [|done].
  unfold valid_part in Hv. apply negb_true_iff in Hv. rewrite Hv.
  by intros [= <-].
Qed.

Lemma basename_file_path n : has sep n = false -> basename (file_path n) = n.
Proof.
  intros H. rewrite file_path_relative by (by apply startswith_no_sep).
  change ("downloads/" +:+ n) with ("downloads" +:+ String sep n).
  by apply basename_last.
Qed.

Lemma zip_name_plain n : plain n = true -> plain (zip_name (file_path n)) = true.
Proof.
  intros Hp. pose proof Hp as [Hs Hv]%plain_inv.
  unfold zip_name. rewrite basename_file_path by done.
  destruct (has extsep n) eqn:Hd; [|by rewrite splitext_no_dot].
  apply has_last in Hd as (stem & ext & -> & He).
  rewrite splitext_last_dot by done.
  destruct (all_dots stem) eqn:Ha; [done|]. simpl.
  rewrite has_app in Hs. apply orb_false_iff in Hs as [Hs _].
  unfold plain. rewrite Hs. simpl.
  destruct (valid_part stem) eqn:Hvs; [done|].
  apply not_valid_all_dots in Hvs. congruence.
Qed.

Lemma split_extract_to n :
  plain n = true ->
  split (extract_to (file_path n) "data") = ["data"; zip_name (file_path n)]
  /\ start (extract_to (file_path n) "data") = (false, []).
Proof.
  intros Hp. apply zip_name_plain in Hp. apply plain_inv in Hp as [Hs _].
  assert (E : extract_to (file_path n) "data"
              = "data" +:+ String sep (zip_name (file_path n))).
  { unfold extract_to, join. by rewrite startswith_no_sep. }
  rewrite E. split; [|reflexivity].
  rewrite split_cons_sep by reflexivity. by rewrite split_no_sep.
Qed.

Lemma lexloc_extract_to n :
  plain n = true ->
  lexloc (extract_to (file_path n) "data")
  = (false, [zip_name (file_path n); "data"]).
Proof.
  intros Hp. destruct (split_extract_to n Hp) as [Hsp Hst].
  unfold lexloc. rewrite Hsp, Hst. simpl.
  apply zip_name_plain in Hp. apply plain_inv in Hp as [_ Hv].
  by rewrite enter_valid.
Qed.

Lemma under_below root b l : under root b -> below b l -> under root l.
Proof.
  intros [Hb1 Hb2] (pre & _ & ->). split; [done|]. simpl.
  destruct b as [a [|c t]]; [done|]. simpl in *.
  by rewrite last_app, Hb2.
Qed.

(** ** Where an action changes the disk *)

Lemma changes_same F D s s' :
  files s' = files s -> dirs s' = dirs s -> changes F D s s'.
Proof. intros Hf Hd. split; intros l; rewrite ?Hf, ?Hd; [done|by left]. Qed.

Lemma changes_trans F D s s1 s2 :
  changes F D s s1 -> changes F D s1 s2 -> changes F D s s2.
Proof.
  intros [Hf1 Hd1] [Hf2 Hd2]. split.
  - intros l Hl. destruct (decide (files s2 !! l = files s1 !! l)) as [E|E].
    + apply Hf1. by rewrite <- E.
    + by apply Hf2.
  - intros l Hl. destruct (Hd2 l Hl) as [H|H]; [by apply Hd1|by right].
Qed.

Lemma changes_weaken (F F' D D' : loc -> Prop) s s' :
  (forall l, F l -> F' l) -> (forall l, D l -> D' l) ->
  changes F D s s' -> changes F' D' s s'.
Proof.
  intros HF HD [Hf Hd]. split; [by auto|].
  intros l Hl. destruct (Hd l Hl); [by left|right; by auto].
Qed.

Section Confined.
Context {A B : Type}.
Variables F D : loc -> Prop.

Lemma confined_ret (a : A) : confined F D (ret a).
Proof. intros s r s' [= <- <-]. by apply changes_same. Qed.

Lemma confined_raise e : confined F D (@raise A e).
Proof. intros s r s' [= <- <-]. by apply changes_same. Qed.

Lemma confined_bind (m : M A) (k : A -> M B) :
  confined F D m -> (forall a, confined F D (k a)) -> confined F D (bind m k).
Proof.
  intros Hm Hk s r s' H.
  apply bind_inv in H as [(a & s1 & H1 & H2)|(e & H1 & ->)].
  - eapply changes_trans; [by eapply Hm|by eapply Hk].
  - by eapply Hm.
Qed.
End Confined.

Lemma confined_emit F D e : confined F D (emit e).
Proof. intros s r s' [= <- <-]. by apply changes_same. Qed.

Lemma confined_weaken {A} (F F' D D' : loc -> Prop) (m : M A) :
  (forall l, F l -> F' l) -> (forall l, D l -> D' l) ->
  confined F D m -> confined F' D' m.
Proof. intros HF HD Hm s r s' H. eapply changes_weaken; [done..|by eapply Hm]. Qed.

Lemma confined_for_each {A} F D (l : list A) body :
  (forall x, x ∈ l -> confined F D (body x)) -> confined F D (for_each l body).
Proof.
  induction l as [|x l IH]; intros Hb; simpl; [apply confined_ret|].
  apply confined_bind; [apply Hb; by left|].
  intros _. apply IH. intros y Hy. apply Hb. by right.
Qed.

Lemma confined_mkdirs cs : forall cur,
  Forall (fun c => valid_part c = true) cs ->
  confined (fun _ => False) (below cur) (mkdirs cs cur).
Proof.
  induction cs as [|c cs IH]; intros cur Hv; simpl; [apply confined_ret|].
  inversion Hv as [|? ? Hc Hcs]; subst. rewrite enter_valid by done.
  intros s r s'. destruct (is_file _ _); [intros [= <- <-]; by apply changes_same|].
  intros H. apply (IH _ Hcs) in H as [Hf Hd]. split; [exact Hf|].
  intros l Hl. destruct (Hd l Hl) as [Hin|(pre & Hpre & ->)].
  - simpl in Hin. apply elem_of_union in Hin as [Hin|Hin]; [|by left].
    apply elem_of_singleton in Hin as ->. right. by exists [c].
  - right. exists (pre ++ [c]). split; [by destruct pre|].
    simpl. by rewrite <- app_assoc.
Qed.

Lemma is_dir_elem (d : gset loc) l : l ∈ d -> is_dir d l = true.
Proof.
  intros H. unfold is_dir. apply orb_true_iff. right. by apply bool_decide_eq_true.
Qed.

Lemma copy_to_changes target d s r s' :
  copy_to target d s = (r, s') ->
  changes (fun l => l = target) (fun _ => False) s s'.
Proof.
  unfold copy_to. destruct (is_dir _ _); intros [= <- <-];
    [by apply changes_same|].
  split; [|by left]. intros l Hl. simpl in Hl.
  destruct (decide (l = target)) as [->|Hne]; [done|].
  by rewrite lookup_insert_ne in Hl.
Qed.

Lemma store_changes target c s r s' :
  store target c s = (r, s') ->
  changes (fun l => l = target) (fun _ => False) s s'.
Proof.
  destruct c as [d|f|d f]; simpl.
  - apply copy_to_changes.
  - intros [= <- <-]. by apply changes_same.
  - intros H. apply bind_inv in H as [([] & s1 & H1 & H2)|(e & H1 & _)].
    + injection H2 as _ <-. by eapply copy_to_changes.
    + by eapply copy_to_changes.
Qed.

(** A file entry without a proper name has the folder itself as its
    target, which is a directory: nothing is written. *)
Lemma store_at_dir target c s r s' :
  is_dir (dirs s) target = true ->
  store target c s = (r, s') -> files s' = files s /\ dirs s' = dirs s.
Proof.
  intros Hd. destruct c as [d|f|d f]; simpl; unfold bind, copy_to;
    rewrite ?Hd; by intros [= <- <-].
Qed.

(** Where the extraction of a member into a folder that is there
    changes the disk. *)
Lemma extract_member_changes base m s r s' :
  is_dir (dirs s) base = true ->
  extract_member base m s = (r, s') ->
  changes (below base) (below base) s s'.
Proof.
  intros Hbase. unfold extract_member. pose proof (arcname_valid m.1) as Hv.
  destruct (endswith _ _).
  { intros H. apply bind_inv in H as [(l & s1 & H1 & H2)|(e & H1 & ->)].
    - injection H2 as _ <-.
      eapply changes_weaken; [| |by eapply (confined_mkdirs _ base Hv)];
        [done|done].
    - eapply changes_weaken; [| |by eapply (confined_mkdirs _ base Hv)];
        [done|done]. }
  destruct (split_last _) as [[upper name]|] eqn:Hsl.
  - apply split_last_app in Hsl. rewrite Hsl in Hv.
    apply Forall_app in Hv as [Hup _].
    intros H. apply bind_inv in H as [(d & s1 & H1 & H2)|(e & H1 & ->)].
    + pose proof (mkdirs_reaches _ _ _ _ _ H1) as Hd.
      rewrite foldl_enter_valid in Hd by done.
      eapply changes_trans.
      { eapply changes_weaken; [| |by eapply (confined_mkdirs upper base Hup)];
          [done|done]. }
      eapply changes_weaken; [| |by eapply store_changes]; [|done].
      intros l ->. exists (name :: rev upper). split; [done|]. by rewrite Hd.
    + eapply changes_weaken; [| |by eapply (confined_mkdirs upper base Hup)];
        [done|done].
  - destruct (is_empty _); [intros [= <- <-]; by apply changes_same|].
    intros H. apply (store_at_dir _ _ _ _ _ Hbase) in H as [Hf Hd].
    by apply changes_same.
Qed.

Lemma extractall_changes base ms : forall s r s',
  is_dir (dirs s) base = true ->
  for_each ms (extract_member base) s = (r, s') ->
  changes (below base) (below base) s s'.
Proof.
  induction ms as [|m ms IH]; intros s r s' Hbase H; simpl in H.
  - injection H as <- <-. by apply changes_same.
  - apply bind_inv in H as [([] & s1 & H1 & H2)|(e & H1 & ->)].
    + eapply changes_trans; [by eapply extract_member_changes|].
      eapply IH; [|done].
      pose proof (grows_extract_member _ _ _ _ _ H1) as [[_ Hd] _].
      by eapply is_dir_mono.
    + by eapply extract_member_changes.
Qed.

Section Extraction.
Variable w : world.

(** X10. Whatever the names of the members of an archive,
    [extract_zip] creates or changes files only below the folder it
    extracts to, whatever its outcome. *)
Theorem extraction_stays_in_folder p d s r s' :
  extract_zip w p d s = (r, s') ->
  forall l, files s' !! l <> files s !! l -> below (lexloc (extract_to p d)) l.
Proof.
  unfold extract_zip. intros H l Hl.
  apply bind_inv in H as [([] & s1 & H1 & H)|(e & H1 & ->)];
    [|by rewrite (makedirs_files _ _ _ _ H1) in Hl].
  rewrite <- (makedirs_files _ _ _ _ H1) in Hl.
  destruct (makedirs_ok _ _ _ H1) as (_ & _ & Hin & _).
  apply is_dir_elem in Hin.
  apply bind_inv in H as [(b & s2 & H2 & H)|(e & H2 & ->)];
    [|by rewrite (read_same _ _ _ _ H2) in Hl].
  apply read_same in H2 as ->.
  apply bind_inv in H as [(ms & s3 & H3 & H)|(e & H3 & ->)].
  2:{ destruct (unzip w b); [done|]. injection H3 as _ <-. done. }
  destruct (unzip w b) as [ms'|]; [|done]. injection H3 as <- <-.
  apply bind_inv in H as [([] & s4 & H4 & H)|(e & H4 & ->)].
  - unfold bind, emit in H. simpl in H. injection H as _ <-. simpl in Hl.
    destruct (extractall_changes _ _ _ _ _ Hin H4) as [Hf _]. by apply Hf.
  - destruct (extractall_changes _ _ _ _ _ Hin H4) as [Hf _]. by apply Hf.
Qed.
End Extraction.

Lemma extraction_stays_in_folder_witness :
  files (extract_zip climbing_member "downloads/x.zip" "data" one_artifact).2
    !! (false, ["passwd"; "etc"; "x"; "data"]) = Some [x41]
  /\ below (lexloc (extract_to "downloads/x.zip" "data"))
       (false, ["passwd"; "etc"; "x"; "data"]).
Proof.
  split; [vm_compute; reflexivity|].
  apply (extraction_stays_in_folder climbing_member "downloads/x.zip" "data"
           one_artifact _ _ (surjective_pairing _)).
  vm_compute. discriminate.
Defined.

(** ** Plain names keep a run inside [downloads] and [data] *)

Lemma under_at_or_below root b l :
  under root b -> at_or_below b l -> under root l.
Proof. intros Hb [->|Hl]; [done|by eapply under_below]. Qed.

Lemma confined_mkdirs_cons c cs cur :
  Forall (fun c => valid_part c = true) (c :: cs) ->
  confined (fun _ => False) (at_or_below (push c cur)) (mkdirs (c :: cs) cur).
Proof.
  intros Hv. inversion Hv as [|? ? Hc Hcs]; subst. simpl.
  rewrite enter_valid by done. intros s r s'.
  destruct (is_file _ _); [intros [= <- <-]; by apply changes_same|].
  intros H. apply (confined_mkdirs _ _ Hcs) in H as [Hf Hd]. split; [exact Hf|].
  intros l Hl. destruct (Hd l Hl) as [Hin|Hb]; [|right; by right].
  simpl in Hin. apply elem_of_union in Hin as [Hin|Hin]; [|by left].
  apply elem_of_singleton in Hin as ->. right. by left.
Qed.

Lemma confined_makedirs p c cs :
  split p = c :: cs ->
  Forall (fun c => valid_part c = true) (c :: cs) ->
  confined (fun _ => False) (at_or_below (push c (start p))) (makedirs p).
Proof.
  intros Hs Hv. unfold makedirs. destruct (is_empty p); [apply confined_raise|].
  rewrite Hs. apply confined_bind; [by apply confined_mkdirs_cons|].
  intros; apply confined_ret.
Qed.

Lemma confined_makedirs_downloads :
  confined in_base_folders in_base_folders (makedirs "downloads").
Proof.
  eapply confined_weaken;
    [| |apply (confined_makedirs "downloads" "downloads" [])];
    [done| |reflexivity|by repeat constructor].
  intros l Hl. left. by eapply under_at_or_below; [|exact Hl].
Qed.

Lemma confined_makedirs_data :
  confined in_base_folders in_base_folders (makedirs "data").
Proof.
  eapply confined_weaken;
    [| |apply (confined_makedirs "data" "data" [])];
    [done| |reflexivity|by repeat constructor].
  intros l Hl. right. by eapply under_at_or_below; [|exact Hl].
Qed.

Lemma artifact_inj n n' : artifact n = artifact n' -> n = n'.
Proof. by intros [= ->]. Qed.

Section PlainNames.
Variable w : world.

Lemma confined_download_file url p :
  confined (fun l => exists d, resolve d p = Some l) (fun _ => False)
    (download_file w url p).
Proof.
  intros s r s'. rewrite download_file_eq. unfold download_outcome.
  destruct url as [u|]; [|intros [= <- <-]; by apply changes_same].
  destruct (http w u) as [rs|]; [|intros [= <- <-]; by apply changes_same].
  destruct (declared_size rs) as [t|]; [|intros [= <- <-]; by apply changes_same].
  destruct (resolve (dirs s) p) as [l|] eqn:Hl;
    [|intros [= <- <-]; by apply changes_same].
  destruct (is_dir (dirs s) l); [intros [= <- <-]; by apply changes_same|].
  destruct (fits_float t); intros [= <- <-];
    (split; [|by left]; intros l' Hne; simpl in Hne;
     destruct (decide (l' = l)) as [->|Hd]; [by exists (dirs s)|];
     by rewrite lookup_insert_ne in Hne).
Qed.

Lemma confined_download_plain url n :
  plain n = true ->
  confined (fun l => l = artifact n) (fun _ => False)
    (download_file w url (file_path n)).
Proof.
  intros Hp. eapply confined_weaken; [| |apply confined_download_file]; [|done].
  intros l [d Hl]. by eapply resolve_plain.
Qed.

(** Where [extract_zip] changes the disk: files below the folder it
    extracts to, directories on the way to that folder and below it. *)
Lemma confined_extract_zip p d c cs :
  split (extract_to p d) = c :: cs ->
  Forall (fun c => valid_part c = true) (c :: cs) ->
  confined (below (lexloc (extract_to p d)))
    (fun l => at_or_below (push c (start (extract_to p d))) l
              \/ below (lexloc (extract_to p d)) l)
    (extract_zip w p d).
Proof.
  intros Hs Hv s r s' H. unfold extract_zip in H.
  apply bind_inv in H as [([] & s1 & H1 & H)|(e & H1 & ->)].
  2:{ eapply changes_weaken; [| |by eapply (confined_makedirs _ c cs Hs Hv)];
        [done|by left]. }
  eapply changes_trans.
  { eapply changes_weaken; [| |by eapply (confined_makedirs _ c cs Hs Hv)];
      [done|by left]. }
  destruct (makedirs_ok _ _ _ H1) as (_ & _ & Hin & _).
  apply is_dir_elem in Hin.
  apply bind_inv in H as [(b & s2 & H2 & H)|(e & H2 & ->)];
    [|apply read_same in H2 as ->; by apply changes_same].
  apply read_same in H2 as ->.
  apply bind_inv in H as [(ms & s3 & H3 & H)|(e & H3 & ->)].
  2:{ destruct (unzip w b); [done|]. injection H3 as _ <-. by apply changes_same. }
  destruct (unzip w b) as [ms'|]; [|done]. injection H3 as <- <-.
  assert (Hx : forall t r', for_each ms' (extract_member
                 (lexloc (extract_to p d))) s1 = (r', t) ->
               changes (below (lexloc (extract_to p d)))
                 (fun l => at_or_below (push c (start (extract_to p d))) l
                           \/ below (lexloc (extract_to p d)) l) s1 t).
  { intros t r' Ht. eapply changes_weaken;
      [| |by eapply extractall_changes]; [done|by right]. }
  apply bind_inv in H as [([] & s4 & H4 & H)|(e & H4 & ->)].
  - unfold bind, emit in H. simpl in H. injection H as _ <-.
    exact (Hx _ _ H4).
  - exact (Hx _ _ H4).
Qed.

Lemma confined_extract_zip_plain n :
  plain n = true ->
  confined (under "data") (under "data") (extract_zip w (file_path n) "data").
Proof.
  intros Hp. destruct (split_extract_to n Hp) as [Hsp Hst].
  pose proof (zip_name_plain n Hp) as [_ Hz]%plain_inv.
  assert (Hb : under "data" (lexloc (extract_to (file_path n) "data")))
    by (by rewrite lexloc_extract_to).
  eapply confined_weaken;
    [| |apply (confined_extract_zip _ _ "data" [zip_name (file_path n)] Hsp)].
  - intros l Hl. by eapply under_below.
  - intros l [Hl|Hl]; [|by eapply under_below].
    eapply under_at_or_below; [|exact Hl]. by rewrite Hst.
  - by repeat constructor.
Qed.

Lemma confined_process_plain file :
  (forall n, Xml.get file "name" = Some n -> plain n = true) ->
  confined in_base_folders in_base_folders (process w file).
Proof.
  intros Hn. unfold process. rewrite find_url. unfold bind at 1. simpl.
  destruct (url_child file) as [ue|]; [|apply confined_raise].
  unfold bind at 1. simpl.
  destruct (Xml.get file "name") as [n|]; [|apply confined_raise].
  unfold bind at 1. simpl. specialize (Hn n eq_refl).
  apply confined_bind.
  - eapply confined_weaken; [| |by apply confined_download_plain]; [|done].
    intros l ->. by left.
  - intros _. eapply confined_weaken; [| |by apply confined_extract_zip_plain];
      intros l Hl; by right.
Qed.

(** An entry of a plain name leaves the artifacts of other names
    alone. *)
Lemma process_other_artifact file n s r s' :
  (forall n', Xml.get file "name" = Some n' -> plain n' = true /\ n' <> n) ->
  process w file s = (r, s') ->
  files s' !! artifact n = files s !! artifact n.
Proof.
  intros Hn. unfold process. rewrite find_url. unfold bind at 1. simpl.
  destruct (url_child file) as [ue|]; [|by intros [= <- <-]].
  unfold bind at 1. simpl.
  destruct (Xml.get file "name") as [n'|]; [|by intros [= <- <-]].
  unfold bind at 1. simpl. destruct (Hn n' eq_refl) as [Hp Hne]. intros H.
  assert (Hd : forall s r s', download_file w (Xml.text ue) (file_path n') s = (r, s') ->
                 files s' !! artifact n = files s !! artifact n).
  { intros t r' t' Ht. apply (confined_download_plain _ _ Hp) in Ht as [Hf _].
    destruct (decide (files t' !! artifact n = files t !! artifact n)) as [|E];
      [done|]. apply Hf, artifact_inj in E. by destruct Hne. }
  assert (He : forall s r s', extract_zip w (file_path n') "data" s = (r, s') ->
                 files s' !! artifact n = files s !! artifact n).
  { intros t r' t' Ht. apply (confined_extract_zip_plain _ Hp) in Ht as [Hf _].
    destruct (decide (files t' !! artifact n = files t !! artifact n)) as [|E];
      [done|]. by apply Hf in E as [_ ?]. }
  apply bind_inv in H as [([] & s1 & H1 & H2)|(e & H1 & _)].
  - rewrite (He _ _ _ H2). by eapply Hd.
  - by eapply Hd.
Qed.

Lemma loop_other_artifact n fs : forall s r s',
  (forall f n', f ∈ fs -> Xml.get f "name" = Some n' -> plain n' = true /\ n' <> n) ->
  for_each fs (process w) s = (r, s') ->
  files s' !! artifact n = files s !! artifact n.
Proof.
  induction fs as [|f fs IH]; intros s r s' Hn; simpl; [by intros [= <- <-]|].
  intros H. apply bind_inv in H as [([] & s1 & H1 & H2)|(e & H1 & _)].
  - rewrite (IH s1 r s'); [|intros f' n' Hin; apply Hn; by right|done].
    eapply process_other_artifact; [|done]. intros n'. apply Hn. by left.
  - eapply process_other_artifact; [|done]. intros n'. apply Hn. by left.
Qed.

(** X11. When every name in the manifest is plain (no separator, not
    empty, not [.] or [..]), a run creates or changes files only in
    [downloads] and [data], and creates directories only there,
    whatever its outcome. *)
Theorem plain_names_stay_in_base_folders root s r s' :
  manifest w = Some root ->
  (forall f n, f ∈ file_children root -> Xml.get f "name" = Some n ->
               plain n = true) ->
  main w s = (r, s') ->
  (forall l, files s' !! l <> files s !! l -> in_base_folders l)
  /\ (forall l, l ∈ dirs s' -> l ∈ dirs s \/ in_base_folders l).
Proof.
  intros Hm Hn. unfold main. rewrite (parse_manifest _ _ Hm). unfold bind at 1. simpl.
  revert s r s'. change (confined in_base_folders in_base_folders
    (makedirs "downloads" >> makedirs "data" >>
     let* file_elements := expect (Xml.findall root "ml:file" namespace) SyntaxError in
     for_each file_elements (process w) >>
     emit (Stdout "Download and extraction complete."))).
  apply confined_bind; [apply confined_makedirs_downloads|]. intros _.
  apply confined_bind; [apply confined_makedirs_data|]. intros _.
  rewrite findall_file. unfold bind at 1. simpl.
  apply confined_bind; [|intros; apply confined_emit].
  apply confined_for_each. intros f Hf. apply confined_process_plain.
  intros n. by apply Hn.
Qed.

(** X12. Two entries of the same name share their artifact. After a
    run that returns normally, the artifact of a plain name holds the
    body served for the last entry of that name, provided the entries
    after it have plain names. *)
Theorem last_entry_of_a_name_wins root pre f post n u s s' :
  manifest w = Some root ->
  file_children root = pre ++ f :: post ->
  entry_of f = Some (n, u) ->
  plain n = true ->
  (forall f' n', f' ∈ post -> Xml.get f' "name" = Some n' ->
                 plain n' = true /\ n' <> n) ->
  main w s = (Ok tt, s') ->
  exists r, http w u = Some r
    /\ files s' !! artifact n = Some (concat (chunks r)).
Proof.
  intros Hm Hf He Hp Hpost. unfold main. rewrite (parse_manifest _ _ Hm). unfold bind at 1. simpl.
  intros H.
  apply bind_inv in H as [([] & s1 & H1 & H)|(e & _ & ?)]; [|done].
  apply bind_inv in H as [([] & s2 & H2 & H)|(e & _ & ?)]; [|done].
  rewrite findall_file, Hf in H. unfold bind at 1 in H. simpl in H.
  apply bind_inv in H as [([] & s3 & H3 & H)|(e & _ & ?)]; [|done].
  injection H as <-. simpl. rewrite for_each_app in H3.
  destruct (for_each pre (process w) s2) as [[[]|e] s4]; [|done].
  simpl in H3. apply bind_inv in H3 as [([] & s5 & H5 & H6)|(e & _ & ?)]; [|done].
  rewrite (loop_other_artifact n post _ _ _ Hpost H6).
  rewrite (process_entry _ _ _ _ _ He) in H5.
  apply bind_inv in H5 as [([] & s6 & H7 & H8)|(e & _ & ?)]; [|done].
  apply download_file_ok_inv in H7 as (r & l & t & Hr & _ & _ & Hl & _ & Hfs & _).
  exists r. split; [done|].
  apply (resolve_plain _ _ _ Hp) in Hl as ->.
  apply (confined_extract_zip_plain _ Hp) in H8 as [Hx _].
  destruct (decide (files s5 !! artifact n = files s6 !! artifact n)) as [E|E].
  - by rewrite E, Hfs, lookup_insert_eq.
  - by apply Hx in E as [_ ?].
Qed.
End PlainNames.

Lemma names_pass_elem b fs f n :
  names_pass b fs = true -> f ∈ fs -> Xml.get f "name" = Some n -> b n = true.
Proof.
  unfold names_pass. rewrite forallb_forall. intros H Hin Hn.
  apply list_elem_of_In, H in Hin. by rewrite Hn in Hin.
Qed.

Lemma names_pass_other n fs f' n' :
  names_pass (fun m => plain m && negb (String.eqb m n)) fs = true ->
  f' ∈ fs -> Xml.get f' "name" = Some n' -> plain n' = true /\ n' <> n.
Proof.
  intros H Hin Hn.
  apply (names_pass_elem _ _ _ _ H Hin) in Hn.
  apply andb_true_iff in Hn as [Hp Hne]. split; [done|].
  apply negb_true_iff in Hne. by apply String.eqb_neq.
Qed.

Lemma plain_names_stay_in_base_folders_witness :
  files (main Demo.two_entries Demo.fresh).2
    !! (false, ["readme.txt"; "a"; "data"]) = Some [x68; x69]
  /\ in_base_folders (false, ["readme.txt"; "a"; "data"]).
Proof.
  split; [vm_compute; reflexivity|].
  refine (proj1 (plain_names_stay_in_base_folders Demo.two_entries _
                   Demo.fresh _ _ eq_refl _ (surjective_pairing _)) _ _).
  - intros f n. apply (names_pass_elem plain). vm_compute. reflexivity.
  - vm_compute. discriminate.
Defined.

Lemma last_entry_of_a_name_wins_witness :
  files (main same_name_twice Demo.fresh).2 !! artifact "a.zip"
  = Some Demo.empty_zip.
Proof.
  destruct (last_entry_of_a_name_wins same_name_twice
              (Demo.metalink
                 [Demo.file_element "a.zip" "http://host/a.zip";
                  Demo.file_element "a.zip" "http://host/b.zip";
                  Demo.file_element "b.zip" "http://host/b.zip"])
              [Demo.file_element "a.zip" "http://host/a.zip"]
              (Demo.file_element "a.zip" "http://host/b.zip")
              [Demo.file_element "b.zip" "http://host/b.zip"]
              "a.zip" "http://host/b.zip" Demo.fresh
              (main same_name_twice Demo.fresh).2)
    as (r & Hr & Hf).
  - reflexivity.
  - vm_compute. reflexivity.
  - vm_compute. reflexivity.
  - vm_compute. reflexivity.
  - intros f' n'. apply names_pass_other. vm_compute. reflexivity.
  - apply outcome_eta. vm_compute. reflexivity.
  - rewrite Hf. vm_compute in Hr. injection Hr as <-. reflexivity.
Defined.

(** ** The log *)

Lemma emits_silent {A} P (m : M A) : silent m -> emits P m.
Proof. intros Hm s r s' H. exists []. by rewrite app_nil_r, (Hm _ _ _ H). Qed.

Lemma emits_emit (P : event -> Prop) e : P e -> emits P (emit e).
Proof. intros He s r s' [= <- <-]. exists [e]. split; [done|by constructor]. Qed.

Lemma emits_bind {A B} P (m : M A) (k : A -> M B) :
  emits P m -> (forall a, emits P (k a)) -> emits P (bind m k).
Proof.
  intros Hm Hk s r s' H.
  apply bind_inv in H as [(a & s1 & H1 & H2)|(e & H1 & ->)].
  - apply Hm in H1 as (t1 & E1 & F1). apply Hk in H2 as (t2 & E2 & F2).
    exists (t1 ++ t2). split; [by rewrite E2, E1, app_assoc|by apply Forall_app].
  - by eapply Hm.
Qed.

Lemma emits_for_each {A} P (l : list A) body :
  (forall x, emits P (body x)) -> emits P (for_each l body).
Proof.
  intros Hb. induction l as [|x l IH]; simpl.
  - apply emits_silent, silent_ret.
  - apply emits_bind; auto.
Qed.

Lemma not_final_bars d t cs : forall n, Forall not_final (bars d t n cs).
Proof.
  induction cs as [|c cs IH]; intros n; simpl; [constructor|].
  destruct (is_nil c); [apply IH|]. constructor; [done|apply IH].
Qed.

Lemma not_final_extracted p d : not_final (Stdout (extracted_line p d)).
Proof. unfold not_final, extracted_line, complete_line. by intros [= ?]. Qed.

Section Log.
Variable w : world.

Lemma emits_download_file url p : emits not_final (download_file w url p).
Proof.
  intros s r s'. rewrite download_file_eq. unfold download_outcome.
  assert (H0 : exists t, out s = out s ++ t /\ Forall not_final t)
    by (exists []; by rewrite app_nil_r).
  assert (H1 : forall u, exists t, out s ++ [Get u] = out s ++ t /\ Forall not_final t)
    by (intros u; exists [Get u]; split; [done|by repeat constructor]).
  destruct url as [u|]; [|by intros [= <- <-]].
  destruct (http w u) as [rs|]; [|intros [= <- <-]; apply H1].
  destruct (declared_size rs) as [t|]; [|intros [= <- <-]; apply H1].
  destruct (resolve (dirs s) p) as [l|]; [|intros [= <- <-]; apply H1].
  destruct (is_dir (dirs s) l); [intros [= <- <-]; apply H1|].
  destruct (fits_float t); [|intros [= <- <-]; apply H1].
  intros [= <- <-]. eexists. split; [reflexivity|].
  repeat constructor; try done. apply Forall_app. split; [apply not_final_bars|].
  destruct (complete rs); by repeat constructor.
Qed.

Lemma emits_extract_zip p d : emits not_final (extract_zip w p d).
Proof.
  intros s r s' H. apply extract_zip_out in H. eexists. split; [exact H|].
  destruct r; [|constructor].
  repeat constructor; [done|apply not_final_extracted].
Qed.

Lemma emits_process file : emits not_final (process w file).
Proof.
  unfold process. apply emits_bind; [apply emits_silent, silent_expect|].
  intros u. apply emits_bind; [apply emits_silent, silent_expect|].
  intros ue. apply emits_bind; [apply emits_silent, silent_expect|].
  intros p. apply emits_bind; [apply emits_download_file|].
  intros _. apply emits_extract_zip.
Qed.

Lemma closes_emit : closes (emit (Stdout complete_line)).
Proof. intros s r s' [= <- <-]. by exists []. Qed.

Lemma closes_bind {A} (m : M A) k :
  emits not_final m -> (forall a, closes (k a)) -> closes (bind m k).
Proof.
  intros Hm Hk s r s' H.
  apply bind_inv in H as [(a & s1 & H1 & H2)|(e & H1 & ->)].
  - apply Hm in H1 as (t1 & E1 & F1). apply Hk in H2 as (t2 & F2 & E2).
    exists (t1 ++ t2). split; [by apply Forall_app|].
    by rewrite E2, E1, !app_assoc.
  - apply Hm in H1 as (t1 & E1 & F1). exists t1. split; [done|].
    by rewrite app_nil_r.
Qed.

(** X13. The final line is printed exactly when the run returns
    normally, and then once, as the last thing: a run appends to the
    log events other than the final line, followed by the final line
    after a normal return and by nothing after an exception. *)
Theorem completion_line_iff_normal_return s r s' :
  main w s = (r, s') ->
  exists t, Forall not_final t /\ out s' = out s ++ t ++ closing r.
Proof.
  revert s r s'. change (closes (main w)). unfold main.
  apply closes_bind.
  { apply emits_silent. unfold parse.
    destruct (meta4 w); [apply silent_raise..|apply silent_ret]. }
  intros root.
  apply closes_bind; [apply emits_silent, silent_makedirs|]. intros _.
  apply closes_bind; [apply emits_silent, silent_makedirs|]. intros _.
  apply closes_bind; [apply emits_silent, silent_expect|]. intros fs.
  apply closes_bind; [|intros; apply closes_emit].
  apply emits_for_each, emits_process.
Qed.

(** X14. A run removes nothing, whatever its outcome: every file
    and every directory that was there before is there after, and a
    disk on which no place is both a file and a directory stays so. *)
Theorem run_removes_nothing s r s' :
  main w s = (r, s') ->
  dom (files s) ⊆ dom (files s') /\ dirs s ⊆ dirs s' /\ (wf s -> wf s').
Proof.
  intros H. destruct (grows_main w _ _ _ H) as [[Hf Hd] Hw]. by repeat split.
Qed.
End Log.

Lemma completion_line_iff_normal_return_witness :
  exists t, Forall not_final t
    /\ out (main Demo.broken_second Demo.fresh).2 = t
    /\ (main Demo.broken_second Demo.fresh).1 = Raise RequestException.
Proof.
  destruct (completion_line_iff_normal_return Demo.broken_second Demo.fresh
              _ _ (surjective_pairing _)) as (t & Ft & Ho).
  assert (E : (main Demo.broken_second Demo.fresh).1 = Raise RequestException)
    by (vm_compute; reflexivity).
  exists t. split; [exact Ft|]. split; [|exact E].
  rewrite E in Ho. simpl in Ho. rewrite app_nil_r in Ho. exact Ho.
Defined.

Lemma run_removes_nothing_witness :
  (false, ["downloads"]) ∈ dirs (main Demo.two_entries in_downloads).2.
Proof.
  apply (proj1 (proj2 (run_removes_nothing Demo.two_entries in_downloads _ _
                         (surjective_pairing _)))).
  exact (proj2 (elem_of_singleton _ _) eq_refl).
Defined.
